(** * Hydropulse telemetry core: a shallow embedding of [TelemetryCore]

    The development follows [src/core/telemetry.core.ts]: the configuration
    normaliser, the circuit breaker, the bounded event queue, the retry
    scheduler, the fallback switch and the sanitiser, with the JavaScript
    runtime the class relies on (completion records, [JSON], timers, the
    clock and the backend objects) made explicit.

    Conventions.
    - A JavaScript [number] is an integer of [Z]; fractional values, [NaN]
      and the infinities are outside the modelled fragment.
    - An [async] method is run to completion: one call is one function from
      the world before the call to its completion and the world after it.
    - [debugLog] and [console.log] only print, they are left out. *)

From Stdlib Require Import ZArith Lia Ascii String.
From stdpp Require Import base option list strings pretty gmap.

Set Warnings "-register-all".

Open Scope string_scope.
Open Scope list_scope.
Open Scope Z_scope.

(** ** JavaScript values and completions *)

(** The payloads handed to the core ([MetricData], [TraceData], [LogData],
    attribute records) are plain JavaScript values. *)
Inductive JsValue : Type :=
  | JsUndefined
  | JsNull
  | JsBool (b : bool)
  | JsNumber (n : Z)
  | JsBigInt (n : Z)
  | JsString (s : string)
  | JsArray (elems : list JsValue)
  | JsObject (props : list (string * JsValue)).

(** A thrown value: the class of the error and its message. *)
Inductive JsError : Type :=
  | Error (message : string)
  | TypeError (message : string)
  | SyntaxError (message : string).

(** How a call ends: it returns a value or it throws (for an [async] method:
    the promise is fulfilled or rejected). *)
Inductive Completion (A : Type) : Type :=
  | Normal (a : A)
  | Throw (e : JsError).
Arguments Normal {A} a.
Arguments Throw {A} e.

Definition thrown {A} (c : Completion A) : option JsError :=
  match c with Normal _ => None | Throw e => Some e end.

(** ** Objects as property lists *)

Module Object.

(** A property list is kept in the order in which JavaScript enumerates the
    own properties of an object: the array indices first, ascending, then
    the other keys as they were created. *)
Definition Properties : Type := list (string * JsValue).

Definition isDigit (c : ascii) : bool :=
  let n := N_of_ascii c in ((48 <=? n) && (n <=? 57))%N.

Fixpoint digitsValue (text : string) (value : N) : option N :=
  match text with
  | EmptyString => Some value
  | String c rest =>
      if isDigit c
      then digitsValue rest (10 * value + (N_of_ascii c - 48))%N
      else None
  end.

(** The key as an array index: a canonical numeric string below 2^32 - 1. *)
Definition arrayIndex (key : string) : option N :=
  match key with
  | EmptyString => None
  | String _ _ =>
      match digitsValue key 0 with
      | Some n =>
          if String.eqb (pretty n) key && (n <? 4294967295)%N then Some n else None
      | None => None
      end
  end.

Definition has (props : Properties) (key : string) : bool :=
  existsb (fun p => String.eqb (fst p) key) props.

Fixpoint insertIndex (n : N) (key : string) (value : JsValue) (props : Properties)
  : Properties :=
  match props with
  | [] => [(key, value)]
  | (k, v) :: rest =>
      match arrayIndex k with
      | Some m =>
          if (m <? n)%N then (k, v) :: insertIndex n key value rest
          else (key, value) :: (k, v) :: rest
      | None => (key, value) :: (k, v) :: rest
      end
  end.

(** [object[key] = value] on a plain object: a property that exists keeps
    its place, a new one takes the place its key gives it. *)
Definition set (props : Properties) (key : string) (value : JsValue) : Properties :=
  if has props key then
    (fun p => if String.eqb (fst p) key then (key, value) else p) <$> props
  else
    match arrayIndex key with
    | Some n => insertIndex n key value props
    | None => props ++ [(key, value)]
    end.

(** The object that takes the members one after the other, as
    [JSON.parse] builds it: of two members with one key the second gives
    the value and the first the place. *)
Definition create (members : Properties) : Properties :=
  foldl (fun acc p => set acc (fst p) (snd p)) [] members.

(** [{ ...target, ...source }]: spreading [undefined] adds nothing. *)
Definition spread (target : Properties) (source : option Properties) : Properties :=
  foldl (fun acc p => set acc (fst p) (snd p)) target (default [] source).

End Object.

(** ** The [JSON] object *)

Module JSON.

Definition dquote : ascii := "034"%char.
Definition backslash : ascii := "092"%char.

Definition hexDigit (n : N) : ascii :=
  if (n <? 10)%N then ascii_of_N (48 + n) else ascii_of_N (87 + n).

(** QuoteJSONString: the two-character escapes, and [\u00XX] for the other
    control characters. *)
Definition escapeChar (c : ascii) : string :=
  let n := N_of_ascii c in
  if (n =? 34)%N then String backslash (String dquote EmptyString)
  else if (n =? 92)%N then String backslash (String backslash EmptyString)
  else if (n =? 8)%N then String backslash "b"
  else if (n =? 9)%N then String backslash "t"
  else if (n =? 10)%N then String backslash "n"
  else if (n =? 12)%N then String backslash "f"
  else if (n =? 13)%N then String backslash "r"
  else if (n <? 32)%N then
    String backslash
      (String "u" (String "0" (String "0"
        (String (hexDigit (n / 16)) (String (hexDigit (n mod 16)) EmptyString)))))
  else String c EmptyString.

Fixpoint escapeString (s : string) : string :=
  match s with
  | EmptyString => EmptyString
  | String c r => escapeChar c +:+ escapeString r
  end.

Definition quote (s : string) : string :=
  String dquote (escapeString s +:+ String dquote EmptyString).

Fixpoint join (sep : string) (parts : list string) : string :=
  match parts with
  | [] => EmptyString
  | [p] => p
  | p :: rest => p +:+ sep +:+ join sep rest
  end.

(** SerializeJSONProperty: [Normal None] is JavaScript's [undefined] (the
    value has no JSON text), a BigInt throws a [TypeError]. In an array
    an element without text is written [null]; in an object a property
    without text is skipped. *)
Fixpoint serializeProperty (v : JsValue) : Completion (option string) :=
  match v with
  | JsUndefined => Normal None
  | JsNull => Normal (Some "null")
  | JsBool true => Normal (Some "true")
  | JsBool false => Normal (Some "false")
  | JsNumber n => Normal (Some (pretty n))
  | JsBigInt _ => Throw (TypeError "Do not know how to serialize a BigInt")
  | JsString s => Normal (Some (quote s))
  | JsArray elems =>
      let fix serializeElements (l : list JsValue) : Completion (list string) :=
        match l with
        | [] => Normal []
        | x :: rest =>
            match serializeProperty x with
            | Throw e => Throw e
            | Normal o =>
                match serializeElements rest with
                | Throw e => Throw e
                | Normal parts => Normal (default "null" o :: parts)
                end
            end
        end in
      match serializeElements elems with
      | Throw e => Throw e
      | Normal parts => Normal (Some ("[" +:+ join "," parts +:+ "]"))
      end
  | JsObject props =>
      let fix serializeMembers (l : list (string * JsValue)) : Completion (list string) :=
        match l with
        | [] => Normal []
        | (k, x) :: rest =>
            match serializeProperty x with
            | Throw e => Throw e
            | Normal o =>
                match serializeMembers rest with
                | Throw e => Throw e
                | Normal parts =>
                    Normal (match o with
                            | Some text => (quote k +:+ ":" +:+ text) :: parts
                            | None => parts
                            end)
                end
            end
        end in
      match serializeMembers props with
      | Throw e => Throw e
      | Normal parts => Normal (Some ("{" +:+ join "," parts +:+ "}"))
      end
  end.

(** [JSON.stringify(value)] with no replacer and no indentation. *)
Definition stringify (v : JsValue) : Completion (option string) :=
  serializeProperty v.

(** *** Parsing *)

Definition isWhitespace (c : ascii) : bool :=
  let n := N_of_ascii c in
  ((n =? 32) || (n =? 9) || (n =? 10) || (n =? 13))%N.

Definition isDigit (c : ascii) : bool :=
  let n := N_of_ascii c in ((48 <=? n) && (n <=? 57))%N.

Fixpoint skipWhitespace (s : string) : string :=
  match s with
  | String c r => if isWhitespace c then skipWhitespace r else s
  | EmptyString => s
  end.

(** [expect lit s] removes the literal [lit] from the front of [s]. *)
Fixpoint expect (lit s : string) : option string :=
  match lit, s with
  | EmptyString, _ => Some s
  | String a lit', String b s' =>
      if (N_of_ascii a =? N_of_ascii b)%N then expect lit' s' else None
  | String _ _, EmptyString => None
  end.

Definition hexValue (c : ascii) : option N :=
  let n := N_of_ascii c in
  if ((48 <=? n) && (n <=? 57))%N then Some (n - 48)%N
  else if ((97 <=? n) && (n <=? 102))%N then Some (n - 87)%N
  else if ((65 <=? n) && (n <=? 70))%N then Some (n - 55)%N
  else None.

(** The characters of a string literal after its opening quote, up to the
    closing quote. Code points above 255 do not fit the byte strings used
    here and are refused. *)
Fixpoint parseChars (s : string) : option (string * string) :=
  match s with
  | EmptyString => None
  | String c r =>
      let n := N_of_ascii c in
      if (n =? 34)%N then Some (EmptyString, r)
      else if (n <? 32)%N then None
      else if (n =? 92)%N then
        match r with
        | String e r' =>
            let m := N_of_ascii e in
            let continue (x : ascii) (tail : string) :=
              match parseChars tail with
              | Some (body, out) => Some (String x body, out)
              | None => None
              end in
            if (m =? 34)%N then continue dquote r'
            else if (m =? 92)%N then continue backslash r'
            else if (m =? 47)%N then continue "/"%char r'
            else if (m =? 98)%N then continue "008"%char r'
            else if (m =? 102)%N then continue "012"%char r'
            else if (m =? 110)%N then continue "010"%char r'
            else if (m =? 114)%N then continue "013"%char r'
            else if (m =? 116)%N then continue "009"%char r'
            else if (m =? 117)%N then
              match r' with
              | String h1 (String h2 (String h3 (String h4 r''))) =>
                  match hexValue h1, hexValue h2, hexValue h3, hexValue h4 with
                  | Some 0%N, Some 0%N, Some a, Some b =>
                      continue (ascii_of_N (16 * a + b)) r''
                  | _, _, _, _ => None
                  end
              | _ => None
              end
            else None
        | EmptyString => None
        end
      else
        match parseChars r with
        | Some (body, out) => Some (String c body, out)
        | None => None
        end
  end.

Fixpoint parseDigits (acc : Z) (s : string) : Z * string :=
  match s with
  | String c r =>
      if isDigit c then parseDigits (10 * acc + Z.of_N (N_of_ascii c - 48)) r
      else (acc, s)
  | EmptyString => (acc, s)
  end.

Definition startsFraction (s : string) : bool :=
  match s with
  | String c _ =>
      let n := N_of_ascii c in ((n =? 46) || (n =? 101) || (n =? 69))%N
  | EmptyString => false
  end.

(** An integer literal: no leading zero, no fraction and no exponent (the
    modelled numbers are integers). *)
Definition parseNumber (s : string) : option (Z * string) :=
  let '(negative, body) :=
    match s with
    | String c r => if (N_of_ascii c =? 45)%N then (true, r) else (false, s)
    | EmptyString => (false, s)
    end in
  match body with
  | String d r =>
      if negb (isDigit d) then None
      else
        let '(n, out) :=
          if (N_of_ascii d =? 48)%N then (0, r) else parseDigits 0 body in
        match out with
        | String c _ =>
            if isDigit c || startsFraction out then None
            else Some (if negative then - n else n, out)
        | EmptyString => Some (if negative then - n else n, out)
        end
  | EmptyString => None
  end.

Definition startsWith (c : ascii) (s : string) : option string :=
  match s with
  | String d r => if (N_of_ascii c =? N_of_ascii d)%N then Some r else None
  | EmptyString => None
  end.

(** Recursive descent; [fuel] bounds the nesting and the number of
    elements. *)
Fixpoint parseValue (fuel : nat) (s : string) : option (JsValue * string) :=
  match fuel with
  | O => None
  | S fuel' =>
      match skipWhitespace s with
      | EmptyString => None
      | String c r as text =>
          let n := N_of_ascii c in
          if (n =? 110)%N then (fun out => (JsNull, out)) <$> expect "ull" r
          else if (n =? 116)%N then (fun out => (JsBool true, out)) <$> expect "rue" r
          else if (n =? 102)%N then (fun out => (JsBool false, out)) <$> expect "alse" r
          else if (n =? 34)%N then
            (fun '(body, out) => (JsString body, out)) <$> parseChars r
          else if (n =? 91)%N then
            match startsWith "]" (skipWhitespace r) with
            | Some out => Some (JsArray [], out)
            | None =>
                (fun '(elems, out) => (JsArray elems, out)) <$> parseElements fuel' r
            end
          else if (n =? 123)%N then
            match startsWith "}" (skipWhitespace r) with
            | Some out => Some (JsObject [], out)
            | None =>
                (fun '(members, out) => (JsObject (Object.create members), out))
                  <$> parseMembers fuel' r
            end
          else (fun '(z, out) => (JsNumber z, out)) <$> parseNumber text
      end
  end
with parseElements (fuel : nat) (s : string) : option (list JsValue * string) :=
  match fuel with
  | O => None
  | S fuel' =>
      match parseValue fuel' s with
      | None => None
      | Some (v, out) =>
          match skipWhitespace out with
          | String c r =>
              if (N_of_ascii c =? 93)%N then Some ([v], r)
              else if (N_of_ascii c =? 44)%N then
                (fun '(vs, out') => (v :: vs, out')) <$> parseElements fuel' r
              else None
          | EmptyString => None
          end
      end
  end
with parseMembers (fuel : nat) (s : string) : option (list (string * JsValue) * string) :=
  match fuel with
  | O => None
  | S fuel' =>
      match startsWith dquote (skipWhitespace s) with
      | None => None
      | Some afterQuote =>
          match parseChars afterQuote with
          | None => None
          | Some (key, afterKey) =>
              match startsWith ":" (skipWhitespace afterKey) with
              | None => None
              | Some afterColon =>
                  match parseValue fuel' afterColon with
                  | None => None
                  | Some (v, out) =>
                      match skipWhitespace out with
                      | String c r =>
                          if (N_of_ascii c =? 125)%N then Some ([(key, v)], r)
                          else if (N_of_ascii c =? 44)%N then
                            (fun '(ps, out') => ((key, v) :: ps, out'))
                              <$> parseMembers fuel' r
                          else None
                      | EmptyString => None
                      end
                  end
              end
          end
      end
  end.

(** [JSON.parse(text)]: [None] stands for the [SyntaxError] it throws. *)
Definition parseText (text : string) : option JsValue :=
  match parseValue (2 * String.length text + 2) text with
  | Some (v, out) =>
      match skipWhitespace out with
      | EmptyString => Some v
      | String _ _ => None
      end
  | None => None
  end.

(** [JSON.parse(x)] first converts [x] to a string: [undefined] becomes
    the text [undefined], which is not JSON. *)
Definition parse (text : option string) : Completion JsValue :=
  match text with
  | Some t =>
      match parseText t with
      | Some v => Normal v
      | None => Throw (SyntaxError "Unexpected token in JSON")
      end
  | None => Throw (SyntaxError "Unexpected token in JSON")
  end.

End JSON.

(** Whether a BigInt occurs anywhere in a value. *)
Fixpoint hasBigInt (v : JsValue) : bool :=
  match v with
  | JsBigInt _ => true
  | JsArray elems => existsb hasBigInt elems
  | JsObject props => existsb (fun p => match p with (_, x) => hasBigInt x end) props
  | JsUndefined | JsNull | JsBool _ | JsNumber _ | JsString _ => false
  end.

(** ** Regular expressions

    The redaction patterns are [RegExp] objects of the runtime. The core only
    calls [text.replace(pattern, replacement)] on them, so an engine is a type
    of patterns with that operation, and the three patterns the normaliser
    installs by default. *)
Class RegExpEngine : Type := {
  RegExp : Type;
  String_replace : string -> RegExp -> string -> string;
  creditCardPattern : RegExp;
  emailPattern : RegExp;
  ssnPattern : RegExp;
}.

(** ** Interfaces ([interfaces/telemetry.interfaces.ts]) *)

Inductive ProviderKind : Type := grafana | opentelemetry | alloy | auto.

Record Batching : Type := {
  maxQueueSize : Z;
  scheduledDelayMillis : Z;
}.

Record CircuitBreaker : Type := {
  failureThreshold : Z;
  resetTimeoutMs : Z;
}.

Record Retry : Type := {
  maxAttempts : Z;
  backoffMultiplier : Z;
  initialDelayMs : Z;
}.

(** The configuration as the caller writes it: the groups are optional, and
    a caller of the compiled library can leave out the two required names.
    The connection parameters of a backend are opaque to the core, and the
    sampling group is never read by it (left out). *)
Module Raw.
(** [piiPatterns?: RegExp[]]: [None] when the group has no such property,
    [Some None] when the property is there and holds [undefined]. *)
Record Sanitization `{RegExpEngine} : Type := {
  enabled : bool;
  piiPatterns : option (option (list RegExp));
}.

Record TelemetryConfig `{RegExpEngine} : Type := {
  provider : ProviderKind;
  environment : string;
  serviceName : option string;
  serviceVersion : option string;
  grafana : option JsValue;
  openTelemetry : option JsValue;
  alloy : option JsValue;
  batching : option Batching;
  circuitBreaker : option CircuitBreaker;
  retry : option Retry;
  debug : option bool;
  sanitization : option Sanitization;
}.
End Raw.

(** [this.config.sanitization]: [piiPatterns] is [None] when the caller's
    group held the property with the value [undefined]. *)
Record Sanitization `{RegExpEngine} : Type := {
  enabled : bool;
  piiPatterns : option (list RegExp);
}.

(** [this.config]: the caller's configuration ([...config]) with every group
    the core reads filled in by [validateAndNormalizeConfig]. *)
Record TelemetryConfig `{RegExpEngine} : Type := {
  source : Raw.TelemetryConfig;
  batching : Batching;
  circuitBreaker : CircuitBreaker;
  retry : Retry;
  debug : bool;
  sanitization : Sanitization;
}.

Inductive BreakerState : Type := closed | open | half_open.

Record CircuitBreakerState : Type := {
  state : BreakerState;
  failureCount : Z;
  lastFailureTime : option Z;
  nextAttemptTime : option Z;
}.

Inductive EventType : Type := metric | trace | log.

Record TelemetryEvent : Type := {
  type : EventType;
  data : JsValue;
  timestamp : Z;
  retryCount : option Z;
}.

(** The backend classes of [providers/]. *)
Inductive ProviderClass : Type :=
  | GrafanaProvider
  | OpenTelemetryProvider
  | AlloyProvider.

(** [interface TelemetryProvider]. A backend object has a state of type
    [Provider]; a method takes the state before the call to the completion
    of the call and the state after it. What a backend answers (the network,
    the SDK) is not fixed here: every property below holds for all of them.
    [loadHydropulseConfig] reads the process environment. *)
Module TelemetryProvider.
Class Backends `{RegExpEngine} : Type := {
  Provider : Type;
  create : ProviderClass -> Provider;
  initialize : TelemetryConfig -> Provider -> Completion unit * Provider;
  recordMetric : JsValue -> Provider -> Completion unit * Provider;
  startTrace : JsValue -> Provider -> Completion string * Provider;
  endTrace : string -> JsValue -> Provider -> Completion unit * Provider;
  recordLog : JsValue -> Provider -> Completion unit * Provider;
  flush : Provider -> Completion unit * Provider;
  shutdown : Provider -> Completion unit * Provider;
  isHealthy : Provider -> bool;
  loadHydropulseConfig : Completion Raw.TelemetryConfig;
}.
End TelemetryProvider.
Import TelemetryProvider (Backends, Provider).

(** Which of the two backend objects a reference points to:
    [this.currentProvider] aliases [this.primaryProvider] or
    [this.fallbackProvider]. *)
Inductive ProviderRef : Type := primary | fallback.

(** What the core asks of a backend, recorded in the order it happens. *)
Inductive ProviderCall : Type :=
  | CallInitialize
  | CallRecordMetric (d : JsValue)
  | CallStartTrace (d : JsValue)
  | CallEndTrace (spanId : string) (attributes : JsValue)
  | CallRecordLog (d : JsValue)
  | CallFlush
  | CallShutdown.

Inductive HostEffect : Type :=
  | Instantiate (c : ProviderClass)
  | Invoke (target : ProviderRef) (call : ProviderCall).

(** A timer armed with [setTimeout]: the delay and what the callback of
    [retryEvent] has captured. *)
Record Timer : Type := {
  timerId : nat;
  delay : Z;
  eventKey : string;
  event : TelemetryEvent;
  attempt : Z;
}.

Module Health.
Record HealthStatus : Type := {
  healthy : bool;
  provider : string;
  queueSize : nat;
  circuitBreakerState : string;
}.
End Health.

(** ** The world: a [TelemetryCore] object and the runtime around it *)

Record World `{Backends} : Type := {
  (* fields of the object *)
  config : TelemetryConfig;
  primaryProvider : Provider;
  fallbackProvider : Provider;
  currentProvider : ProviderRef;
  circuitBreakerState : CircuitBreakerState;
  eventQueue : list TelemetryEvent;
  isInitialized : bool;
  retryTimeouts : gmap string nat;
  startTime : Z;
  metricsCount : Z;
  lastMetricsTime : Z;
  (* the runtime *)
  clock : Z;                      (* what [Date.now()] returns *)
  timers : list Timer;            (* armed by [setTimeout], not yet fired *)
  nextTimerId : nat;
  effects : list HostEffect;      (* backend objects created and called *)
}.

Section Core.
Context `{backends : Backends}.

(** *** Field updates *)

Definition set_primaryProvider (p : Provider) (w : World) : World :=
  {| config := config w; primaryProvider := p;
     fallbackProvider := fallbackProvider w; currentProvider := currentProvider w;
     circuitBreakerState := circuitBreakerState w; eventQueue := eventQueue w;
     isInitialized := isInitialized w; retryTimeouts := retryTimeouts w;
     startTime := startTime w; metricsCount := metricsCount w;
     lastMetricsTime := lastMetricsTime w; clock := clock w; timers := timers w;
     nextTimerId := nextTimerId w; effects := effects w |}.

Definition set_fallbackProvider (p : Provider) (w : World) : World :=
  {| config := config w; primaryProvider := primaryProvider w;
     fallbackProvider := p; currentProvider := currentProvider w;
     circuitBreakerState := circuitBreakerState w; eventQueue := eventQueue w;
     isInitialized := isInitialized w; retryTimeouts := retryTimeouts w;
     startTime := startTime w; metricsCount := metricsCount w;
     lastMetricsTime := lastMetricsTime w; clock := clock w; timers := timers w;
     nextTimerId := nextTimerId w; effects := effects w |}.

Definition set_currentProvider (r : ProviderRef) (w : World) : World :=
  {| config := config w; primaryProvider := primaryProvider w;
     fallbackProvider := fallbackProvider w; currentProvider := r;
     circuitBreakerState := circuitBreakerState w; eventQueue := eventQueue w;
     isInitialized := isInitialized w; retryTimeouts := retryTimeouts w;
     startTime := startTime w; metricsCount := metricsCount w;
     lastMetricsTime := lastMetricsTime w; clock := clock w; timers := timers w;
     nextTimerId := nextTimerId w; effects := effects w |}.

Definition set_circuitBreakerState (b : CircuitBreakerState) (w : World) : World :=
  {| config := config w; primaryProvider := primaryProvider w;
     fallbackProvider := fallbackProvider w; currentProvider := currentProvider w;
     circuitBreakerState := b; eventQueue := eventQueue w;
     isInitialized := isInitialized w; retryTimeouts := retryTimeouts w;
     startTime := startTime w; metricsCount := metricsCount w;
     lastMetricsTime := lastMetricsTime w; clock := clock w; timers := timers w;
     nextTimerId := nextTimerId w; effects := effects w |}.

Definition set_eventQueue (q : list TelemetryEvent) (w : World) : World :=
  {| config := config w; primaryProvider := primaryProvider w;
     fallbackProvider := fallbackProvider w; currentProvider := currentProvider w;
     circuitBreakerState := circuitBreakerState w; eventQueue := q;
     isInitialized := isInitialized w; retryTimeouts := retryTimeouts w;
     startTime := startTime w; metricsCount := metricsCount w;
     lastMetricsTime := lastMetricsTime w; clock := clock w; timers := timers w;
     nextTimerId := nextTimerId w; effects := effects w |}.

Definition set_isInitialized (b : bool) (w : World) : World :=
  {| config := config w; primaryProvider := primaryProvider w;
     fallbackProvider := fallbackProvider w; currentProvider := currentProvider w;
     circuitBreakerState := circuitBreakerState w; eventQueue := eventQueue w;
     isInitialized := b; retryTimeouts := retryTimeouts w;
     startTime := startTime w; metricsCount := metricsCount w;
     lastMetricsTime := lastMetricsTime w; clock := clock w; timers := timers w;
     nextTimerId := nextTimerId w; effects := effects w |}.

Definition set_retryTimeouts (m : gmap string nat) (w : World) : World :=
  {| config := config w; primaryProvider := primaryProvider w;
     fallbackProvider := fallbackProvider w; currentProvider := currentProvider w;
     circuitBreakerState := circuitBreakerState w; eventQueue := eventQueue w;
     isInitialized := isInitialized w; retryTimeouts := m;
     startTime := startTime w; metricsCount := metricsCount w;
     lastMetricsTime := lastMetricsTime w; clock := clock w; timers := timers w;
     nextTimerId := nextTimerId w; effects := effects w |}.

Definition set_metricsCount (n : Z) (w : World) : World :=
  {| config := config w; primaryProvider := primaryProvider w;
     fallbackProvider := fallbackProvider w; currentProvider := currentProvider w;
     circuitBreakerState := circuitBreakerState w; eventQueue := eventQueue w;
     isInitialized := isInitialized w; retryTimeouts := retryTimeouts w;
     startTime := startTime w; metricsCount := n;
     lastMetricsTime := lastMetricsTime w; clock := clock w; timers := timers w;
     nextTimerId := nextTimerId w; effects := effects w |}.

Definition set_clock (t : Z) (w : World) : World :=
  {| config := config w; primaryProvider := primaryProvider w;
     fallbackProvider := fallbackProvider w; currentProvider := currentProvider w;
     circuitBreakerState := circuitBreakerState w; eventQueue := eventQueue w;
     isInitialized := isInitialized w; retryTimeouts := retryTimeouts w;
     startTime := startTime w; metricsCount := metricsCount w;
     lastMetricsTime := lastMetricsTime w; clock := t; timers := timers w;
     nextTimerId := nextTimerId w; effects := effects w |}.

Definition set_timers (ts : list Timer) (next : nat) (w : World) : World :=
  {| config := config w; primaryProvider := primaryProvider w;
     fallbackProvider := fallbackProvider w; currentProvider := currentProvider w;
     circuitBreakerState := circuitBreakerState w; eventQueue := eventQueue w;
     isInitialized := isInitialized w; retryTimeouts := retryTimeouts w;
     startTime := startTime w; metricsCount := metricsCount w;
     lastMetricsTime := lastMetricsTime w; clock := clock w; timers := ts;
     nextTimerId := next; effects := effects w |}.

Definition set_effects (l : list HostEffect) (w : World) : World :=
  {| config := config w; primaryProvider := primaryProvider w;
     fallbackProvider := fallbackProvider w; currentProvider := currentProvider w;
     circuitBreakerState := circuitBreakerState w; eventQueue := eventQueue w;
     isInitialized := isInitialized w; retryTimeouts := retryTimeouts w;
     startTime := startTime w; metricsCount := metricsCount w;
     lastMetricsTime := lastMetricsTime w; clock := clock w; timers := timers w;
     nextTimerId := nextTimerId w; effects := l |}.

(** *** Methods as computations over the world

    A method either returns or throws; what it did to the object and to
    the runtime before throwing stays done. *)
Definition M (A : Type) : Type := World -> Completion A * World.

Definition ret {A} (a : A) : M A := fun w => (Normal a, w).

Definition throw {A} (e : JsError) : M A := fun w => (Throw e, w).

Definition bind {A B} (m : M A) (k : A -> M B) : M B := fun w =>
  match m w with
  | (Normal a, w') => k a w'
  | (Throw e, w') => (Throw e, w')
  end.

(** [try { body } catch (e) { handler }] *)
Definition tryCatch {A} (body : M A) (handler : JsError -> M A) : M A := fun w =>
  match body w with
  | (Normal a, w') => (Normal a, w')
  | (Throw e, w') => handler e w'
  end.

Definition read {A} (f : World -> A) : M A := fun w => (Normal (f w), w).

Definition update (f : World -> World) : M unit := fun w => (Normal tt, f w).

(** The completion of a call and the world it leaves. *)
Definition result {A} (m : M A) (w : World) : Completion A := fst (m w).
Definition after {A} (m : M A) (w : World) : World := snd (m w).

(** A call that returns to its caller from every world. *)
Definition Returns {A} (m : M A) : Prop :=
  forall w, exists a, result m w = Normal a.

(** A call that leaves the world as it found it. *)
Definition Pure {A} (m : M A) : Prop :=
  forall w, after m w = w.

(** [for (const x of l) { body }] *)
Fixpoint forOf {A} (l : list A) (body : A -> M unit) : M unit :=
  match l with
  | [] => ret tt
  | x :: rest => bind (body x) (fun _ => forOf rest body)
  end.

End Core.

Declare Scope js_scope.
Delimit Scope js_scope with js.
Notation "x <- m ;; k" := (bind m (fun x => k))
  (at level 100, m at next level, right associativity) : js_scope.
Notation "m ;; k" := (bind m (fun _ => k))
  (at level 100, right associativity) : js_scope.
Open Scope js_scope.

(** ** [class TelemetryCore] *)

Section TelemetryCore.
Context `{backends : Backends}.

(** [!s] for a string that may be absent: [undefined] and the empty string
    are falsy. *)
Definition falsy (s : option string) : bool :=
  match s with
  | None => true
  | Some EmptyString => true
  | Some (String _ _) => false
  end.

(** [if (v)] for a value: the truthiness of JavaScript. *)
Definition truthy (v : JsValue) : bool :=
  match v with
  | JsUndefined | JsNull => false
  | JsBool b => b
  | JsNumber n | JsBigInt n => negb (n =? 0)
  | JsString EmptyString => false
  | JsString (String _ _) => true
  | JsArray _ | JsObject _ => true
  end.

Definition defaultPiiPatterns : list RegExp :=
  [creditCardPattern; emailPattern; ssnPattern].

(** Each group is the defaults with the caller's group spread over them.
    A group of the caller holds every property of its type, so it replaces
    the defaults as a whole; only [piiPatterns] is optional within its
    group, and the spread copies it also when it holds [undefined]. *)
Definition validateAndNormalizeConfig (config : Raw.TelemetryConfig)
  : Completion TelemetryConfig :=
  if falsy (Raw.serviceName config) then
    Throw (Error "serviceName is required in telemetry configuration")
  else if falsy (Raw.serviceVersion config) then
    Throw (Error "serviceVersion is required in telemetry configuration")
  else
    Normal {|
      source := config;
      batching :=
        default {| maxQueueSize := 1000; scheduledDelayMillis := 5000 |}
                (Raw.batching config);
      circuitBreaker :=
        default {| failureThreshold := 5; resetTimeoutMs := 60000 |}
                (Raw.circuitBreaker config);
      retry :=
        default {| maxAttempts := 3; backoffMultiplier := 2; initialDelayMs := 1000 |}
                (Raw.retry config);
      debug := default false (Raw.debug config);
      sanitization :=
        match Raw.sanitization config with
        | Some s =>
            {| enabled := Raw.enabled s;
               piiPatterns := default (Some defaultPiiPatterns) (Raw.piiPatterns s) |}
        | None => {| enabled := true; piiPatterns := Some defaultPiiPatterns |}
        end;
    |}.

(** The classes of the primary and of the fallback backend;
    [if (this.config.alloy)] is a test of truthiness. *)
Definition initializeProviders (cfg : TelemetryConfig) : ProviderClass * ProviderClass :=
  match Raw.provider (source cfg) with
  | grafana => (GrafanaProvider, OpenTelemetryProvider)
  | opentelemetry => (OpenTelemetryProvider, GrafanaProvider)
  | alloy => (AlloyProvider, OpenTelemetryProvider)
  | auto =>
      if truthy (default JsUndefined (Raw.alloy (source cfg)))
      then (AlloyProvider, OpenTelemetryProvider)
      else (GrafanaProvider, OpenTelemetryProvider)
  end.

Definition initializeCircuitBreaker : CircuitBreakerState :=
  {| state := closed; failureCount := 0;
     lastFailureTime := None; nextAttemptTime := None |}.

(** The object once the configuration is accepted: [initializeProviders],
    [initializeCircuitBreaker] and the field initialisers. *)
Definition newCore (cfg : TelemetryConfig) (now : Z) : World :=
  let '(primaryClass, fallbackClass) := initializeProviders cfg in
  {| config := cfg;
     primaryProvider := TelemetryProvider.create primaryClass;
     fallbackProvider := TelemetryProvider.create fallbackClass;
     currentProvider := primary;
     circuitBreakerState := initializeCircuitBreaker;
     eventQueue := [];
     isInitialized := false;
     retryTimeouts := ∅;
     startTime := now;
     metricsCount := 0;
     lastMetricsTime := now;
     clock := now;
     timers := [];
     nextTimerId := O;
     effects := [Instantiate primaryClass; Instantiate fallbackClass] |}.

(** [new TelemetryCore(config)] at time [now]: the completion of the
    constructor and the backend objects it created on the way. *)
Definition constructor (config : option Raw.TelemetryConfig) (now : Z)
  : Completion World * list HostEffect :=
  match (match config with
         | Some c => Normal c
         | None => TelemetryProvider.loadHydropulseConfig
         end) with
  | Throw e => (Throw e, [])
  | Normal raw =>
      match validateAndNormalizeConfig raw with
      | Throw e => (Throw e, [])
      | Normal cfg => (Normal (newCore cfg now), effects (newCore cfg now))
      end
  end.

(** *** The runtime *)

Definition Date_now : M Z := read clock.

Definition providerAt (r : ProviderRef) (w : World) : Provider :=
  match r with
  | primary => primaryProvider w
  | fallback => fallbackProvider w
  end.

(** [await this.currentProvider.method(...)]: the call goes to the object
    the reference points to, and is recorded. *)
Definition invoke {A} (call : ProviderCall)
    (method : Provider -> Completion A * Provider) : M A := fun w =>
  let target := currentProvider w in
  let '(c, p) := method (providerAt target w) in
  let w' := match target with
            | primary => set_primaryProvider p w
            | fallback => set_fallbackProvider p w
            end in
  (c, set_effects (effects w ++ [Invoke target call]) w').

(** [setTimeout(callback, delay)] returns the handle of the new timer. *)
Definition setTimeout (delay : Z) (eventKey : string) (event : TelemetryEvent)
    (attempt : Z) : M nat := fun w =>
  let id := nextTimerId w in
  (Normal id,
   set_timers (timers w ++ [{| timerId := id; delay := delay; eventKey := eventKey;
                               event := event; attempt := attempt |}])
              (S id) w).

(** [clearTimeout(handle)] *)
Definition clearTimeout (handle : nat) : M unit :=
  update (fun w =>
    set_timers (filter (fun t => timerId t ≠ handle) (timers w)) (nextTimerId w) w).

Definition liftCompletion {A} (c : Completion A) : M A := fun w => (c, w).

(** *** Circuit breaker *)

Definition openCircuitBreaker : M unit :=
  now <- Date_now ;;
  update (fun w =>
    set_circuitBreakerState
      {| state := open;
         failureCount := failureCount (circuitBreakerState w) + 1;
         lastFailureTime := Some now;
         nextAttemptTime := Some (now + resetTimeoutMs (circuitBreaker (config w))) |}
      w).

(** [now >= this.circuitBreakerState.nextAttemptTime!]: a comparison with
    [undefined] is false. *)
Definition reached (now : Z) (t : option Z) : bool :=
  match t with
  | Some t => t <=? now
  | None => false
  end.

Definition shouldAttemptRequest : M bool :=
  now <- Date_now ;;
  b <- read circuitBreakerState ;;
  match state b with
  | closed => ret true
  | open =>
      if reached now (nextAttemptTime b) then
        update (set_circuitBreakerState
                  {| state := half_open; failureCount := failureCount b;
                     lastFailureTime := lastFailureTime b;
                     nextAttemptTime := nextAttemptTime b |}) ;;
        ret true
      else ret false
  | half_open => ret true
  end.

Definition handleSuccess : M unit :=
  b <- read circuitBreakerState ;;
  match state b with
  | half_open =>
      update (set_circuitBreakerState
                {| state := closed; failureCount := 0;
                   lastFailureTime := None; nextAttemptTime := None |})
  | closed | open => ret tt
  end.

Definition handleFailure : M unit :=
  update (fun w =>
    let b := circuitBreakerState w in
    set_circuitBreakerState
      {| state := state b; failureCount := failureCount b + 1;
         lastFailureTime := lastFailureTime b;
         nextAttemptTime := nextAttemptTime b |} w) ;;
  b <- read circuitBreakerState ;;
  cfg <- read config ;;
  if failureThreshold (circuitBreaker cfg) <=? failureCount b then openCircuitBreaker
  else ret tt.

(** *** Sanitiser *)

(** The loop over [piiPatterns]: [sanitized.replace] on [undefined] is a
    [TypeError]. *)
Fixpoint redact (patterns : list RegExp) (sanitized : option string)
  : Completion (option string) :=
  match patterns with
  | [] => Normal sanitized
  | pattern :: rest =>
      match sanitized with
      | Some text => redact rest (Some (String_replace text pattern "[REDACTED]"))
      | None =>
          Throw (TypeError "Cannot read properties of undefined (reading 'replace')")
      end
  end.

Definition sanitizeData (payload : JsValue) : M JsValue :=
  cfg <- read config ;;
  if negb (enabled (sanitization cfg)) then ret payload
  else
    serialized <- liftCompletion (JSON.stringify payload) ;;
    patterns <-
      match piiPatterns (sanitization cfg) with
      | Some patterns => ret patterns
      | None =>
          throw (TypeError "this.config.sanitization.piiPatterns is not iterable")
      end ;;
    sanitized <- liftCompletion (redact patterns serialized) ;;
    tryCatch (liftCompletion (JSON.parse sanitized)) (fun _ => ret payload).

(** *** Queue, retry and fallback *)

Definition sendEvent (e : TelemetryEvent) : M unit :=
  match type e with
  | metric => invoke (CallRecordMetric (data e)) (TelemetryProvider.recordMetric (data e))
  | log => invoke (CallRecordLog (data e)) (TelemetryProvider.recordLog (data e))
  | trace => ret tt
  end.

(** [shift()] on an empty array does nothing. *)
Definition queueEvent (e : TelemetryEvent) : M unit :=
  update (fun w =>
    let queue := eventQueue w in
    let queue :=
      if maxQueueSize (batching (config w)) <=? Z.of_nat (length queue)
      then tail queue else queue in
    set_eventQueue (queue ++ [e]) w).

Definition typeName (t : EventType) : string :=
  match t with
  | metric => "metric"
  | trace => "trace"
  | log => "log"
  end.

(** [(event.retryCount || 0) + 1] *)
Definition nextRetryCount (e : TelemetryEvent) : Z :=
  default 0 (retryCount e) + 1.

Definition retryDelay (cfg : TelemetryConfig) (count : Z) : Z :=
  initialDelayMs (retry cfg) * backoffMultiplier (retry cfg) ^ (count - 1).

Definition retryKey (e : TelemetryEvent) (count : Z) : string :=
  typeName (type e) +:+ "-" +:+ pretty (timestamp e) +:+ "-" +:+ pretty count.

Definition retryEvent (e : TelemetryEvent) : M unit :=
  cfg <- read config ;;
  let count := nextRetryCount e in
  if maxAttempts (retry cfg) <? count then ret tt
  else
    let key := retryKey e count in
    timeout <- setTimeout (retryDelay cfg count) key e count ;;
    update (fun w => set_retryTimeouts (<[key := timeout]> (retryTimeouts w)) w).

Definition processQueuedEvents : M unit :=
  events <- read eventQueue ;;
  match events with
  | [] => ret tt
  | _ :: _ =>
      update (set_eventQueue []) ;;
      forOf events (fun e => tryCatch (sendEvent e) (fun _ => retryEvent e))
  end.

Definition switchToFallback : M unit :=
  tryCatch
    (update (set_currentProvider fallback) ;;
     cfg <- read config ;;
     invoke CallInitialize (TelemetryProvider.initialize cfg) ;;
     update (set_circuitBreakerState
               {| state := closed; failureCount := 0;
                  lastFailureTime := None; nextAttemptTime := None |}) ;;
     processQueuedEvents)
    (fun _ =>
       openCircuitBreaker ;;
       throw (Error "Both primary and fallback providers failed to initialize")).

Definition handleProviderError (error : JsError) (e : TelemetryEvent) : M unit :=
  current <- read currentProvider ;;
  recovered <-
    match current with
    | primary =>
        tryCatch (switchToFallback ;; sendEvent e ;; ret true) (fun _ => ret false)
    | fallback => ret false
    end ;;
  if recovered : bool then ret tt else retryEvent e.

Definition processEvent (e : TelemetryEvent) : M unit :=
  attemptRequest <- shouldAttemptRequest ;;
  if negb attemptRequest then queueEvent e
  else
    tryCatch (sendEvent e ;; handleSuccess)
             (fun error => handleFailure ;; handleProviderError error e).

(** The callback [retryEvent] hands to [setTimeout]. *)
Definition retryCallback (t : Timer) : M unit :=
  update (fun w => set_retryTimeouts (delete (eventKey t) (retryTimeouts w)) w) ;;
  processEvent {| type := type (event t); data := data (event t);
                  timestamp := timestamp (event t);
                  retryCount := Some (attempt t) |}.

(** The runtime fires an armed timer: the timer is spent and its callback
    runs. *)
Definition fireTimer (t : Timer) : M unit :=
  clearTimeout (timerId t) ;;
  retryCallback t.

(** *** The public methods *)

(** [console.log(this.getHydropulseStatus())] between the two steps of the
    [try] block only prints. *)
Definition initialize : M unit :=
  initialized <- read isInitialized ;;
  if initialized : bool then ret tt
  else
    tryCatch
      (cfg <- read config ;;
       invoke CallInitialize (TelemetryProvider.initialize cfg) ;;
       update (set_isInitialized true) ;;
       processQueuedEvents)
      (fun _ => switchToFallback).

Definition recordMetric (metricData : JsValue) : M unit :=
  sanitizedMetric <- sanitizeData metricData ;;
  now <- Date_now ;;
  update (fun w => set_metricsCount (metricsCount w + 1) w) ;;
  processEvent {| type := metric; data := sanitizedMetric;
                  timestamp := now; retryCount := None |}.

Definition startTrace (traceData : JsValue) : M string :=
  sanitizedTrace <- sanitizeData traceData ;;
  attemptRequest <- shouldAttemptRequest ;;
  if negb attemptRequest then
    now <- Date_now ;;
    queueEvent {| type := trace; data := sanitizedTrace;
                  timestamp := now; retryCount := None |} ;;
    now <- Date_now ;;
    ret ("queued-" +:+ pretty now)
  else
    tryCatch
      (spanId <- invoke (CallStartTrace sanitizedTrace)
                        (TelemetryProvider.startTrace sanitizedTrace) ;;
       handleSuccess ;;
       ret spanId)
      (fun error =>
         handleFailure ;;
         now <- Date_now ;;
         handleProviderError error {| type := trace; data := sanitizedTrace;
                                      timestamp := now; retryCount := None |} ;;
         throw error).

Definition endTrace (spanId : string) (attributes : JsValue) : M unit :=
  sanitizedAttributes <-
    (if truthy attributes then sanitizeData attributes else ret JsUndefined) ;;
  attemptRequest <- shouldAttemptRequest ;;
  if negb attemptRequest then ret tt
  else
    tryCatch
      (invoke (CallEndTrace spanId sanitizedAttributes)
              (TelemetryProvider.endTrace spanId sanitizedAttributes) ;;
       handleSuccess)
      (fun _ => handleFailure).

Definition recordLog (logData : JsValue) : M unit :=
  sanitizedLog <- sanitizeData logData ;;
  now <- Date_now ;;
  processEvent {| type := log; data := sanitizedLog;
                  timestamp := now; retryCount := None |}.

Definition flush : M unit :=
  processQueuedEvents ;;
  invoke CallFlush TelemetryProvider.flush.

Definition shutdown : M unit :=
  handles <- read (fun w => (map_to_list (retryTimeouts w)).*2) ;;
  forOf handles clearTimeout ;;
  update (set_retryTimeouts ∅) ;;
  flush ;;
  invoke CallShutdown TelemetryProvider.shutdown ;;
  update (set_isInitialized false).

Definition stateName (s : BreakerState) : string :=
  match s with
  | closed => "closed"
  | open => "open"
  | half_open => "half-open"
  end.

Definition getHealthStatus (w : World) : Health.HealthStatus :=
  {| Health.healthy :=
       isInitialized w && TelemetryProvider.isHealthy (providerAt (currentProvider w) w);
     Health.provider :=
       match currentProvider w with
       | primary => "primary"
       | fallback => "fallback"
       end;
     Health.queueSize := length (eventQueue w);
     Health.circuitBreakerState := stateName (state (circuitBreakerState w)) |}.

End TelemetryCore.

(** ** A regular-expression engine

    A backtracking matcher for the fragment the default patterns are written
    in: character classes, [\b], sequences and greedy repetition. It gives
    [text.replace(pattern, replacement)] for a pattern with the [g] flag and
    a replacement without [$]. *)
Module Regex.

Inductive Regex : Type :=
  | Class (accepts : ascii -> bool)
  | WordBoundary
  | Seq (a b : Regex)
  | Repeat (r : Regex) (least : nat) (most : option nat).

Definition code (c : ascii) : N := N_of_ascii c.

Definition between (lo hi : N) (c : ascii) : bool :=
  ((lo <=? code c) && (code c <=? hi))%N.

Definition isChar (x : N) (c : ascii) : bool := (code c =? x)%N.

Definition digit : ascii -> bool := between 48 57.
Definition upper : ascii -> bool := between 65 90.
Definition lower : ascii -> bool := between 97 122.

(** [\w] and [\s] on byte characters *)
Definition word (c : ascii) : bool :=
  digit c || upper c || lower c || isChar 95 c.
Definition space (c : ascii) : bool :=
  between 9 13 c || isChar 32 c || isChar 160 c.

Definition atBoundary (prev : option ascii) (s : string) : bool :=
  xorb (match prev with Some c => word c | None => false end)
       (match s with String c _ => word c | EmptyString => false end).

(** [matchHere fuel r prev s k] matches [r] at the front of [s], where
    [prev] is the character before it, and hands what is left to [k];
    when [k] refuses, the next alternative is tried. *)
Fixpoint matchHere (fuel : nat) (r : Regex) (prev : option ascii) (s : string)
    (k : option ascii -> string -> option (option ascii * string))
  : option (option ascii * string) :=
  match fuel with
  | O => None
  | S fuel' =>
      match r with
      | Class accepts =>
          match s with
          | String c rest => if accepts c then k (Some c) rest else None
          | EmptyString => None
          end
      | WordBoundary => if atBoundary prev s then k prev s else None
      | Seq a b =>
          matchHere fuel' a prev s (fun prev' s' => matchHere fuel' b prev' s' k)
      | Repeat body (S least') most =>
          matchHere fuel' body prev s (fun prev' s' =>
            matchHere fuel' (Repeat body least' (Nat.pred <$> most)) prev' s' k)
      | Repeat body O most =>
          let again :=
            match most with
            | Some O => None
            | _ =>
                matchHere fuel' body prev s (fun prev' s' =>
                  if (String.length s' <? String.length s)%nat then
                    matchHere fuel' (Repeat body O (Nat.pred <$> most)) prev' s' k
                  else None)
            end in
          match again with
          | Some out => Some out
          | None => k prev s
          end
      end
  end.

Fixpoint size (r : Regex) : nat :=
  match r with
  | Class _ | WordBoundary => 1
  | Seq a b => S (size a + size b)
  | Repeat body least _ => S (least + size body)
  end.

Definition exec (r : Regex) (prev : option ascii) (s : string)
  : option (option ascii * string) :=
  matchHere (2 * (size r + 1) * (String.length s + 2)) r prev s
            (fun prev' s' => Some (prev', s')).

(** Scan from the left; after a match the scan goes on behind it, after an
    empty match one character further. *)
Fixpoint replaceFrom (fuel : nat) (r : Regex) (replacement : string)
    (prev : option ascii) (s : string) : string :=
  match fuel with
  | O => s
  | S fuel' =>
      match exec r prev s with
      | Some (prev', out) =>
          if (String.length out <? String.length s)%nat then
            replacement +:+ replaceFrom fuel' r replacement prev' out
          else
            match s with
            | String c rest =>
                replacement +:+ String c (replaceFrom fuel' r replacement (Some c) rest)
            | EmptyString => replacement
            end
      | None =>
          match s with
          | String c rest => String c (replaceFrom fuel' r replacement (Some c) rest)
          | EmptyString => EmptyString
          end
      end
  end.

Definition replace (text : string) (r : Regex) (replacement : string) : string :=
  replaceFrom (S (String.length text)) r replacement None text.

Definition exactly (n : nat) (r : Regex) : Regex := Repeat r n (Some n).
Definition optional (r : Regex) : Regex := Repeat r 0 (Some 1%nat).
Definition oneOrMore (r : Regex) : Regex := Repeat r 1 None.

Fixpoint literal (s : string) : Regex :=
  match s with
  | EmptyString => Repeat WordBoundary 0 (Some O)
  | String c EmptyString => Class (isChar (code c))
  | String c rest => Seq (Class (isChar (code c))) (literal rest)
  end.

Definition separator : Regex := optional (Class (fun c => space c || isChar 45 c)).

(** [/\b\d{4}[\s-]?\d{4}[\s-]?\d{4}[\s-]?\d{4}\b/g] *)
Definition creditCard : Regex :=
  Seq WordBoundary
    (Seq (exactly 4 (Class digit)) (Seq separator
    (Seq (exactly 4 (Class digit)) (Seq separator
    (Seq (exactly 4 (Class digit)) (Seq separator
    (Seq (exactly 4 (Class digit)) WordBoundary))))))).

(** [/\b[A-Za-z0-9._%+-]+@[A-Za-z0-9.-]+\.[A-Z|a-z]{2,}\b/g] *)
Definition email : Regex :=
  let alnum c := digit c || upper c || lower c in
  let user c := alnum c || isChar 46 c || isChar 95 c || isChar 37 c
                || isChar 43 c || isChar 45 c in
  let host c := alnum c || isChar 46 c || isChar 45 c in
  let tld c := upper c || lower c || isChar 124 c in
  Seq WordBoundary
    (Seq (oneOrMore (Class user)) (Seq (Class (isChar 64))
    (Seq (oneOrMore (Class host)) (Seq (Class (isChar 46))
    (Seq (Repeat (Class tld) 2 None) WordBoundary))))).

(** [/\b\d{3}-\d{2}-\d{4}\b/g] *)
Definition ssn : Regex :=
  Seq WordBoundary
    (Seq (exactly 3 (Class digit)) (Seq (Class (isChar 45))
    (Seq (exactly 2 (Class digit)) (Seq (Class (isChar 45))
    (Seq (exactly 4 (Class digit)) WordBoundary))))).

Definition engine : RegExpEngine :=
  {| RegExp := Regex;
     String_replace := replace;
     creditCardPattern := creditCard;
     emailPattern := email;
     ssnPattern := ssn |}.

End Regex.

(** ** Scripted backends

    A backend that answers from a script: each call takes the next entry,
    [true] to succeed and [false] to fail; when the script is used up every
    call succeeds. The environment holds no [HYDROPULSE_] variable. *)
Module Scripted.

#[local] Existing Instance Regex.engine.

Definition answer {A} (value : A) (script : list bool)
  : Completion A * list bool :=
  match script with
  | [] => (Normal value, [])
  | true :: rest => (Normal value, rest)
  | false :: rest => (Throw (Error "backend unavailable"), rest)
  end.

Definition environmentDefaults : Raw.TelemetryConfig :=
  {| Raw.provider := auto;
     Raw.environment := "development";
     Raw.serviceName := Some "hydropulse-app";
     Raw.serviceVersion := Some "1.0.0";
     Raw.grafana := None;
     Raw.openTelemetry := None;
     Raw.alloy := None;
     Raw.batching := Some {| maxQueueSize := 1000; scheduledDelayMillis := 5000 |};
     Raw.circuitBreaker := Some {| failureThreshold := 5; resetTimeoutMs := 60000 |};
     Raw.retry := Some {| maxAttempts := 3; backoffMultiplier := 2;
                          initialDelayMs := 1000 |};
     Raw.debug := Some false;
     Raw.sanitization :=
       Some {| Raw.enabled := true;
               Raw.piiPatterns :=
                 Some (Some [Regex.creditCard; Regex.email; Regex.ssn]) |} |}.

Definition backends : Backends :=
  {| Provider := list bool;
     TelemetryProvider.create := fun _ => [];
     TelemetryProvider.initialize := fun _ => answer tt;
     TelemetryProvider.recordMetric := fun _ => answer tt;
     TelemetryProvider.startTrace := fun _ => answer "span-1";
     TelemetryProvider.endTrace := fun _ _ => answer tt;
     TelemetryProvider.recordLog := fun _ => answer tt;
     TelemetryProvider.flush := answer tt;
     TelemetryProvider.shutdown := answer tt;
     TelemetryProvider.isHealthy := fun _ => true;
     TelemetryProvider.loadHydropulseConfig := Normal environmentDefaults |}.

End Scripted.

(** ** Runs *)

Section Runs.
Context `{backends : Backends}.

(** What the core reports to the breaker after an attempt. *)
Inductive Outcome : Type := delivered | failed.

Definition report (o : Outcome) : M unit :=
  match o with
  | delivered => handleSuccess
  | failed => handleFailure
  end.

(** The outcomes of a sequence of attempts, reported in order. *)
Definition reportAll (outcomes : list Outcome) (w : World) : World :=
  foldl (fun w o => after (report o) w) w outcomes.

Fixpoint failures (outcomes : list Outcome) : Z :=
  match outcomes with
  | [] => 0
  | failed :: rest => 1 + failures rest
  | delivered :: rest => failures rest
  end.

(** The backend calls that sending an event makes: none for a trace
    event, whose branch in [sendEvent] is empty. *)
Definition delivery (target : ProviderRef) (e : TelemetryEvent) : list HostEffect :=
  match type e with
  | metric => [Invoke target (CallRecordMetric (data e))]
  | log => [Invoke target (CallRecordLog (data e))]
  | trace => []
  end.

Definition deliveries (target : ProviderRef) (events : list TelemetryEvent)
  : list HostEffect :=
  concat (map (delivery target) events).

(** A sequence of [queueEvent] calls. *)
Definition queueAll (events : list TelemetryEvent) (w : World) : World :=
  foldl (fun w e => after (queueEvent e) w) w events.

End Runs.

(** ** The public calls as steps *)

(** What a user of the core, or the runtime, can do to it. *)
Inductive Action : Type :=
  | Initialize
  | RecordMetric (metricData : JsValue)
  | RecordLog (logData : JsValue)
  | StartTrace (traceData : JsValue)
  | EndTrace (spanId : string) (attributes : JsValue)
  | Flush
  | Shutdown
  | Fire (index : nat)      (* the runtime fires the armed timer at this position *)
  | Tick (now : Z).         (* the clock shows a new time *)

Section Actions.
Context `{backends : Backends}.

(** The world after an action; whether the call returned or threw is
    dropped. *)
Definition perform (a : Action) (w : World) : World :=
  match a with
  | Initialize => after initialize w
  | RecordMetric metricData => after (recordMetric metricData) w
  | RecordLog logData => after (recordLog logData) w
  | StartTrace traceData => after (startTrace traceData) w
  | EndTrace spanId attributes => after (endTrace spanId attributes) w
  | Flush => after flush w
  | Shutdown => after shutdown w
  | Fire index =>
      match timers w !! index with
      | Some t => after (fireTimer t) w
      | None => w
      end
  | Tick now => set_clock now w
  end.

Definition performAll (actions : list Action) (w : World) : World :=
  foldl (fun w a => perform a w) w actions.

(** A property of the world that a call keeps. *)
Definition Preserves (I : World -> Prop) {A} (m : M A) : Prop :=
  forall w, I w -> I (after m w).

(** The event a fired timer hands to [processEvent]. *)
Definition refired (t : Timer) : TelemetryEvent :=
  {| type := type (event t); data := data (event t);
     timestamp := timestamp (event t); retryCount := Some (attempt t) |}.

End Actions.

(** ** Well-formed worlds *)

Section WellFormed.
Context `{engine : RegExpEngine}.

(** What the class keeps true of its breaker: a closed breaker carries no
    times and, for a threshold of at least one, a count below it; an open or
    half-open one has counted a failure, and its cool-down ends
    [resetTimeoutMs] after the failure it recorded. *)
Definition wellFormedBreaker (cfg : TelemetryConfig) (b : CircuitBreakerState) : Prop :=
  0 <= failureCount b
  /\ match state b with
     | closed =>
         lastFailureTime b = None /\ nextAttemptTime b = None
         /\ (1 <= failureThreshold (circuitBreaker cfg) ->
             failureCount b < failureThreshold (circuitBreaker cfg))
     | open | half_open =>
         1 <= failureCount b
         /\ exists t, lastFailureTime b = Some t
                      /\ nextAttemptTime b
                         = Some (t + resetTimeoutMs (circuitBreaker cfg))
     end.

(** An event carries no retry count, or one between one and [maxAttempts]. *)
Definition wellFormedEvent (cfg : TelemetryConfig) (e : TelemetryEvent) : Prop :=
  match retryCount e with
  | None => True
  | Some count => 1 <= count <= maxAttempts (retry cfg)
  end.

(** An armed timer is the one [retryEvent] arms for its event. *)
Definition wellFormedTimer (cfg : TelemetryConfig) (next : nat) (t : Timer) : Prop :=
  wellFormedEvent cfg (event t)
  /\ attempt t = default 0 (retryCount (event t)) + 1
  /\ 1 <= attempt t <= maxAttempts (retry cfg)
  /\ delay t = initialDelayMs (retry cfg) * backoffMultiplier (retry cfg) ^ (attempt t - 1)
  /\ (timerId t < next)%nat.

End WellFormed.

Definition callsOnly (target : ProviderRef) (calls : list HostEffect) : Prop :=
  Forall (fun c => exists call, c = Invoke target call) calls.

(** ** Frames *)

Section Frames.
Context `{backends : Backends}.

(** Two worlds that differ at most in the breaker. *)
Definition onlyBreaker (w w' : World) : Prop :=
  config w' = config w /\ primaryProvider w' = primaryProvider w
  /\ fallbackProvider w' = fallbackProvider w /\ currentProvider w' = currentProvider w
  /\ eventQueue w' = eventQueue w /\ isInitialized w' = isInitialized w
  /\ retryTimeouts w' = retryTimeouts w /\ timers w' = timers w
  /\ nextTimerId w' = nextTimerId w /\ clock w' = clock w /\ effects w' = effects w.

(** Two worlds that differ at most in the state of the backend objects and
    in the record of the calls made to them. *)
Definition onlyBackends (w w' : World) : Prop :=
  config w' = config w /\ currentProvider w' = currentProvider w
  /\ circuitBreakerState w' = circuitBreakerState w
  /\ eventQueue w' = eventQueue w /\ isInitialized w' = isInitialized w
  /\ retryTimeouts w' = retryTimeouts w /\ timers w' = timers w
  /\ nextTimerId w' = nextTimerId w /\ clock w' = clock w.

(** The timer [retryEvent] arms for an event in a world. *)
Definition retryTimer (e : TelemetryEvent) (w : World) : Timer :=
  {| timerId := nextTimerId w;
     delay := retryDelay (config w) (nextRetryCount e);
     eventKey := retryKey e (nextRetryCount e);
     event := e;
     attempt := nextRetryCount e |}.

(** The timers after [retryEvent]: one more unless the attempts are used up. *)
Definition timersAfterRetry (e : TelemetryEvent) (w : World) : list Timer :=
  if maxAttempts (retry (config w)) <? nextRetryCount e then timers w
  else timers w ++ [retryTimer e w].

End Frames.

(** ** Handles *)

Section Handles.
Context `{backends : Backends}.

(** The timer handles that [retryTimeouts] holds. *)
Definition handles (w : World) : list nat := (map_to_list (retryTimeouts w)).*2.

(** The timers that [clearTimeout] on each of the handles leaves armed. *)
Definition surviving (cleared : list nat) (ts : list Timer) : list Timer :=
  filter (fun t => timerId t ∉ cleared) ts.

End Handles.

(** ** Configuration from the environment ([config/env-loader.ts]) *)

Module Env.

(** The host's [parseInt] and [parseFloat] and the numbers they give. *)
Class Numbers : Type := {
  Number : Type;
  parseInt : string -> Number;
  parseFloat : string -> Number;
}.

(** [process.env]: the variables that are set, each with its text. *)
Definition Environment : Type := gmap string string.

Record Sampling `{Numbers} : Type := { rate : Number }.

Record Batching `{Numbers} : Type := {
  maxQueueSize : Number;
  scheduledDelayMillis : Number;
}.

Record CircuitBreaker `{Numbers} : Type := {
  failureThreshold : Number;
  resetTimeoutMs : Number;
}.

Record Retry `{Numbers} : Type := {
  maxAttempts : Number;
  backoffMultiplier : Z;
  initialDelayMs : Number;
}.

Record Sanitization `{RegExpEngine} : Type := {
  enabled : bool;
  piiPatterns : list RegExp;
}.

Record Grafana : Type := {
  url : string;
  apiKey : string;
  appKey : string;
}.

Record Endpoint : Type := {
  endpoint : string;
  headers : option (list (string * string));
}.

Record TelemetryConfig `{Numbers} `{RegExpEngine} : Type := {
  provider : string;
  environment : string;
  serviceName : string;
  serviceVersion : string;
  debug : bool;
  sampling : Sampling;
  batching : Batching;
  circuitBreaker : CircuitBreaker;
  retry : Retry;
  sanitization : Sanitization;
  grafana : option Grafana;
  openTelemetry : option Endpoint;
  alloy : option Endpoint;
}.

Section Loader.
Context `{numbers : Numbers} `{engine : RegExpEngine}.

(** [value || fallback] for a variable of the environment. *)
Definition orElse (value : option string) (fallback : string) : string :=
  match value with
  | Some (String c rest) => String c rest
  | Some EmptyString | None => fallback
  end.

(** [token ? { 'Authorization': `Bearer ${token}` } : undefined] *)
Definition bearer (token : option string) : option (list (string * string)) :=
  match token with
  | Some (String c rest) => Some [("Authorization", "Bearer " +:+ String c rest)]
  | Some EmptyString | None => None
  end.

(** [if (address) { config.x = { endpoint: address, headers: ... } }] *)
Definition endpointAt (address token : option string) : option Endpoint :=
  match address with
  | Some (String c rest) =>
      Some {| endpoint := String c rest; headers := bearer token |}
  | Some EmptyString | None => None
  end.

Definition loadHydropulseConfig (env : Environment) : Completion TelemetryConfig :=
  let serviceName := orElse (env !! "HYDROPULSE_SERVICE_NAME") "hydropulse-app" in
  let serviceVersion := orElse (env !! "HYDROPULSE_SERVICE_VERSION") "1.0.0" in
  if falsy (Some serviceName) then
    Throw (Error "HYDROPULSE_SERVICE_NAME environment variable is required")
  else if falsy (Some serviceVersion) then
    Throw (Error "HYDROPULSE_SERVICE_VERSION environment variable is required")
  else
    Normal {|
      provider := orElse (env !! "HYDROPULSE_PROVIDER") "auto";
      environment := orElse (env !! "HYDROPULSE_ENVIRONMENT") "development";
      serviceName := serviceName;
      serviceVersion := serviceVersion;
      debug := bool_decide (env !! "HYDROPULSE_DEBUG" = Some "true");
      sampling :=
        {| rate := parseFloat (orElse (env !! "HYDROPULSE_SAMPLING_RATE") "1.0") |};
      batching :=
        {| maxQueueSize := parseInt (orElse (env !! "HYDROPULSE_BATCH_SIZE") "1000");
           scheduledDelayMillis :=
             parseInt (orElse (env !! "HYDROPULSE_BATCH_DELAY") "5000") |};
      circuitBreaker :=
        {| failureThreshold :=
             parseInt (orElse (env !! "HYDROPULSE_CIRCUIT_BREAKER_THRESHOLD") "5");
           resetTimeoutMs :=
             parseInt (orElse (env !! "HYDROPULSE_CIRCUIT_BREAKER_TIMEOUT") "60000") |};
      retry :=
        {| maxAttempts :=
             parseInt (orElse (env !! "HYDROPULSE_RETRY_MAX_ATTEMPTS") "3");
           backoffMultiplier := 2;
           initialDelayMs :=
             parseInt (orElse (env !! "HYDROPULSE_RETRY_INITIAL_DELAY") "1000") |};
      sanitization :=
        {| enabled := negb (bool_decide (env !! "HYDROPULSE_SANITIZE_PII" = Some "false"));
           piiPatterns := [creditCardPattern; emailPattern; ssnPattern] |};
      grafana :=
        match env !! "HYDROPULSE_GRAFANA_URL" with
        | Some (String c rest) =>
            Some {| url := String c rest;
                    apiKey := orElse (env !! "HYDROPULSE_GRAFANA_API_KEY") EmptyString;
                    appKey := orElse (env !! "HYDROPULSE_GRAFANA_APP_KEY") serviceName |}
        | Some EmptyString | None => None
        end;
      openTelemetry :=
        endpointAt (env !! "HYDROPULSE_OTEL_ENDPOINT") (env !! "HYDROPULSE_OTEL_TOKEN");
      alloy :=
        endpointAt (env !! "HYDROPULSE_ALLOY_ENDPOINT") (env !! "HYDROPULSE_ALLOY_TOKEN");
    |}.

(** [parts.join(separator)] *)
Fixpoint join (separator : string) (parts : list string) : string :=
  match parts with
  | [] => EmptyString
  | [part] => part
  | part :: rest => part +:+ separator +:+ join separator rest
  end.

Definition requiredVars : list string :=
  ["HYDROPULSE_SERVICE_NAME"; "HYDROPULSE_SERVICE_VERSION"].

Definition validateHydropulseEnvironment (env : Environment) : Completion unit :=
  let missing := filter (fun varName => falsy (env !! varName) = true) requiredVars in
  if (0 <? length missing)%nat then
    Throw (Error ("Missing required Hydropulse environment variables: "
                  +:+ join ", " missing))
  else Normal tt.

End Loader.

End Env.

(** ** Stack traces *)

(** The text the host has put in [error.stack], if any. *)
Class StackTraces : Type := {
  stackOf : JsError -> option string;
}.

Definition messageOf (e : JsError) : string :=
  match e with
  | Error message | TypeError message | SyntaxError message => message
  end.

(** ** [TracesService] ([core/traces.service.ts]) *)

Module Traces.

(** [TraceData], with the fields the service uses. *)
Record TraceData : Type := {
  operationName : string;
  startTime : Z;
  attributes : option Object.Properties;
  parentSpanId : option string;
  status : string;
  spanId : option string;
}.

Definition set_attributes (a : option Object.Properties) (t : TraceData) : TraceData :=
  {| operationName := operationName t; startTime := startTime t; attributes := a;
     parentSpanId := parentSpanId t; status := status t; spanId := spanId t |}.

Definition set_status (s : string) (t : TraceData) : TraceData :=
  {| operationName := operationName t; startTime := startTime t;
     attributes := attributes t; parentSpanId := parentSpanId t; status := s;
     spanId := spanId t |}.

Definition set_spanId (id : string) (t : TraceData) : TraceData :=
  {| operationName := operationName t; startTime := startTime t;
     attributes := attributes t; parentSpanId := parentSpanId t; status := status t;
     spanId := Some id |}.

Definition optional {A} (inject : A -> JsValue) (o : option A) : JsValue :=
  match o with
  | Some a => inject a
  | None => JsUndefined
  end.

(** The object the service hands to the core. *)
Definition traceValue (t : TraceData) : JsValue :=
  JsObject
    ([("operationName", JsString (operationName t));
      ("startTime", JsNumber (startTime t));
      ("attributes", optional JsObject (attributes t));
      ("parentSpanId", optional JsString (parentSpanId t));
      ("status", JsString (status t))]
     ++ match spanId t with
        | Some id => [("spanId", JsString id)]
        | None => []
        end).

(** The table [activeSpans]. The order of its entries, which only
    [getActiveSpans] shows, is not kept. *)
#[warnings="-notation-for-abbreviation"]
Notation ActiveSpans := (gmap string TraceData) (only parsing).

(** The object literal of [startSpan], made at time [now]. *)
Definition newTrace (operationName : string) (attributes : option Object.Properties)
    (parentSpanId : option string) (now : Z) : TraceData :=
  {| operationName := operationName; startTime := now; attributes := attributes;
     parentSpanId := parentSpanId; status := "ok"; spanId := None |}.

Section TracesService.
Context `{engine : RegExpEngine} `{backends : Backends} `{stacks : StackTraces}.


(** A call of the service: its completion, the table and the core after
    it. *)
Definition Run (A : Type) : Type := Completion A * ActiveSpans * World.

Definition startSpan (operationName : string) (attributes : option Object.Properties)
    (parentSpanId : option string) (activeSpans : ActiveSpans) (w : World)
  : Run string :=
  let trace := newTrace operationName attributes parentSpanId (clock w) in
  match startTrace (traceValue trace) w with
  | (Normal spanId, w') =>
      (Normal spanId, <[spanId := set_spanId spanId trace]> activeSpans, w')
  | (Throw e, w') => (Throw e, activeSpans, w')
  end.

(** The attributes [finishSpan] hands to [endTrace]. *)
Definition finalAttributes (span : TraceData) (attributes : option Object.Properties)
    (error : option JsError) (endTime : Z) : Object.Properties :=
  let final :=
    Object.set (Object.spread (Object.spread [] (Traces.attributes span)) attributes)
               "duration_ms" (JsNumber (endTime - startTime span)) in
  match error with
  | Some err =>
      Object.set
        (Object.set (Object.set final "error" (JsBool true))
                    "error_message" (JsString (messageOf err)))
        "error_stack" (optional JsString (stackOf err))
  | None => final
  end.

(** [console.warn] on an unknown span only prints. *)
Definition finishSpan (spanId : string) (attributes : option Object.Properties)
    (error : option JsError) (activeSpans : ActiveSpans) (w : World) : Run unit :=
  match activeSpans !! spanId with
  | None => (Normal tt, activeSpans, w)
  | Some span =>
      match endTrace spanId (JsObject (finalAttributes span attributes error (clock w))) w
      with
      | (Normal _, w') => (Normal tt, delete spanId activeSpans, w')
      | (Throw e, w') => (Throw e, activeSpans, w')
      end
  end.

(** [recordSpan(operationName, fn, attributes)]: [fn] is the caller's
    code, which may use the service and the core. *)
Definition recordSpan {A} (operationName : string)
    (fn : ActiveSpans -> World -> Run A) (attributes : option Object.Properties)
    (activeSpans : ActiveSpans) (w : World) : Run A :=
  match startSpan operationName attributes None activeSpans w with
  | (Throw e, spans, w1) => (Throw e, spans, w1)
  | (Normal spanId, spans, w1) =>
      let attempt : Run A :=
        match fn spans w1 with
        | (Normal value, spans, w2) =>
            match finishSpan spanId (Some [("success", JsBool true)]) None spans w2 with
            | (Normal _, spans, w3) => (Normal value, spans, w3)
            | (Throw e, spans, w3) => (Throw e, spans, w3)
            end
        | (Throw e, spans, w2) => (Throw e, spans, w2)
        end in
      match attempt with
      | (Normal value, spans, w3) => (Normal value, spans, w3)
      | (Throw error, spans, w3) =>
          match finishSpan spanId (Some [("success", JsBool false)]) (Some error)
                           spans w3 with
          | (Normal _, spans, w4) => (Throw error, spans, w4)
          | (Throw e, spans, w4) => (Throw e, spans, w4)
          end
      end
  end.

Definition getActiveSpan (spanId : string) (activeSpans : ActiveSpans)
  : option TraceData :=
  activeSpans !! spanId.

Definition addSpanAttributes (spanId : string) (attributes : Object.Properties)
    (activeSpans : ActiveSpans) : ActiveSpans :=
  match activeSpans !! spanId with
  | Some span =>
      <[spanId :=
          set_attributes
            (Some (Object.spread (Object.spread [] (Traces.attributes span))
                                 (Some attributes)))
            span]> activeSpans
  | None => activeSpans
  end.

Definition setSpanStatus (spanId : string) (status : string)
    (activeSpans : ActiveSpans) : ActiveSpans :=
  match activeSpans !! spanId with
  | Some span => <[spanId := set_status status span]> activeSpans
  | None => activeSpans
  end.

End TracesService.

End Traces.

(** ** The log buffer of [LogsService] ([core/traces.service.ts]) *)

Module Logs.

Inductive Level : Type := debug | info | warn | error.

Definition levelName (level : Level) : string :=
  match level with
  | debug => "debug"
  | info => "info"
  | warn => "warn"
  | error => "error"
  end.

(** A timer of the host whose callback is [() => this.flushBuffer()]. *)
Record FlushTimer : Type := {
  handle : nat;
  delayMs : Z;
}.

(** The fields [logBuffer] and [flushTimeout], and the flush timers that
    are armed. A timer handle is an object or a positive number: it is
    never falsy. *)
Record Buffer : Type := {
  logBuffer : list JsValue;
  flushTimeout : option nat;
  armed : list FlushTimer;
}.

Definition empty : Buffer :=
  {| logBuffer := []; flushTimeout := None; armed := [] |}.

(** The entry [bufferLog] pushes. *)
Definition entry (level : Level) (message : string)
    (attributes : option Object.Properties) (now : Z) : JsValue :=
  JsObject [("level", JsString (levelName level));
            ("message", JsString message);
            ("attributes", Traces.optional JsObject attributes);
            ("timestamp", JsNumber now)].

Section LogsService.
Context `{engine : RegExpEngine} `{backends : Backends}.

Definition logBatch (logs : list JsValue) : M unit :=
  forOf logs recordLog.

Definition flushBuffer (b : Buffer) (w : World) : Completion unit * Buffer * World :=
  match logBuffer b with
  | [] => (Normal tt, b, w)
  | _ :: _ =>
      let logsToFlush := logBuffer b in
      let cleared :=
        match flushTimeout b with
        | Some timeout => filter (fun t => handle t ≠ timeout) (armed b)
        | None => armed b
        end in
      let '(completion, w') := logBatch logsToFlush w in
      (completion, {| logBuffer := []; flushTimeout := None; armed := cleared |}, w')
  end.

(** [this.flushBuffer()] without [await]: nobody sees how the call
    completes. The call is run to its end before the caller goes on. *)
Definition detached (run : Completion unit * Buffer * World) : Buffer * World :=
  (run.1.2, run.2).

Definition bufferLog (level : Level) (message : string)
    (attributes : option Object.Properties) (b : Buffer) (w : World) : Buffer * World :=
  let pushed :=
    {| logBuffer := logBuffer b ++ [entry level message attributes (clock w)];
       flushTimeout := flushTimeout b; armed := armed b |} in
  if (100 <=? length (logBuffer pushed))%nat then detached (flushBuffer pushed w)
  else
    match flushTimeout pushed with
    | None =>
        let timeout := nextTimerId w in
        ({| logBuffer := logBuffer pushed; flushTimeout := Some timeout;
            armed := armed pushed ++ [{| handle := timeout; delayMs := 5000 |}] |},
         set_timers (timers w) (S timeout) w)
    | Some _ => (pushed, w)
    end.

(** The host fires an armed flush timer. *)
Definition fireFlushTimer (t : FlushTimer) (b : Buffer) (w : World) : Buffer * World :=
  detached
    (flushBuffer {| logBuffer := logBuffer b; flushTimeout := flushTimeout b;
                    armed := filter (fun t' => handle t' ≠ handle t) (armed b) |} w).

(** What the program and the host do with the buffer and the core. *)
Inductive Step : Type :=
  | BufferLog (level : Level) (message : string) (attributes : option Object.Properties)
  | FlushBuffer
  | FireFlush (index : nat)
  | Core (action : Action).

Definition step (s : Step) (state : Buffer * World) : Buffer * World :=
  let '(b, w) := state in
  match s with
  | BufferLog level message attributes => bufferLog level message attributes b w
  | FlushBuffer => detached (flushBuffer b w)
  | FireFlush index =>
      match armed b !! index with
      | Some t => fireFlushTimer t b w
      | None => (b, w)
      end
  | Core action => (b, perform action w)
  end.

Definition steps (l : list Step) (state : Buffer * World) : Buffer * World :=
  foldl (fun state s => step s state) state l.

(** At most 99 logs wait, and logs wait exactly while the one flush timer
    is armed, which is the timer of [flushTimeout]. *)
Definition wellFormed (b : Buffer) : Prop :=
  (length (logBuffer b) < 100)%nat
  /\ match flushTimeout b with
     | Some timeout =>
         armed b = [{| handle := timeout; delayMs := 5000 |}] /\ logBuffer b <> []
     | None => armed b = [] /\ logBuffer b = []
     end.

End LogsService.

End Logs.

(** ** Scenarios over the scripted backends *)
Module Scenario.

#[local] Existing Instance Regex.engine.
#[local] Existing Instance Scripted.backends.

Definition settings (queueSize threshold attempts : Z) (sanitize : bool)
  : TelemetryConfig :=
  {| source := Scripted.environmentDefaults;
     batching := {| maxQueueSize := queueSize; scheduledDelayMillis := 5000 |};
     circuitBreaker := {| failureThreshold := threshold; resetTimeoutMs := 60000 |};
     retry := {| maxAttempts := attempts; backoffMultiplier := 2;
                 initialDelayMs := 1000 |};
     debug := false;
     sanitization := {| enabled := sanitize;
                        piiPatterns := Some [Regex.creditCard; Regex.email; Regex.ssn] |} |}.

(** A new core at time [0] whose primary and fallback backends follow the
    given scripts. *)
Definition core (cfg : TelemetryConfig) (primaryScript fallbackScript : list bool)
  : World :=
  set_fallbackProvider fallbackScript
    (set_primaryProvider primaryScript (newCore cfg 0)).

(** A log whose attributes hold a BigInt, as in
    [logs.info("order", { id: 10n })]. *)
Definition bigOrder : JsValue :=
  JsObject [("level", JsString "info"); ("message", JsString "order");
            ("attributes", JsObject [("id", JsBigInt 10)])].

(** A metric whose numeric value reads like a card number: redacting it
    leaves text that is no longer JSON. *)
Definition cardValue : JsValue :=
  JsObject [("name", JsString "last_card"); ("value", JsNumber 4111111111111111)].

Definition cardMessage : JsValue :=
  JsObject [("message", JsString "call 4111111111111111")].

Definition hits : JsValue :=
  JsObject [("name", JsString "hits"); ("value", JsNumber 1)].

Definition numbered (n : Z) : TelemetryEvent :=
  {| type := metric;
     data := JsObject [("name", JsString "hits"); ("value", JsNumber n)];
     timestamp := n; retryCount := None |}.

Definition retried (n : Z) (count : Z) : TelemetryEvent :=
  {| type := metric;
     data := JsObject [("name", JsString "hits"); ("value", JsNumber n)];
     timestamp := n; retryCount := Some count |}.

(** The configuration of the test suite with an empty service name, and
    one without a service version. *)
Definition unnamed : Raw.TelemetryConfig :=
  {| Raw.provider := auto;
     Raw.environment := "development";
     Raw.serviceName := Some EmptyString;
     Raw.serviceVersion := Some "1.0.0";
     Raw.grafana := Some (JsObject [("url", JsString "http://localhost:3000/api/traces")]);
     Raw.openTelemetry := Some (JsObject [("endpoint", JsString "http://localhost:4318")]);
     Raw.alloy := None;
     Raw.batching := Some {| maxQueueSize := 100; scheduledDelayMillis := 1000 |};
     Raw.circuitBreaker := None;
     Raw.retry := None;
     Raw.debug := Some false;
     Raw.sanitization := None |}.

(** The configuration read from an environment that sets only
    [HYDROPULSE_BATCH_SIZE=0]. *)
Definition zeroBatch : Raw.TelemetryConfig :=
  {| Raw.provider := auto;
     Raw.environment := "development";
     Raw.serviceName := Some "hydropulse-app";
     Raw.serviceVersion := Some "1.0.0";
     Raw.grafana := None;
     Raw.openTelemetry := None;
     Raw.alloy := None;
     Raw.batching := Some {| maxQueueSize := 0; scheduledDelayMillis := 5000 |};
     Raw.circuitBreaker := Some {| failureThreshold := 5; resetTimeoutMs := 60000 |};
     Raw.retry := Some {| maxAttempts := 3; backoffMultiplier := 2;
                          initialDelayMs := 1000 |};
     Raw.debug := Some false;
     Raw.sanitization := None |}.

Definition unversioned : Raw.TelemetryConfig :=
  {| Raw.provider := grafana;
     Raw.environment := "production";
     Raw.serviceName := Some "test-service";
     Raw.serviceVersion := None;
     Raw.grafana := None;
     Raw.openTelemetry := None;
     Raw.alloy := None;
     Raw.batching := None;
     Raw.circuitBreaker := None;
     Raw.retry := None;
     Raw.debug := None;
     Raw.sanitization := None |}.

(** A core whose breaker has opened: the threshold is one, the first
    metric fails on the primary backend and the fallback cannot be
    initialised. The cool-down ends at time 60000. *)
Definition tripped : World :=
  after (recordMetric hits) (core (settings 100 1 3 true) [false] [false]).

(** The same core when the cool-down has passed and the gate has let a
    probe through. *)
Definition probing : World :=
  after shouldAttemptRequest (set_clock 60000 tripped).

(** A core, with the default threshold of five, neither of whose backends
    could be initialised, at the end of the cool-down. *)
Definition uninitialised : World :=
  set_clock 60000
    (after initialize (core (settings 100 5 3 true) [false] [false; false])).

(** A session of a user and the runtime: metrics, a span, a log with a
    BigInt, the clock moving, the first timer firing, a flush. *)
Definition session : list Action :=
  [RecordMetric hits; RecordMetric cardMessage; StartTrace hits; Tick 70000;
   RecordLog bigOrder; Fire 0; EndTrace "span-1" hits; Flush; RecordMetric hits].

(** A core that has fallen back at initialisation, with a fallback backend
    that fails every other call. *)
Definition fallenBack : World :=
  set_fallbackProvider [false; true; false; true; false; true; false]
    (after initialize (core (settings 2 3 3 true) [false] [true])).

(** The event that a failed [startTrace] hands to the retry scheduler, when
    its timer fires. *)
Definition retriedSpan : TelemetryEvent :=
  {| type := trace; data := hits; timestamp := 0; retryCount := Some 1 |}.

(** Errors that carry no stack. *)
Definition noStacks : StackTraces := {| stackOf := fun _ => None |}.

(** Attributes that [JSON.stringify] refuses. *)
Definition bigAttributes : Object.Properties := [("id", JsBigInt 10)].

(** A function under [recordSpan] that gives the open span a BigInt
    attribute and returns. *)
Definition tagsSpan (spans : gmap string Traces.TraceData) (w : World)
  : Completion JsValue * gmap string Traces.TraceData * World :=
  (Normal (JsNumber 42), Traces.addSpanAttributes "span-1" bigAttributes spans, w).

(** A function under [recordSpan] that fails. *)
Definition failing (spans : gmap string Traces.TraceData) (w : World)
  : Completion JsValue * gmap string Traces.TraceData * World :=
  (Throw (Error "payment declined"), spans, w).

(** A core whose primary backend takes every call. *)
Definition steady : World := core (settings 100 5 3 true) [] [].

(** Three buffered logs, the second with a BigInt among its attributes,
    and the flush timer that waits for them. *)
Definition threeLogs : Logs.Buffer :=
  {| Logs.logBuffer := [Logs.entry Logs.info "cart opened" None 0;
                        Logs.entry Logs.info "order placed" (Some bigAttributes) 0;
                        Logs.entry Logs.warn "stock low" None 0];
     Logs.flushTimeout := Some 0%nat;
     Logs.armed := [{| Logs.handle := 0%nat; Logs.delayMs := 5000 |}] |}.

(** A configuration whose sanitisation group names [piiPatterns] and gives
    it no value: [{ enabled: true, piiPatterns: undefined }]. *)
Definition unpatterned : Raw.TelemetryConfig :=
  {| Raw.provider := auto;
     Raw.environment := "development";
     Raw.serviceName := Some "test-service";
     Raw.serviceVersion := Some "1.0.0";
     Raw.grafana := None;
     Raw.openTelemetry := None;
     Raw.alloy := None;
     Raw.batching := None;
     Raw.circuitBreaker := None;
     Raw.retry := None;
     Raw.debug := None;
     Raw.sanitization := Some {| Raw.enabled := true; Raw.piiPatterns := Some None |} |}.

End Scenario.

(** * Properties *)

Example stringify_object :
  JSON.stringify (JsObject [("name", JsString "hits"); ("value", JsNumber 3);
                            ("unit", JsUndefined); ("tags", JsArray [JsNull; JsBool true])])
  = Normal (Some (String "{" (String JSON.dquote ("name" +:+ String JSON.dquote (":"
      +:+ String JSON.dquote ("hits" +:+ String JSON.dquote (","
      +:+ String JSON.dquote ("value" +:+ String JSON.dquote (":3,"
      +:+ String JSON.dquote ("tags" +:+ String JSON.dquote ":[null,true]}")))))))))).
Proof. vm_compute. reflexivity. Qed.

Example parse_stringify_object :
  let v := JsObject [("name", JsString "hits"); ("value", JsNumber (-30));
                     ("tags", JsArray [JsNull; JsBool true; JsArray []; JsObject []])] in
  match JSON.stringify v with
  | Normal text => JSON.parse text = Normal v
  | Throw _ => False
  end.
Proof. vm_compute. reflexivity. Qed.

Example redact_credit_card :
  Regex.replace "call 4111 1111-11111111 now, not 12345678901234567" Regex.creditCard "[REDACTED]"
  = "call [REDACTED] now, not 12345678901234567".
Proof. vm_compute. reflexivity. Qed.

Example redact_email :
  Regex.replace "mail bob.smith+x@mail.example.org, or a@b.c" Regex.email "[REDACTED]"
  = "mail [REDACTED], or a@b.c".
Proof. vm_compute. reflexivity. Qed.

Example redact_ssn :
  Regex.replace "ssn 123-45-6789 / 1123-45-6789" Regex.ssn "[REDACTED]"
  = "ssn [REDACTED] / 1123-45-6789".
Proof. vm_compute. reflexivity. Qed.

(** ** The event queue *)

Section QueueProperties.
Context `{backends : Backends}.

Lemma queueEvent_config (e : TelemetryEvent) (w : World) :
  config (after (queueEvent e) w) = config w.
Proof. reflexivity. Qed.

(** One call on a queue within the bound: the new queue is the old one with
    the event behind it, less its head when the bound was reached. *)
Lemma queueEvent_step (e : TelemetryEvent) (w : World) :
  let cap := Z.to_nat (maxQueueSize (batching (config w))) in
  1 <= maxQueueSize (batching (config w)) ->
  (length (eventQueue w) <= cap)%nat ->
  eventQueue (after (queueEvent e) w)
  = drop (length (eventQueue w ++ [e]) - cap) (eventQueue w ++ [e]).
Proof.
  intros cap Hcap Hlen. unfold after, queueEvent, update. simpl.
  rewrite length_app. simpl.
  destruct (Z.leb_spec (maxQueueSize (batching (config w)))
                       (Z.of_nat (length (eventQueue w)))) as [Hfull | Hroom].
  - assert (length (eventQueue w) = cap) as Heq by lia.
    replace (length (eventQueue w) + 1 - cap)%nat with 1%nat by lia.
    destruct (eventQueue w) as [| x q]; [simpl in Heq; lia | reflexivity].
  - replace (length (eventQueue w) + 1 - cap)%nat with 0%nat by lia.
    reflexivity.
Qed.

Lemma queueAll_config (events : list TelemetryEvent) (w : World) :
  config (queueAll events w) = config w.
Proof.
  revert w. induction events as [| e events IH]; intros w; [reflexivity |].
  simpl. fold (queueAll events (after (queueEvent e) w)). by rewrite IH.
Qed.

(** C3, as amended: with a bound of at least one, any sequence of
    [queueEvent] calls on a queue within the bound leaves a queue within
    the bound, and that queue is the old one followed by the new events,
    less as many of its oldest entries as overflow the bound. *)
Theorem queueEvent_bounded_fifo (events : list TelemetryEvent) (w : World) :
  let cap := Z.to_nat (maxQueueSize (batching (config w))) in
  1 <= maxQueueSize (batching (config w)) ->
  (length (eventQueue w) <= cap)%nat ->
  (length (eventQueue (queueAll events w)) <= cap)%nat
  /\ eventQueue (queueAll events w)
     = drop (length (eventQueue w ++ events) - cap) (eventQueue w ++ events).
Proof.
  revert w. induction events as [| e events IH]; intros w cap Hcap Hlen.
  - simpl. rewrite app_nil_r.
    replace (length (eventQueue w) - cap)%nat with 0%nat by lia.
    by rewrite drop_0.
  - simpl. fold (queueAll events (after (queueEvent e) w)).
    pose proof (queueEvent_step e w Hcap Hlen) as Hstep. fold cap in Hstep.
    assert (length (eventQueue (after (queueEvent e) w)) <= cap)%nat as Hlen'.
    { rewrite Hstep, length_drop, length_app. simpl. lia. }
    destruct (IH (after (queueEvent e) w)) as [Hbound Hqueue];
      [by rewrite queueEvent_config | by rewrite queueEvent_config |].
    rewrite queueEvent_config in Hbound, Hqueue. fold cap in Hbound, Hqueue.
    split; [exact Hbound |].
    rewrite Hqueue, Hstep.
    replace (eventQueue w ++ e :: events)
      with ((eventQueue w ++ [e]) ++ events)
      by (by rewrite <- app_assoc).
    set (q := eventQueue w ++ [e]).
    assert (length q = S (length (eventQueue w))) as Hq
      by (unfold q; rewrite length_app; simpl; lia).
    rewrite <- (drop_app_le q events (length q - cap)) by lia.
    rewrite drop_drop. f_equal.
    rewrite !length_app, length_drop, length_app. lia.
Qed.

End QueueProperties.

Section QueueExamples.
#[local] Existing Instance Regex.engine.
#[local] Existing Instance Scripted.backends.
Import Scenario.

(** The spec's example: with a bound of three, enqueuing the events 1, 2,
    3, 4 leaves 2, 3, 4. *)
Lemma queueEvent_bounded_fifo_witness :
  let w := core (settings 3 5 3 true) [] [] in
  (length (eventQueue (queueAll [numbered 1; numbered 2; numbered 3; numbered 4] w)) <= 3)%nat
  /\ eventQueue (queueAll [numbered 1; numbered 2; numbered 3; numbered 4] w)
     = [numbered 2; numbered 3; numbered 4].
Proof.
  intros w.
  destruct (queueEvent_bounded_fifo
              [numbered 1; numbered 2; numbered 3; numbered 4] w) as [Hlen Hq].
  - vm_compute. discriminate.
  - vm_compute. lia.
  - split; [exact Hlen | rewrite Hq; reflexivity].
Defined.

(** C3 as stated fails when the configured bound is zero, which the
    normaliser accepts: the first event queued on a new core stays in the
    queue. *)
Lemma queueEvent_exceeds_zero_bound :
  let w := core (settings 0 5 3 true) [] [] in
  match validateAndNormalizeConfig zeroBatch with
  | Normal cfg => batching cfg = batching (config w)
  | Throw _ => False
  end
  /\ eventQueue w = []
  /\ maxQueueSize (batching (config w)) = 0
  /\ eventQueue (after (queueEvent (numbered 1)) w) = [numbered 1]
  /\ ~ (Z.of_nat (length (eventQueue (after (queueEvent (numbered 1)) w)))
        <= maxQueueSize (batching (config w))).
Proof. vm_compute. repeat split; try reflexivity. intros H. apply H. reflexivity. Qed.

End QueueExamples.

(** ** The circuit breaker *)

Section BreakerProperties.
Context `{backends : Backends}.

Lemma handleSuccess_closed (w : World) :
  state (circuitBreakerState w) = closed -> handleSuccess w = (Normal tt, w).
Proof. intros Hs. unfold handleSuccess, bind, read, ret. simpl. by rewrite Hs. Qed.

Lemma handleSuccess_open (w : World) :
  state (circuitBreakerState w) = open -> handleSuccess w = (Normal tt, w).
Proof. intros Hs. unfold handleSuccess, bind, read, ret. simpl. by rewrite Hs. Qed.

Lemma handleSuccess_half_open (w : World) :
  state (circuitBreakerState w) = half_open ->
  handleSuccess w
  = (Normal tt, set_circuitBreakerState initializeCircuitBreaker w).
Proof. intros Hs. unfold handleSuccess, bind, read, ret. simpl. by rewrite Hs. Qed.

(** [handleFailure] below the threshold: the count goes up by one. *)
Lemma handleFailure_below (w : World) :
  failureCount (circuitBreakerState w) + 1 < failureThreshold (circuitBreaker (config w)) ->
  circuitBreakerState (after handleFailure w)
  = {| state := state (circuitBreakerState w);
       failureCount := failureCount (circuitBreakerState w) + 1;
       lastFailureTime := lastFailureTime (circuitBreakerState w);
       nextAttemptTime := nextAttemptTime (circuitBreakerState w) |}
  /\ config (after handleFailure w) = config w.
Proof.
  intros Hlt. unfold after, handleFailure, bind, read, update, ret. simpl.
  destruct (Z.leb_spec (failureThreshold (circuitBreaker (config w)))
                       (failureCount (circuitBreakerState w) + 1)); [lia |].
  by split.
Qed.

(** [handleFailure] at the threshold: [openCircuitBreaker] counts the
    failure once more and starts the cool-down. *)
Lemma handleFailure_opens (w : World) :
  failureThreshold (circuitBreaker (config w)) <= failureCount (circuitBreakerState w) + 1 ->
  circuitBreakerState (after handleFailure w)
  = {| state := open;
       failureCount := failureCount (circuitBreakerState w) + 1 + 1;
       lastFailureTime := Some (clock w);
       nextAttemptTime := Some (clock w + resetTimeoutMs (circuitBreaker (config w))) |}
  /\ config (after handleFailure w) = config w.
Proof.
  intros Hge. unfold after, handleFailure, bind, read, update, ret. simpl.
  destruct (Z.leb_spec (failureThreshold (circuitBreaker (config w)))
                       (failureCount (circuitBreakerState w) + 1)); [| lia].
  by split.
Qed.

Lemma report_config (o : Outcome) (w : World) :
  config (after (report o) w) = config w.
Proof.
  destruct o; simpl.
  - unfold after, handleSuccess, bind, read, update, ret. simpl.
    by destruct (state (circuitBreakerState w)).
  - destruct (Z.lt_ge_cases (failureCount (circuitBreakerState w) + 1)
                            (failureThreshold (circuitBreaker (config w)))) as [Hlt | Hge].
    + by apply handleFailure_below.
    + by apply handleFailure_opens.
Qed.

(** Once open with the count at the threshold, reports keep it open. *)
Lemma reportAll_stays_open (outcomes : list Outcome) (w : World) :
  state (circuitBreakerState w) = open ->
  failureThreshold (circuitBreaker (config w)) <= failureCount (circuitBreakerState w) ->
  state (circuitBreakerState (reportAll outcomes w)) = open.
Proof.
  revert w. induction outcomes as [| o outcomes IH]; intros w Hs Hc; [done |].
  simpl. fold (reportAll outcomes (after (report o) w)). destruct o; simpl.
  - unfold after. rewrite handleSuccess_open by done. simpl. by apply IH.
  - destruct (handleFailure_opens w) as [Hb Hcfg]; [lia |].
    apply IH; rewrite ?Hb, ?Hcfg; simpl; [done | lia].
Qed.

Lemma reportAll_opens (outcomes : list Outcome) (w : World) :
  state (circuitBreakerState w) = closed ->
  1 <= failures outcomes ->
  failureThreshold (circuitBreaker (config w))
    <= failureCount (circuitBreakerState w) + failures outcomes ->
  state (circuitBreakerState (reportAll outcomes w)) = open.
Proof.
  revert w. induction outcomes as [| o outcomes IH]; intros w Hs Hone Hsum.
  - simpl in Hone. lia.
  - simpl. fold (reportAll outcomes (after (report o) w)). destruct o; simpl in *.
    + unfold after. rewrite handleSuccess_closed by done. simpl. by apply IH.
    + destruct (Z.lt_ge_cases (failureCount (circuitBreakerState w) + 1)
                              (failureThreshold (circuitBreaker (config w)))) as [Hlt | Hge].
      * destruct (handleFailure_below w Hlt) as [Hb Hcfg].
        apply IH; rewrite ?Hb, ?Hcfg; simpl; [done | lia | lia].
      * destruct (handleFailure_opens w Hge) as [Hb Hcfg].
        apply reportAll_stays_open; rewrite ?Hb, ?Hcfg; simpl; [done | lia].
Qed.

End BreakerProperties.

Section GateProperties.
Context `{backends : Backends}.

(** C2, as amended: while the breaker is open the gate refuses before
    [nextAttemptTime] and changes nothing; from [nextAttemptTime] on it
    lets the request through and the state becomes half-open; and in the
    half-open state every further check passes too, at any later time,
    until the outcome of an operation changes the state. *)
Theorem shouldAttemptRequest_open (w : World) (t : Z) :
  state (circuitBreakerState w) = open ->
  nextAttemptTime (circuitBreakerState w) = Some t ->
  (clock w < t -> shouldAttemptRequest w = (Normal false, w))
  /\ (t <= clock w ->
      result shouldAttemptRequest w = Normal true
      /\ state (circuitBreakerState (after shouldAttemptRequest w)) = half_open
      /\ forall later : Z,
           let w' := set_clock later (after shouldAttemptRequest w) in
           shouldAttemptRequest w' = (Normal true, w')).
Proof.
  intros Hs Ht. split; intros Hclock.
  - unfold shouldAttemptRequest, Date_now, bind, read, update, ret. simpl.
    rewrite Hs, Ht. simpl.
    by destruct (Z.leb_spec t (clock w)); [lia |].
  - unfold result, after, shouldAttemptRequest, Date_now, bind, read, update, ret.
    simpl. rewrite Hs, Ht. simpl.
    destruct (Z.leb_spec t (clock w)); [| lia]. simpl.
    repeat split; reflexivity.
Qed.

(** C7, as amended: in the half-open state a success closes the breaker
    and clears the count; a failure whose count reaches the threshold
    opens it again, with the cool-down ending [resetTimeoutMs] after the
    current time. *)
Theorem half_open_outcome (w : World) :
  state (circuitBreakerState w) = half_open ->
  circuitBreakerState (after handleSuccess w)
  = {| state := closed; failureCount := 0;
       lastFailureTime := None; nextAttemptTime := None |}
  /\ (failureThreshold (circuitBreaker (config w))
        <= failureCount (circuitBreakerState w) + 1 ->
      state (circuitBreakerState (after handleFailure w)) = open
      /\ nextAttemptTime (circuitBreakerState (after handleFailure w))
         = Some (clock w + resetTimeoutMs (circuitBreaker (config w)))).
Proof.
  intros Hs. split.
  - unfold after. by rewrite handleSuccess_half_open.
  - intros Hge. destruct (handleFailure_opens w Hge) as [-> _]. by split.
Qed.

End GateProperties.

Section BreakerExamples.
#[local] Existing Instance Regex.engine.
#[local] Existing Instance Scripted.backends.
Import Scenario.

Example tripped_is_open :
  circuitBreakerState tripped
  = {| state := open; failureCount := 3;
       lastFailureTime := Some 0; nextAttemptTime := Some 60000 |}.
Proof. vm_compute. reflexivity. Qed.

Lemma shouldAttemptRequest_open_witness :
  shouldAttemptRequest (set_clock 59999 tripped)
    = (Normal false, set_clock 59999 tripped)
  /\ result shouldAttemptRequest (set_clock 60000 tripped) = Normal true
  /\ state (circuitBreakerState probing) = half_open.
Proof.
  split.
  - destruct (shouldAttemptRequest_open (set_clock 59999 tripped) 60000)
      as [Hblock _]; [vm_compute; reflexivity | vm_compute; reflexivity |].
    apply Hblock. vm_compute. reflexivity.
  - destruct (shouldAttemptRequest_open (set_clock 60000 tripped) 60000)
      as [_ Hpass]; [vm_compute; reflexivity | vm_compute; reflexivity |].
    destruct Hpass as (Hr & Hstate & _); [vm_compute; discriminate |].
    split; [exact Hr | exact Hstate].
Defined.


(** C2 as stated fails in its last part: after the gate has let the probe
    through, a second check in the same window passes as well, although no
    outcome has been reported in between. *)
Lemma second_gate_check_passes :
  let w1 := set_clock 60000 tripped in
  let w2 := after shouldAttemptRequest w1 in
  let w3 := after shouldAttemptRequest w2 in
  state (circuitBreakerState w1) = open
  /\ result shouldAttemptRequest w1 = Normal true
  /\ result shouldAttemptRequest w2 = Normal true
  /\ result shouldAttemptRequest w3 = Normal true.
Proof. vm_compute. repeat split; reflexivity. Qed.

Lemma half_open_outcome_witness :
  circuitBreakerState (after handleSuccess probing)
  = {| state := closed; failureCount := 0;
       lastFailureTime := None; nextAttemptTime := None |}
  /\ state (circuitBreakerState (after handleFailure probing)) = open
  /\ nextAttemptTime (circuitBreakerState (after handleFailure probing))
     = Some 120000.
Proof.
  destruct (half_open_outcome probing) as [Hsuccess Hfailure];
    [vm_compute; reflexivity |].
  destruct Hfailure as [Hstate Hnext]; [vm_compute; discriminate |].
  split; [exact Hsuccess | split; [exact Hstate |]].
  rewrite Hnext. vm_compute. reflexivity.
Defined.

(** C7 as stated fails in its second part. Neither backend could be
    initialised, so the breaker opened with a count of one, below the
    threshold of five. After the cool-down the gate lets a metric through,
    the fallback backend rejects it, and the breaker is still half-open. *)
Lemma failed_probe_stays_half_open :
  result initialize (core (settings 100 5 3 true) [false] [false; false])
    = Throw (Error "Both primary and fallback providers failed to initialize")
  /\ circuitBreakerState uninitialised
     = {| state := open; failureCount := 1;
          lastFailureTime := Some 0; nextAttemptTime := Some 60000 |}
  /\ state (circuitBreakerState (after shouldAttemptRequest uninitialised)) = half_open
  /\ state (circuitBreakerState
              (after handleFailure (after shouldAttemptRequest uninitialised)))
     = half_open
  /\ state (circuitBreakerState
              (after handleFailure (after shouldAttemptRequest uninitialised)))
     <> open
  /\ result (recordMetric hits) uninitialised = Normal tt
  /\ last (effects (after (recordMetric hits) uninitialised))
     = Some (Invoke fallback (CallRecordMetric hits))
  /\ circuitBreakerState (after (recordMetric hits) uninitialised)
     = {| state := half_open; failureCount := 2;
          lastFailureTime := Some 0; nextAttemptTime := Some 60000 |}.
Proof. vm_compute. repeat split; try reflexivity. discriminate. Qed.

End BreakerExamples.

(** ** Calls that return *)

Create HintDb returns discriminated.

Section Returning.
Context `{backends : Backends}.

Lemma result_bind {A B} (m : M A) (k : A -> M B) (w : World) :
  result (bind m k) w
  = match result m w with
    | Normal a => result (k a) (after m w)
    | Throw e => Throw e
    end.
Proof. unfold result, after, bind. by destruct (m w) as [[a | e] w']. Qed.

Lemma after_bind {A B} (m : M A) (k : A -> M B) (w : World) :
  after (bind m k) w
  = match result m w with
    | Normal a => after (k a) (after m w)
    | Throw e => after m w
    end.
Proof. unfold result, after, bind. by destruct (m w) as [[a | e] w']. Qed.

Lemma result_tryCatch {A} (body : M A) (handler : JsError -> M A) (w : World) :
  result (tryCatch body handler) w
  = match result body w with
    | Normal a => Normal a
    | Throw e => result (handler e) (after body w)
    end.
Proof. unfold result, after, tryCatch. by destruct (body w) as [[a | e] w']. Qed.

Lemma after_tryCatch {A} (body : M A) (handler : JsError -> M A) (w : World) :
  after (tryCatch body handler) w
  = match result body w with
    | Normal a => after body w
    | Throw e => after (handler e) (after body w)
    end.
Proof. unfold result, after, tryCatch. by destruct (body w) as [[a | e] w']. Qed.

Lemma returns_ret {A} (a : A) : Returns (ret a).
Proof. intros w. by exists a. Qed.

Lemma returns_read {A} (f : World -> A) : Returns (read f).
Proof. intros w. by exists (f w). Qed.

Lemma returns_update (f : World -> World) : Returns (update f).
Proof. intros w. by exists tt. Qed.

Lemma returns_bind {A B} (m : M A) (k : A -> M B) :
  Returns m -> (forall a, Returns (k a)) -> Returns (bind m k).
Proof.
  intros Hm Hk w. destruct (Hm w) as [a Ha].
  rewrite result_bind, Ha. apply Hk.
Qed.

Lemma returns_tryCatch {A} (body : M A) (handler : JsError -> M A) :
  (forall e, Returns (handler e)) -> Returns (tryCatch body handler).
Proof.
  intros Hh w. rewrite result_tryCatch.
  destruct (result body w) as [a | e]; [by exists a | apply Hh].
Qed.

Lemma returns_forOf {A} (l : list A) (body : A -> M unit) :
  (forall x, Returns (body x)) -> Returns (forOf l body).
Proof.
  intros Hbody. induction l as [| x l IH]; simpl.
  - apply returns_ret.
  - apply returns_bind; [apply Hbody | intros _; exact IH].
Qed.

Lemma returns_if {A} (b : bool) (m1 m2 : M A) :
  Returns m1 -> Returns m2 -> Returns (if b then m1 else m2).
Proof. by destruct b. Qed.

Lemma returns_setTimeout d k e n : Returns (setTimeout d k e n).
Proof. intros w. by exists (nextTimerId w). Qed.

#[local] Hint Resolve returns_ret returns_read returns_update returns_bind
  returns_tryCatch returns_forOf returns_if returns_setTimeout : returns.

Lemma returns_Date_now : Returns Date_now.
Proof. unfold Date_now. auto with returns. Qed.

Lemma returns_openCircuitBreaker : Returns openCircuitBreaker.
Proof. unfold openCircuitBreaker, Date_now. auto with returns. Qed.

Lemma returns_shouldAttemptRequest : Returns shouldAttemptRequest.
Proof.
  unfold shouldAttemptRequest, Date_now.
  apply returns_bind; [auto with returns |]. intros now.
  apply returns_bind; [auto with returns |]. intros b.
  destruct (state b); auto with returns.
Qed.

Lemma returns_handleSuccess : Returns handleSuccess.
Proof.
  unfold handleSuccess. apply returns_bind; [auto with returns |]. intros b.
  destruct (state b); auto with returns.
Qed.

Lemma returns_handleFailure : Returns handleFailure.
Proof.
  unfold handleFailure. pose proof returns_openCircuitBreaker.
  auto 8 with returns.
Qed.

Lemma returns_queueEvent e : Returns (queueEvent e).
Proof. unfold queueEvent. auto with returns. Qed.

Lemma returns_retryEvent e : Returns (retryEvent e).
Proof. unfold retryEvent. auto 8 with returns. Qed.

Lemma returns_processQueuedEvents : Returns processQueuedEvents.
Proof.
  unfold processQueuedEvents. apply returns_bind; [auto with returns |].
  intros [| e events]; [auto with returns |].
  pose proof returns_retryEvent. auto 8 with returns.
Qed.

Lemma returns_handleProviderError error e : Returns (handleProviderError error e).
Proof.
  unfold handleProviderError. pose proof (returns_retryEvent e).
  apply returns_bind; [auto with returns |]. intros current.
  apply returns_bind; [destruct current; auto with returns |].
  intros recovered. auto with returns.
Qed.

(** Whatever the backends answer, [processEvent] returns to its caller. *)
Lemma returns_processEvent e : Returns (processEvent e).
Proof.
  unfold processEvent.
  pose proof returns_shouldAttemptRequest. pose proof returns_handleFailure.
  pose proof (returns_queueEvent e). pose proof (fun x => returns_handleProviderError x e).
  auto 8 with returns.
Qed.

End Returning.

#[global] Hint Resolve returns_ret returns_read returns_update returns_bind
  returns_tryCatch returns_forOf returns_if returns_setTimeout returns_Date_now
  returns_openCircuitBreaker returns_shouldAttemptRequest returns_handleSuccess
  returns_handleFailure returns_queueEvent returns_retryEvent
  returns_processQueuedEvents returns_handleProviderError returns_processEvent
  : returns.

(** ** The sanitiser *)

Section SanitizerProperties.
Context `{backends : Backends}.

Lemma JsValue_nested_ind (P : JsValue -> Prop) :
  P JsUndefined -> P JsNull -> (forall b, P (JsBool b)) ->
  (forall n, P (JsNumber n)) -> (forall n, P (JsBigInt n)) ->
  (forall s, P (JsString s)) ->
  (forall elems, Forall P elems -> P (JsArray elems)) ->
  (forall props, Forall (fun p => P p.2) props -> P (JsObject props)) ->
  forall v, P v.
Proof.
  intros Hu Hn Hb Hnum Hbig Hs Harr Hobj.
  fix IH 1. intros [| | b | n | n | s | elems | props];
    [exact Hu | exact Hn | apply Hb | apply Hnum | apply Hbig | apply Hs | |].
  - apply Harr. induction elems as [| x elems IHl]; constructor; [apply IH | exact IHl].
  - apply Hobj. induction props as [| [k x] props IHl]; constructor;
      [apply IH | exact IHl].
Qed.

(** Without a BigInt serialisation does not throw, and only [undefined]
    has no text. *)
Lemma serializeProperty_text (v : JsValue) :
  hasBigInt v = false ->
  exists o, JSON.serializeProperty v = Normal o
            /\ (v <> JsUndefined -> exists text, o = Some text).
Proof.
  induction v as [| | b | n | n | s | elems IH | props IH] using JsValue_nested_ind;
    intros Hbig; simpl in *; try discriminate;
    try (eexists; split; [reflexivity | intros _; eauto]; fail).
  - exists None. split; [reflexivity | congruence].
  - destruct b; eexists; split; try reflexivity; intros _; eauto.
  - assert (exists parts,
      (fix serializeElements (l : list JsValue) : Completion (list string) :=
         match l with
         | [] => Normal []
         | x :: rest =>
             match JSON.serializeProperty x with
             | Throw e => Throw e
             | Normal o =>
                 match serializeElements rest with
                 | Throw e => Throw e
                 | Normal parts => Normal (default "null" o :: parts)
                 end
             end
         end) elems = Normal parts) as [parts ->].
    { induction IH as [| x elems Hx _ IHelems]; [by eexists |].
      simpl in Hbig. apply orb_false_iff in Hbig as [Hbx Hbr].
      destruct (Hx Hbx) as (o & -> & _). destruct (IHelems Hbr) as [parts ->].
      by eexists. }
    eexists; split; [reflexivity | intros _; eauto].
  - assert (exists parts,
      (fix serializeMembers (l : list (string * JsValue)) : Completion (list string) :=
         match l with
         | [] => Normal []
         | (k, x) :: rest =>
             match JSON.serializeProperty x with
             | Throw e => Throw e
             | Normal o =>
                 match serializeMembers rest with
                 | Throw e => Throw e
                 | Normal parts =>
                     Normal (match o with
                             | Some text => (JSON.quote k +:+ ":" +:+ text) :: parts
                             | None => parts
                             end)
                 end
             end
         end) props = Normal parts) as [parts ->].
    { induction IH as [| [k x] props Hx _ IHprops]; [by eexists |].
      simpl in Hbig, Hx. apply orb_false_iff in Hbig as [Hbx Hbr].
      destruct (Hx Hbx) as (o & -> & _). destruct (IHprops Hbr) as [parts ->].
      by eexists. }
    eexists; split; [reflexivity | intros _; eauto].
Qed.

(** The loop applies the patterns from first to last. *)
Lemma redact_text (patterns : list RegExp) (text : string) :
  redact patterns (Some text)
  = Normal (Some (foldl (fun t p => String_replace t p "[REDACTED]") text patterns)).
Proof.
  revert text. induction patterns as [| p patterns IH]; intros text; [done |].
  simpl. apply IH.
Qed.

Lemma sanitizeData_pure (payload : JsValue) : Pure (sanitizeData payload).
Proof.
  intros w.
  unfold after, sanitizeData, bind, read, ret, throw, tryCatch, liftCompletion.
  simpl. destruct (enabled (sanitization (config w))); simpl; [| done].
  destruct (JSON.stringify payload) as [serialized | e]; [| done].
  destruct (piiPatterns (sanitization (config w))) as [patterns |]; [| done].
  destruct (redact patterns serialized) as [sanitized | e]; [| done].
  by destruct (JSON.parse sanitized).
Qed.

(** C5, as amended: a payload that holds no BigInt and is not
    [undefined] has a JSON text, and on a payload with a JSON text
    [sanitizeData] returns, provided [piiPatterns] is an array when
    sanitisation is on: the payload itself when sanitisation is off, else
    the value parsed from the text after the patterns were applied to it
    in order, or the payload itself when that text does not parse. The
    world is not changed. *)
Theorem sanitizeData_fail_open (w : World) (payload : JsValue)
    (patterns : list RegExp) :
  hasBigInt payload = false ->
  payload <> JsUndefined ->
  (enabled (sanitization (config w)) = true ->
   piiPatterns (sanitization (config w)) = Some patterns) ->
  exists text,
    JSON.stringify payload = Normal (Some text)
    /\ let redacted :=
         foldl (fun t p => String_replace t p "[REDACTED]") text patterns in
       sanitizeData payload w
       = (Normal (if enabled (sanitization (config w))
                  then default payload (JSON.parseText redacted)
                  else payload), w).
Proof.
  intros Hbig Hdef Hpatterns.
  destruct (serializeProperty_text payload Hbig) as (o & Hser & Htext).
  destruct (Htext Hdef) as [text ->]. exists text. split; [exact Hser |].
  unfold sanitizeData, bind, read, ret, tryCatch, liftCompletion. simpl.
  destruct (enabled (sanitization (config w))); simpl; [| done].
  unfold JSON.stringify. rewrite Hser, (Hpatterns eq_refl), redact_text.
  unfold JSON.parse. by destruct (JSON.parseText _).
Qed.

End SanitizerProperties.

Section SanitizerExamples.
#[local] Existing Instance Regex.engine.
#[local] Existing Instance Scripted.backends.
Import Scenario.

Lemma sanitizeData_fail_open_witness :
  let w := core (settings 100 5 3 true) [] [] in
  result (sanitizeData cardMessage) w
    = Normal (JsObject [("message", JsString "call [REDACTED]")])
  /\ result (sanitizeData cardValue) w = Normal cardValue.
Proof.
  intros w. split.
  - destruct (sanitizeData_fail_open w cardMessage [Regex.creditCard; Regex.email; Regex.ssn])
      as (text & Htext & Hrun); [reflexivity | discriminate | by intros _ |].
    unfold result. rewrite Hrun. clear Hrun.
    assert (text = "{" +:+ JSON.quote "message" +:+ ":"
                   +:+ JSON.quote "call 4111111111111111" +:+ "}") as ->
      by (vm_compute in Htext; injection Htext as <-; vm_compute; reflexivity).
    vm_compute. reflexivity.
  - destruct (sanitizeData_fail_open w cardValue [Regex.creditCard; Regex.email; Regex.ssn])
      as (text & Htext & Hrun); [reflexivity | discriminate | by intros _ |].
    unfold result. rewrite Hrun. clear Hrun.
    assert (text = "{" +:+ JSON.quote "name" +:+ ":" +:+ JSON.quote "last_card"
                   +:+ "," +:+ JSON.quote "value" +:+ ":4111111111111111}") as ->
      by (vm_compute in Htext; injection Htext as <-; vm_compute; reflexivity).
    vm_compute. reflexivity.
Defined.

(** C5 as stated fails: with sanitisation on, a payload that holds a
    BigInt makes [JSON.stringify] throw outside the [try] block, and the
    error reaches the caller of [recordLog]. *)
Lemma sanitizeData_throws_on_bigint :
  let w := core (settings 100 5 3 true) [] [] in
  enabled (sanitization (config w)) = true
  /\ result (sanitizeData bigOrder) w
     = Throw (TypeError "Do not know how to serialize a BigInt")
  /\ result (recordLog bigOrder) w
     = Throw (TypeError "Do not know how to serialize a BigInt").
Proof. vm_compute. repeat split; reflexivity. Qed.

(** The same holds without any BigInt for a core built from a
    configuration that names [piiPatterns] and leaves it [undefined]: the
    spread of [validateAndNormalizeConfig] keeps [undefined], the loop over
    the patterns throws outside the [try] block on every payload, and the
    error reaches the caller of [recordMetric]. *)
Lemma sanitizeData_throws_without_patterns :
  match validateAndNormalizeConfig unpatterned with
  | Normal cfg =>
      let w := newCore cfg 0 in
      enabled (sanitization (config w)) = true
      /\ piiPatterns (sanitization (config w)) = None
      /\ result (sanitizeData hits) w
         = Throw (TypeError "this.config.sanitization.piiPatterns is not iterable")
      /\ result (recordMetric hits) w
         = Throw (TypeError "this.config.sanitization.piiPatterns is not iterable")
  | Throw _ => False
  end.
Proof. vm_compute. repeat split; reflexivity. Qed.

End SanitizerExamples.

(** ** The instrumentation calls *)

Section CallProperties.
Context `{backends : Backends}.

Lemma returns_unit (m : M unit) (w : World) : Returns m -> result m w = Normal tt.
Proof. intros Hm. by destruct (Hm w) as [[] ->]. Qed.

Lemma run_pure {A} (m : M A) (a : A) (w : World) :
  Pure m -> result m w = Normal a -> m w = (Normal a, w).
Proof.
  intros Hpure Hres. specialize (Hpure w). unfold result, after in *.
  destruct (m w) as [c w']. simpl in *. by subst.
Qed.

Lemma result_invoke {A} (call : ProviderCall)
    (method : Provider -> Completion A * Provider) (w : World) :
  result (invoke call method) w = fst (method (providerAt (currentProvider w) w)).
Proof. unfold result, invoke. by destruct (method _). Qed.

(** A refusing gate changes nothing. *)
Lemma shouldAttemptRequest_refuses (w : World) :
  result shouldAttemptRequest w = Normal false ->
  shouldAttemptRequest w = (Normal false, w).
Proof.
  unfold result, shouldAttemptRequest, Date_now, bind, read, update, ret. simpl.
  destruct (state (circuitBreakerState w)); simpl; try discriminate.
  by destruct (reached _ _).
Qed.











(** C4, as amended: when the gate refuses, [startTrace] calls no backend;
    it puts the trace event in the queue, under the rule of [queueEvent],
    and returns the placeholder [queued-] followed by the current time. *)
Theorem startTrace_blocked (w : World) (payload clean : JsValue) :
  result (sanitizeData payload) w = Normal clean ->
  result shouldAttemptRequest w = Normal false ->
  let queued := {| type := trace; data := clean;
                   timestamp := clock w; retryCount := None |} in
  startTrace payload w
    = (Normal ("queued-" +:+ pretty (clock w)), after (queueEvent queued) w)
  /\ effects (after (startTrace payload) w) = effects w
  /\ last (eventQueue (after (startTrace payload) w)) = Some queued.
Proof.
  intros Hclean Hgate queued.
  assert (startTrace payload w
          = (Normal ("queued-" +:+ pretty (clock w)), after (queueEvent queued) w))
    as Hrun.
  { unfold startTrace, bind at 1.
    rewrite (run_pure _ _ _ (sanitizeData_pure payload) Hclean).
    unfold bind at 1. rewrite (shouldAttemptRequest_refuses w Hgate). reflexivity. }
  split; [exact Hrun |].
  assert (after (startTrace payload) w = after (queueEvent queued) w) as ->
    by (unfold after at 1; by rewrite Hrun).
  split; [reflexivity | apply last_snoc].
Qed.

End CallProperties.

Section CallExamples.
#[local] Existing Instance Regex.engine.
#[local] Existing Instance Scripted.backends.
Import Scenario.



Lemma startTrace_blocked_witness :
  result (startTrace hits) tripped = Normal "queued-0"
  /\ effects (after (startTrace hits) tripped) = effects tripped.
Proof.
  destruct (startTrace_blocked tripped hits hits) as (Hrun & Heffects & _);
    [vm_compute; reflexivity | vm_compute; reflexivity |].
  split; [| exact Heffects].
  unfold result. rewrite Hrun. vm_compute. reflexivity.
Defined.

(** C4 as stated fails in its last part: under a refusing gate the trace
    event is put in the queue. *)
Lemma startTrace_blocked_queues :
  result shouldAttemptRequest tripped = Normal false
  /\ eventQueue tripped = []
  /\ result (startTrace hits) tripped = Normal "queued-0"
  /\ eventQueue (after (startTrace hits) tripped)
     = [{| type := trace; data := hits; timestamp := 0; retryCount := None |}].
Proof. vm_compute. repeat split; reflexivity. Qed.

End CallExamples.

(** ** The retry scheduler *)

Section RetryProperties.
Context `{backends : Backends}.

(** C6: the retry scheduler counts one attempt more than the event
    carries. Beyond [maxAttempts] it changes nothing: no timer is armed,
    the event is in no queue and no backend is called. Otherwise it arms
    one timer whose delay is [initialDelayMs] times [backoffMultiplier] to
    the power of the count less one, and when that timer fires the event,
    carrying the new count, goes through [processEvent]. *)
Theorem retryEvent_backoff (e : TelemetryEvent) (w : World) :
  let count := default 0 (retryCount e) + 1 in
  let armed := {| timerId := nextTimerId w;
                  delay := initialDelayMs (retry (config w))
                           * backoffMultiplier (retry (config w)) ^ (count - 1);
                  eventKey := retryKey e count;
                  event := e;
                  attempt := count |} in
  let again := {| type := type e; data := data e; timestamp := timestamp e;
                  retryCount := Some count |} in
  (maxAttempts (retry (config w)) < count -> retryEvent e w = (Normal tt, w))
  /\ (count <= maxAttempts (retry (config w)) ->
      result (retryEvent e) w = Normal tt
      /\ timers (after (retryEvent e) w) = timers w ++ [armed]
      /\ retryTimeouts (after (retryEvent e) w)
         = <[retryKey e count := nextTimerId w]> (retryTimeouts w)
      /\ eventQueue (after (retryEvent e) w) = eventQueue w
      /\ effects (after (retryEvent e) w) = effects w)
  /\ (forall v : World,
        fireTimer armed v
        = processEvent again
            (set_retryTimeouts
               (delete (retryKey e count)
                       (retryTimeouts (after (clearTimeout (nextTimerId w)) v)))
               (after (clearTimeout (nextTimerId w)) v))).
Proof.
  intros count armed again. repeat split.
  - intros Hover.
    unfold retryEvent, nextRetryCount, bind, read, ret. simpl. fold count.
    by destruct (Z.ltb_spec (maxAttempts (retry (config w))) count); [| lia].
  - apply returns_unit. auto with returns.
  - unfold after, retryEvent, nextRetryCount, retryDelay, setTimeout, bind, read,
      update, ret. simpl. fold count.
    by destruct (Z.ltb_spec (maxAttempts (retry (config w))) count); [lia |].
  - unfold after, retryEvent, nextRetryCount, retryDelay, setTimeout, bind, read,
      update, ret. simpl. fold count.
    by destruct (Z.ltb_spec (maxAttempts (retry (config w))) count); [lia |].
  - unfold after, retryEvent, nextRetryCount, retryDelay, setTimeout, bind, read,
      update, ret. simpl. fold count.
    by destruct (Z.ltb_spec (maxAttempts (retry (config w))) count).
  - unfold after, retryEvent, nextRetryCount, retryDelay, setTimeout, bind, read,
      update, ret. simpl. fold count.
    by destruct (Z.ltb_spec (maxAttempts (retry (config w))) count).
Qed.

End RetryProperties.

Section RetryExamples.
#[local] Existing Instance Regex.engine.
#[local] Existing Instance Scripted.backends.
Import Scenario.

(** With three attempts allowed, a first delay of one second and a
    multiplier of two: an event on its third retry waits four seconds, an
    event that has had three is dropped. *)
Lemma retryEvent_backoff_witness :
  let w := core (settings 100 5 3 true) [] [] in
  retryEvent (retried 7 3) w = (Normal tt, w)
  /\ delay <$> timers (after (retryEvent (retried 7 2)) w) = [4000]
  /\ delay <$> timers (after (retryEvent (numbered 7)) w) = [1000].
Proof.
  intros w. split; [| split].
  - destruct (retryEvent_backoff (retried 7 3) w) as (Hdrop & _ & _).
    apply Hdrop. vm_compute. reflexivity.
  - destruct (retryEvent_backoff (retried 7 2) w) as (_ & Harm & _).
    destruct Harm as (_ & -> & _); [vm_compute; discriminate |].
    vm_compute. reflexivity.
  - destruct (retryEvent_backoff (numbered 7) w) as (_ & Harm & _).
    destruct Harm as (_ & -> & _); [vm_compute; discriminate |].
    vm_compute. reflexivity.
Defined.

End RetryExamples.

(** ** Construction *)

Section ConstructorProperties.
Context `{backends : Backends}.

(** C8: when the service name or the service version is missing
    ([undefined] or empty), the constructor throws the configuration
    error to its caller, and no backend object has been created or
    called. *)
Theorem constructor_requires_names (raw : Raw.TelemetryConfig) (now : Z) :
  falsy (Raw.serviceName raw) = true \/ falsy (Raw.serviceVersion raw) = true ->
  exists message,
    constructor (Some raw) now = (Throw (Error message), [])
    /\ (message = "serviceName is required in telemetry configuration"
        \/ message = "serviceVersion is required in telemetry configuration").
Proof.
  intros Hmissing. unfold constructor, validateAndNormalizeConfig.
  destruct (falsy (Raw.serviceName raw)) eqn:Hname.
  - eexists. split; [reflexivity | by left].
  - destruct Hmissing as [Hn | Hv]; [discriminate |]. rewrite Hv.
    eexists. split; [reflexivity | by right].
Qed.

End ConstructorProperties.

Section ConstructorExamples.
#[local] Existing Instance Regex.engine.
#[local] Existing Instance Scripted.backends.
Import Scenario.

Lemma constructor_requires_names_witness :
  falsy (Raw.serviceName unnamed) = true
  /\ falsy (Raw.serviceVersion unversioned) = true
  /\ (exists message,
        constructor (Some unnamed) 0 = (Throw (Error message), [])
        /\ (message = "serviceName is required in telemetry configuration"
            \/ message = "serviceVersion is required in telemetry configuration"))
  /\ (exists message,
        constructor (Some unversioned) 0 = (Throw (Error message), [])
        /\ (message = "serviceName is required in telemetry configuration"
            \/ message = "serviceVersion is required in telemetry configuration")).
Proof.
  split; [reflexivity | split; [reflexivity | split]].
  - exact (constructor_requires_names unnamed 0 (or_introl eq_refl)).
  - exact (constructor_requires_names unversioned 0 (or_intror eq_refl)).
Defined.

Example constructor_rejects_empty_name :
  thrown (fst (constructor (Some unnamed) 0))
    = Some (Error "serviceName is required in telemetry configuration")
  /\ thrown (fst (constructor (Some unversioned) 0))
     = Some (Error "serviceVersion is required in telemetry configuration")
  /\ snd (constructor (Some unnamed) 0) = []
  /\ snd (constructor (Some unversioned) 0) = [].
Proof. vm_compute. repeat split; reflexivity. Qed.

(** With both names present the constructor creates the two backend
    objects and returns. *)
Example constructor_accepts_names :
  snd (constructor (Some Scripted.environmentDefaults) 0)
  = [Instantiate GrafanaProvider; Instantiate OpenTelemetryProvider].
Proof. vm_compute. reflexivity. Qed.

End ConstructorExamples.

(** ** Falling back at initialisation *)

Section FallbackProperties.
Context `{backends : Backends}.

(** Sending one queued event, and arming a retry when that fails, calls
    the current backend as [delivery] says and leaves the reference, the
    breaker and the queue alone. *)
Lemma drain_step (e : TelemetryEvent) (w : World) :
  let w' := after (tryCatch (sendEvent e) (fun _ => retryEvent e)) w in
  currentProvider w' = currentProvider w
  /\ circuitBreakerState w' = circuitBreakerState w
  /\ eventQueue w' = eventQueue w
  /\ effects w' = effects w ++ delivery (currentProvider w) e.
Proof.
  unfold after, tryCatch, sendEvent, delivery, invoke, retryEvent, setTimeout,
    bind, read, update, ret.
  destruct (type e); simpl.
  - destruct (TelemetryProvider.recordMetric _ _) as [[[] | err] p];
      destruct (currentProvider w) eqn:Hcur; simpl; rewrite ?Hcur;
      try destruct (_ <? _); simpl; rewrite ?Hcur; done.
  - by rewrite app_nil_r.
  - destruct (TelemetryProvider.recordLog _ _) as [[[] | err] p];
      destruct (currentProvider w) eqn:Hcur; simpl; rewrite ?Hcur;
      try destruct (_ <? _); simpl; rewrite ?Hcur; done.
Qed.

Lemma drain_loop (events : list TelemetryEvent) (w : World) :
  let w' := after (forOf events
                     (fun e => tryCatch (sendEvent e) (fun _ => retryEvent e))) w in
  currentProvider w' = currentProvider w
  /\ circuitBreakerState w' = circuitBreakerState w
  /\ eventQueue w' = eventQueue w
  /\ effects w' = effects w ++ deliveries (currentProvider w) events.
Proof.
  revert w. induction events as [| e events IH]; intros w; simpl.
  - unfold deliveries. simpl. by rewrite app_nil_r.
  - rewrite after_bind.
    rewrite (returns_unit (tryCatch (sendEvent e) (fun _ => retryEvent e)))
      by auto with returns.
    destruct (drain_step e w) as (Hcur & Hcb & Hq & Heff).
    destruct (IH (after (tryCatch (sendEvent e) (fun _ => retryEvent e)) w))
      as (Hcur' & Hcb' & Hq' & Heff').
    simpl in *. rewrite Hcur', Hcb', Hq', Heff', Hcur, Hcb, Hq, Heff.
    repeat split; try done.
    unfold deliveries. simpl. by rewrite <- app_assoc.
Qed.

(** [processQueuedEvents] empties the queue and sends what it held, oldest
    first, to the current backend. *)
Lemma processQueuedEvents_drains (w : World) :
  let w' := after processQueuedEvents w in
  result processQueuedEvents w = Normal tt
  /\ currentProvider w' = currentProvider w
  /\ circuitBreakerState w' = circuitBreakerState w
  /\ eventQueue w' = []
  /\ effects w' = effects w ++ deliveries (currentProvider w) (eventQueue w).
Proof.
  simpl. split; [apply returns_unit; auto with returns |].
  unfold processQueuedEvents. rewrite after_bind. simpl.
  change (after (read eventQueue) w) with w.
  destruct (eventQueue w) as [| e events] eqn:Hqueue.
  - unfold after, ret, deliveries. simpl. by rewrite app_nil_r.
  - rewrite after_bind. simpl.
    destruct (drain_loop (e :: events) (after (update (set_eventQueue [])) w))
      as (Hcur & Hcb & Hq & Heff).
    simpl in Hcur, Hcb, Hq, Heff. by rewrite Hcur, Hcb, Hq, Heff.
Qed.

(** The world in which [switchToFallback] has repointed the reference and
    called [initialize] on the fallback backend. *)
Lemma switchToFallback_accepted (w : World) :
  fst (TelemetryProvider.initialize (config w) (fallbackProvider w)) = Normal tt ->
  switchToFallback w
  = processQueuedEvents
      (set_circuitBreakerState
         {| state := closed; failureCount := 0;
            lastFailureTime := None; nextAttemptTime := None |}
         (set_effects (effects w ++ [Invoke fallback CallInitialize])
            (set_fallbackProvider
               (snd (TelemetryProvider.initialize (config w) (fallbackProvider w)))
               (set_currentProvider fallback w)))).
Proof.
  intros Haccept.
  unfold switchToFallback, tryCatch at 1, bind at 1, update at 1, bind at 1, read at 1,
    bind at 1, invoke at 1. simpl.
  destruct (TelemetryProvider.initialize (config w) (fallbackProvider w)) as [c p].
  simpl in Haccept. subst c. simpl.
  unfold bind at 1, update at 1. simpl.
  match goal with |- context [processQueuedEvents ?v] =>
    pose proof (returns_unit processQueuedEvents v returns_processQueuedEvents)
      as Hreturns;
    unfold result in Hreturns;
    destruct (processQueuedEvents v) as [c w']
  end.
  simpl in Hreturns. by subst c.
Qed.

Lemma switchToFallback_rejected (w : World) (e : JsError) :
  fst (TelemetryProvider.initialize (config w) (fallbackProvider w)) = Throw e ->
  switchToFallback w
  = (Throw (Error "Both primary and fallback providers failed to initialize"),
     set_circuitBreakerState
       {| state := open;
          failureCount := failureCount (circuitBreakerState w) + 1;
          lastFailureTime := Some (clock w);
          nextAttemptTime := Some (clock w + resetTimeoutMs (circuitBreaker (config w))) |}
       (set_effects (effects w ++ [Invoke fallback CallInitialize])
          (set_fallbackProvider
             (snd (TelemetryProvider.initialize (config w) (fallbackProvider w)))
             (set_currentProvider fallback w)))).
Proof.
  intros Hreject.
  unfold switchToFallback, tryCatch at 1, bind at 1, update at 1, bind at 1, read at 1,
    bind at 1, invoke at 1. simpl.
  destruct (TelemetryProvider.initialize (config w) (fallbackProvider w)) as [c p].
  simpl in Hreject. subst c. reflexivity.
Qed.

(** A switch that succeeds leaves the breaker closed with a count of zero. *)
Lemma switchToFallback_resets (w : World) :
  result switchToFallback w = Normal tt ->
  circuitBreakerState (after switchToFallback w)
  = {| state := closed; failureCount := 0;
       lastFailureTime := None; nextAttemptTime := None |}.
Proof.
  intros Hres.
  destruct (fst (TelemetryProvider.initialize (config w) (fallbackProvider w)))
    as [[] | e] eqn:Hinit.
  - unfold after. rewrite (switchToFallback_accepted w Hinit).
    match goal with |- context [processQueuedEvents ?v] =>
      destruct (processQueuedEvents_drains v) as (_ & _ & Hb & _)
    end.
    exact Hb.
  - unfold result in Hres. rewrite (switchToFallback_rejected w e Hinit) in Hres.
    discriminate.
Qed.

(** [initialize] on a core that is not initialised, when the backend it
    points to rejects: the rest is [switchToFallback]. *)
Lemma initialize_rejected (w : World) (e : JsError) :
  isInitialized w = false ->
  fst (TelemetryProvider.initialize (config w) (providerAt (currentProvider w) w))
    = Throw e ->
  initialize w
  = switchToFallback
      (after (invoke CallInitialize (TelemetryProvider.initialize (config w))) w).
Proof.
  intros Hinit Hreject.
  unfold initialize, bind at 1, read at 1. simpl. rewrite Hinit.
  unfold tryCatch at 1, bind at 1, read at 1, bind at 1, after, invoke. simpl.
  destruct (TelemetryProvider.initialize (config w) (providerAt (currentProvider w) w))
    as [c p].
  simpl in Hreject. by subst c.
Qed.

(** C9: when the primary backend rejects [initialize], the core points
    [currentProvider] to the fallback and calls its [initialize], and the
    health status names the fallback from then on. When the fallback
    accepts, [initialize] returns, the breaker is closed with a count of
    zero, the queue is empty, and every metric and log event it held has
    been sent to the fallback, oldest first. *)
Theorem initialize_falls_back (w : World) (e : JsError) :
  isInitialized w = false ->
  currentProvider w = primary ->
  fst (TelemetryProvider.initialize (config w) (primaryProvider w)) = Throw e ->
  let w' := after initialize w in
  currentProvider w' = fallback
  /\ In (Invoke fallback CallInitialize) (effects w')
  /\ Health.provider (getHealthStatus w') = "fallback"
  /\ (fst (TelemetryProvider.initialize (config w) (fallbackProvider w)) = Normal tt ->
      result initialize w = Normal tt
      /\ circuitBreakerState w'
         = {| state := closed; failureCount := 0;
              lastFailureTime := None; nextAttemptTime := None |}
      /\ eventQueue w' = []
      /\ effects w'
         = effects w ++ [Invoke primary CallInitialize; Invoke fallback CallInitialize]
                     ++ deliveries fallback (eventQueue w)).
Proof.
  intros Hinit Hcur Hprimary w'.
  assert (initialize w
          = switchToFallback
              (after (invoke CallInitialize (TelemetryProvider.initialize (config w))) w))
    as Hrun by (apply (initialize_rejected w e Hinit); by rewrite Hcur).
  set (w1 := after (invoke CallInitialize (TelemetryProvider.initialize (config w))) w)
    in Hrun.
  assert (config w1 = config w /\ fallbackProvider w1 = fallbackProvider w
          /\ eventQueue w1 = eventQueue w
          /\ effects w1 = effects w ++ [Invoke primary CallInitialize])
    as (Hcfg & Hfb & Hq & Heff).
  { subst w1. unfold after, invoke. rewrite Hcur. simpl.
    by destruct (TelemetryProvider.initialize (config w) (primaryProvider w)). }
  destruct (fst (TelemetryProvider.initialize (config w) (fallbackProvider w)))
    as [[] | e'] eqn:Hfallback.
  - assert (fst (TelemetryProvider.initialize (config w1) (fallbackProvider w1))
            = Normal tt) as Haccept by (by rewrite Hcfg, Hfb).
    rewrite (switchToFallback_accepted w1 Haccept) in Hrun.
    match type of Hrun with _ = processQueuedEvents ?v =>
      destruct (processQueuedEvents_drains v) as (Hres & Hc & Hb & Hempty & Hsent);
      assert (w' = after processQueuedEvents v) as ->
        by (subst w'; unfold after; by rewrite Hrun);
      assert (result initialize w = result processQueuedEvents v) as ->
        by (unfold result; by rewrite Hrun)
    end.
    simpl in Hc, Hb, Hempty, Hsent.
    assert (effects (after processQueuedEvents
                       (set_circuitBreakerState
                          {| state := closed; failureCount := 0;
                             lastFailureTime := None; nextAttemptTime := None |}
                          (set_effects (effects w1 ++ [Invoke fallback CallInitialize])
                             (set_fallbackProvider
                                (snd (TelemetryProvider.initialize (config w1)
                                        (fallbackProvider w1)))
                                (set_currentProvider fallback w1)))))
            = effects w ++ [Invoke primary CallInitialize; Invoke fallback CallInitialize]
                        ++ deliveries fallback (eventQueue w)) as Hall
      by (rewrite Hsent, Heff, Hq; by rewrite <- !app_assoc).
    repeat split; try done.
    + rewrite Hall. apply in_or_app. right. simpl. auto.
    + unfold getHealthStatus. simpl. by rewrite Hc.
  - assert (fst (TelemetryProvider.initialize (config w1) (fallbackProvider w1))
            = Throw e') as Hreject by (by rewrite Hcfg, Hfb).
    rewrite (switchToFallback_rejected w1 e' Hreject) in Hrun.
    subst w'. unfold after at 1 2 3. rewrite Hrun. simpl.
    repeat split; try done.
    apply in_or_app. right. simpl. auto.
Qed.

End FallbackProperties.

Section FallbackExamples.
#[local] Existing Instance Regex.engine.
#[local] Existing Instance Scripted.backends.
Import Scenario.

(** Two events wait in the queue; the primary backend cannot be
    initialised, the fallback can and then takes both events. *)
Lemma initialize_falls_back_witness :
  let w := queueAll [numbered 1; numbered 2]
             (core (settings 100 5 3 true) [false] [true]) in
  result initialize w = Normal tt
  /\ currentProvider (after initialize w) = fallback
  /\ eventQueue (after initialize w) = []
  /\ effects (after initialize w)
     = [Instantiate GrafanaProvider; Instantiate OpenTelemetryProvider;
        Invoke primary CallInitialize; Invoke fallback CallInitialize;
        Invoke fallback (CallRecordMetric (data (numbered 1)));
        Invoke fallback (CallRecordMetric (data (numbered 2)))]
  /\ Health.provider (getHealthStatus (after initialize w)) = "fallback".
Proof.
  intros w.
  destruct (initialize_falls_back w (Error "backend unavailable"))
    as (Hcur & _ & Hhealth & Haccepted);
    [vm_compute; reflexivity | vm_compute; reflexivity | vm_compute; reflexivity |].
  destruct Haccepted as (Hres & _ & Hqueue & Heffects); [vm_compute; reflexivity |].
  split; [exact Hres | split; [exact Hcur | split; [exact Hqueue | split]]].
  - rewrite Heffects. vm_compute. reflexivity.
  - exact Hhealth.
Defined.

(** After the switch [isInitialized] is still false, so the health status
    does not report the core as healthy. *)
Example fallback_is_not_marked_initialized :
  let w := core (settings 100 5 3 true) [false] [true] in
  isInitialized (after initialize w) = false
  /\ Health.healthy (getHealthStatus (after initialize w)) = false.
Proof. vm_compute. split; reflexivity. Qed.

End FallbackExamples.

(** ** The failure count *)

Section CountProperties.
Context `{backends : Backends}.

(** C10: in the closed state a success changes nothing, the count
    included, so failures that bring the count to the threshold open the
    breaker however many successes lie between them. Of the methods that
    write the breaker, only a success in the half-open state and a switch to
    the fallback that succeeds put the count back to zero: a failure and
    [openCircuitBreaker] raise it, the gate keeps it. *)
Theorem failures_need_not_be_consecutive (outcomes : list Outcome) (w : World) :
  state (circuitBreakerState w) = closed ->
  1 <= failures outcomes ->
  failureThreshold (circuitBreaker (config w))
    <= failureCount (circuitBreakerState w) + failures outcomes ->
  handleSuccess w = (Normal tt, w)
  /\ state (circuitBreakerState (reportAll outcomes w)) = open
  /\ (forall v : World,
        failureCount (circuitBreakerState (after handleSuccess v))
          <> failureCount (circuitBreakerState v) ->
        state (circuitBreakerState v) = half_open
        /\ failureCount (circuitBreakerState (after handleSuccess v)) = 0)
  /\ (forall v : World,
        result switchToFallback v = Normal tt ->
        failureCount (circuitBreakerState (after switchToFallback v)) = 0)
  /\ (forall v : World,
        failureCount (circuitBreakerState v)
          < failureCount (circuitBreakerState (after handleFailure v)))
  /\ (forall v : World,
        failureCount (circuitBreakerState (after openCircuitBreaker v))
        = failureCount (circuitBreakerState v) + 1)
  /\ (forall v : World,
        failureCount (circuitBreakerState (after shouldAttemptRequest v))
        = failureCount (circuitBreakerState v)).
Proof.
  intros Hs Hone Hsum.
  split; [by apply handleSuccess_closed |].
  split; [by apply reportAll_opens |].
  split; [| split; [| split; [| split]]].
  - intros v Hne. unfold after in *.
    destruct (state (circuitBreakerState v)) eqn:Hv.
    + exfalso. apply Hne. by rewrite handleSuccess_closed.
    + exfalso. apply Hne. by rewrite handleSuccess_open.
    + by rewrite handleSuccess_half_open.
  - intros v Hres. by rewrite (switchToFallback_resets v Hres).
  - intros v.
    destruct (Z.lt_ge_cases (failureCount (circuitBreakerState v) + 1)
                            (failureThreshold (circuitBreaker (config v)))) as [Hlt | Hge].
    + destruct (handleFailure_below v Hlt) as [-> _]. simpl. lia.
    + destruct (handleFailure_opens v Hge) as [-> _]. simpl. lia.
  - intros v. reflexivity.
  - intros v.
    unfold after, shouldAttemptRequest, Date_now, bind, read, update, ret. simpl.
    destruct (state (circuitBreakerState v)); simpl; try done.
    by destruct (reached _ _).
Qed.

End CountProperties.

Section CountExamples.
#[local] Existing Instance Regex.engine.
#[local] Existing Instance Scripted.backends.
Import Scenario.

Lemma failures_need_not_be_consecutive_witness :
  let w := core (settings 100 3 3 true) [] [] in
  let outcomes := [failed; delivered; delivered; failed; delivered; failed] in
  handleSuccess w = (Normal tt, w)
  /\ state (circuitBreakerState (reportAll outcomes w)) = open.
Proof.
  intros w outcomes.
  destruct (failures_need_not_be_consecutive outcomes w) as (Hsame & Hopen & _).
  - vm_compute. reflexivity.
  - vm_compute. discriminate.
  - vm_compute. discriminate.
  - split; [exact Hsame | exact Hopen].
Defined.

(** The same through the public calls. The core has switched to the
    fallback; with a threshold of three, the first, fourth and sixth of six
    metrics fail, and the breaker is open after the sixth. *)
Example interleaved_failures_open_the_breaker :
  let w0 := after initialize (core (settings 100 3 3 true) [false] [true]) in
  let w6 := foldl (fun w _ => after (recordMetric hits) w)
                  (set_fallbackProvider [false; true; true; false; true; false] w0)
                  (seq 0 6) in
  currentProvider w0 = fallback
  /\ state (circuitBreakerState w0) = closed
  /\ state (circuitBreakerState w6) = open.
Proof. vm_compute. repeat split; reflexivity. Qed.

End CountExamples.

(** ** What every call keeps

    A property of the world is kept by every public call once it is kept by
    the few places where the class writes its fields. [E] is what the
    property needs of an event that is queued or retried. *)

Section Preservation.
Context `{backends : Backends}.
Variable I : World -> Prop.
Variable E : TelemetryEvent -> Prop.

Hypothesis keeps_invoke :
  forall (A : Type) (call : ProviderCall) (method : Provider -> Completion A * Provider),
    Preserves I (invoke call method).
Hypothesis keeps_repoint : Preserves I (update (set_currentProvider fallback)).
Hypothesis keeps_reset :
  Preserves I (update (set_circuitBreakerState
                         {| state := closed; failureCount := 0;
                            lastFailureTime := None; nextAttemptTime := None |})).
Hypothesis keeps_open : Preserves I openCircuitBreaker.
Hypothesis keeps_gate : Preserves I shouldAttemptRequest.
Hypothesis keeps_success : Preserves I handleSuccess.
Hypothesis keeps_failure : Preserves I handleFailure.
Hypothesis keeps_queue : forall e, E e -> Preserves I (queueEvent e).
Hypothesis keeps_empty : Preserves I (update (set_eventQueue [])).
Hypothesis keeps_retry : forall e, E e -> Preserves I (retryEvent e).
Hypothesis keeps_flag : forall b, Preserves I (update (set_isInitialized b)).
Hypothesis keeps_count :
  Preserves I (update (fun w => set_metricsCount (metricsCount w + 1) w)).
Hypothesis keeps_clearTimeout : forall handle, Preserves I (clearTimeout handle).
Hypothesis keeps_clearMap : Preserves I (update (set_retryTimeouts ∅)).
Hypothesis keeps_deleteKey :
  forall key,
    Preserves I (update (fun w => set_retryTimeouts (delete key (retryTimeouts w)) w)).
Hypothesis keeps_clock : forall now w, I w -> I (set_clock now w).
Hypothesis queued_events : forall w, I w -> Forall E (eventQueue w).
Hypothesis armed_events : forall w t, I w -> t ∈ timers w -> E (refired t).
Hypothesis new_events :
  forall t d now, E {| type := t; data := d; timestamp := now; retryCount := None |}.

Lemma preserves_ret {A} (a : A) : Preserves I (ret a).
Proof. by intros w Hw. Qed.

Lemma preserves_throw {A} (e : JsError) : Preserves I (@throw _ _ A e).
Proof. by intros w Hw. Qed.

Lemma preserves_read {A} (f : World -> A) : Preserves I (read f).
Proof. by intros w Hw. Qed.

Lemma preserves_pure {A} (m : M A) : Pure m -> Preserves I m.
Proof. intros Hpure w Hw. by rewrite Hpure. Qed.

Lemma preserves_bind {A B} (m : M A) (k : A -> M B) :
  Preserves I m -> (forall a, Preserves I (k a)) -> Preserves I (bind m k).
Proof.
  intros Hm Hk w Hw. rewrite after_bind.
  destruct (result m w) as [a | e]; [apply Hk |]; by apply Hm.
Qed.

Lemma preserves_tryCatch {A} (body : M A) (handler : JsError -> M A) :
  Preserves I body -> (forall e, Preserves I (handler e)) ->
  Preserves I (tryCatch body handler).
Proof.
  intros Hb Hh w Hw. rewrite after_tryCatch.
  destruct (result body w) as [a | e]; [| apply Hh]; by apply Hb.
Qed.

Lemma preserves_forOf {A} (l : list A) (body : A -> M unit) :
  Forall (fun x => Preserves I (body x)) l -> Preserves I (forOf l body).
Proof.
  induction 1 as [| x l Hx _ IH]; simpl.
  - apply preserves_ret.
  - apply preserves_bind; [exact Hx | intros _; exact IH].
Qed.

Lemma preserves_if {A} (b : bool) (m1 m2 : M A) :
  Preserves I m1 -> Preserves I m2 -> Preserves I (if b then m1 else m2).
Proof. by destruct b. Qed.

#[local] Hint Resolve preserves_ret preserves_throw preserves_read preserves_bind
  preserves_tryCatch preserves_if keeps_invoke keeps_repoint keeps_reset keeps_open
  keeps_gate keeps_success keeps_failure keeps_queue keeps_empty keeps_retry
  keeps_flag keeps_count keeps_clearTimeout keeps_clearMap keeps_deleteKey
  new_events : core.

Lemma preserves_sanitizeData payload : Preserves I (sanitizeData payload).
Proof. apply preserves_pure, sanitizeData_pure. Qed.

Lemma preserves_sendEvent e : Preserves I (sendEvent e).
Proof. unfold sendEvent. destruct (type e); auto. Qed.

Lemma preserves_processQueuedEvents : Preserves I processQueuedEvents.
Proof.
  intros w Hw. unfold processQueuedEvents. rewrite after_bind. simpl.
  change (after (read eventQueue) w) with w.
  pose proof (queued_events w Hw) as Hevents.
  destruct (eventQueue w) as [| e events]; [done |].
  apply preserves_bind; [auto | | exact Hw]. intros _.
  apply preserves_forOf. eapply Forall_impl; [exact Hevents |].
  intros x Hx. simpl. pose proof (preserves_sendEvent x). auto.
Qed.

Lemma preserves_switchToFallback : Preserves I switchToFallback.
Proof.
  unfold switchToFallback. pose proof preserves_processQueuedEvents. auto 10.
Qed.

Lemma preserves_handleProviderError error e :
  E e -> Preserves I (handleProviderError error e).
Proof.
  intros He. unfold handleProviderError.
  pose proof preserves_switchToFallback. pose proof (preserves_sendEvent e).
  apply preserves_bind; [auto |]. intros current.
  apply preserves_bind; [destruct current; auto 10 |]. intros recovered. auto.
Qed.

Lemma preserves_processEvent e : E e -> Preserves I (processEvent e).
Proof.
  intros He. unfold processEvent.
  pose proof (preserves_sendEvent e).
  pose proof (fun x => preserves_handleProviderError x e He). auto 10.
Qed.

Lemma preserves_fireTimer t : E (refired t) -> Preserves I (fireTimer t).
Proof.
  intros He. unfold fireTimer, retryCallback.
  pose proof (preserves_processEvent (refired t) He). unfold refired in *. auto 10.
Qed.

Lemma preserves_initialize : Preserves I initialize.
Proof.
  unfold initialize.
  pose proof preserves_processQueuedEvents. pose proof preserves_switchToFallback.
  auto 12.
Qed.

Lemma preserves_recordMetric d : Preserves I (recordMetric d).
Proof.
  unfold recordMetric, Date_now. pose proof (preserves_sanitizeData d).
  apply preserves_bind; [done |]. intros clean.
  apply preserves_bind; [auto |]. intros now.
  apply preserves_bind; [auto |]. intros _.
  apply preserves_processEvent, new_events.
Qed.

Lemma preserves_recordLog d : Preserves I (recordLog d).
Proof.
  unfold recordLog, Date_now. pose proof (preserves_sanitizeData d).
  apply preserves_bind; [done |]. intros clean.
  apply preserves_bind; [auto |]. intros now.
  apply preserves_processEvent, new_events.
Qed.

Lemma preserves_startTrace d : Preserves I (startTrace d).
Proof.
  unfold startTrace, Date_now. pose proof (preserves_sanitizeData d).
  apply preserves_bind; [done |]. intros clean.
  apply preserves_bind; [auto |]. intros attempt.
  destruct attempt; simpl.
  - apply preserves_tryCatch; [auto 10 |]. intros error.
    apply preserves_bind; [auto |]. intros _.
    apply preserves_bind; [auto |]. intros now.
    apply preserves_bind; [| auto].
    apply preserves_handleProviderError, new_events.
  - auto 10.
Qed.

Lemma preserves_endTrace spanId attributes : Preserves I (endTrace spanId attributes).
Proof.
  unfold endTrace. pose proof (preserves_sanitizeData attributes). auto 12.
Qed.

Lemma preserves_flush : Preserves I flush.
Proof. unfold flush. pose proof preserves_processQueuedEvents. auto. Qed.

Lemma preserves_shutdown : Preserves I shutdown.
Proof.
  unfold shutdown. pose proof preserves_flush.
  apply preserves_bind; [auto |]. intros handles.
  apply preserves_bind; [| auto 10].
  apply preserves_forOf, Forall_forall. auto.
Qed.

(** Every action keeps the property. *)
Lemma perform_preserves (a : Action) (w : World) : I w -> I (perform a w).
Proof.
  intros Hw. destruct a; simpl.
  - by apply preserves_initialize.
  - by apply preserves_recordMetric.
  - by apply preserves_recordLog.
  - by apply preserves_startTrace.
  - by apply preserves_endTrace.
  - by apply preserves_flush.
  - by apply preserves_shutdown.
  - destruct (timers w !! index) as [t |] eqn:Ht; [| done].
    apply preserves_fireTimer; [| done].
    apply (armed_events w t Hw). by eapply list_elem_of_lookup_2.
  - by apply keeps_clock.
Qed.

Lemma performAll_preserves (actions : list Action) (w : World) :
  I w -> I (performAll actions w).
Proof.
  revert w. induction actions as [| a actions IH]; intros w Hw; [done |].
  simpl. apply IH. by apply perform_preserves.
Qed.

End Preservation.

(** Opens the places where the class writes its fields, case by case. *)
Ltac open_writes :=
  intros;
  unfold Preserves, after, invoke, openCircuitBreaker, shouldAttemptRequest,
    handleSuccess, handleFailure, queueEvent, retryEvent, setTimeout, clearTimeout,
    nextRetryCount, Date_now, bind, read, update, ret in *;
  intros; simpl in *;
  repeat (match goal with
          | |- context [match ?x with _ => _ end] => destruct x eqn:?
          end; simpl in *).

(** ** The configuration and the backend in use *)

Section Stability.
Context `{backends : Backends}.

(** X1: no public call, timer or clock change ever alters the
    configuration the core was built with. *)
Theorem config_is_never_changed (actions : list Action) (w : World) :
  config (performAll actions w) = config w.
Proof.
  apply (performAll_preserves (fun v => config v = config w) (fun _ => True));
    try (open_writes; done).
  intros. by apply Forall_true.
Qed.

End Stability.

Section FallbackStays.
Context `{backends : Backends}.

(** X2: once the core uses the fallback backend it never goes back: after
    any sequence of calls, timers and clock changes the current backend is
    still the fallback, the primary backend object is untouched, and every
    backend call made in between went to the fallback. *)
Theorem fallback_is_kept (actions : list Action) (w : World) :
  currentProvider w = fallback ->
  currentProvider (performAll actions w) = fallback
  /\ primaryProvider (performAll actions w) = primaryProvider w
  /\ exists calls,
       effects (performAll actions w) = effects w ++ calls
       /\ callsOnly fallback calls.
Proof.
  intros Hcur.
  apply (performAll_preserves
           (fun v => currentProvider v = fallback
                     /\ primaryProvider v = primaryProvider w
                     /\ exists calls, effects v = effects w ++ calls
                                      /\ callsOnly fallback calls)
           (fun _ => True));
    try (open_writes; intuition eauto; fail);
    try (intros; by apply Forall_true).
  - intros A call method v (Hc & Hp & calls & Heff & Hcalls).
    unfold after, invoke. rewrite Hc. destruct (method _) as [c p]. simpl.
    split; [done | split; [done |]].
    exists (calls ++ [Invoke fallback call]). rewrite Heff, app_assoc. split; [done |].
    unfold callsOnly in *. apply Forall_app_2; [done |].
    apply Forall_singleton. by exists call.
  - split; [done | split; [done |]]. exists []. rewrite app_nil_r. split; [done |].
    apply Forall_nil_2.
Qed.

(** X3: with a bound of at least one, a queue within the bound stays within
    it under every sequence of public calls, fired timers and clock changes,
    whatever the backends answer. *)
Theorem queue_stays_bounded (actions : list Action) (w : World) :
  1 <= maxQueueSize (batching (config w)) ->
  Z.of_nat (length (eventQueue w)) <= maxQueueSize (batching (config w)) ->
  Z.of_nat (length (eventQueue (performAll actions w)))
    <= maxQueueSize (batching (config w)).
Proof.
  intros Hcap Hlen.
  apply (performAll_preserves
           (fun v => config v = config w
                     /\ Z.of_nat (length (eventQueue v))
                        <= maxQueueSize (batching (config w)))
           (fun _ => True));
    try (open_writes; done);
    try (intros; by apply Forall_true).
  - intros e _ v [Hcfg Hv]. unfold after, queueEvent, update. simpl.
    split; [done |]. rewrite Hcfg, length_app. simpl.
    destruct (Z.leb_spec (maxQueueSize (batching (config w)))
                         (Z.of_nat (length (eventQueue v)))).
    + destruct (eventQueue v); simpl in *; lia.
    + lia.
  - intros v [Hcfg Hv]. unfold after, update. simpl. split; [done | lia].
Qed.

End FallbackStays.

(** ** Invariants of the breaker and of the retry timers *)

Section Invariants.
Context `{backends : Backends}.

Lemma newCore_config (cfg : TelemetryConfig) (now : Z) : config (newCore cfg now) = cfg.
Proof. unfold newCore. by destruct (initializeProviders cfg). Qed.

Lemma newCore_breaker (cfg : TelemetryConfig) (now : Z) :
  circuitBreakerState (newCore cfg now) = initializeCircuitBreaker.
Proof. unfold newCore. by destruct (initializeProviders cfg). Qed.

(** X4: the breaker stays well formed. From a well-formed breaker, every
    sequence of calls, timers and clock changes leads to one: closed means no
    recorded times and (for a threshold of at least one) a count below the
    threshold; open or half-open means at least one counted failure and a
    cool-down that ends [resetTimeoutMs] after the recorded failure. *)
Theorem breaker_stays_well_formed (actions : list Action) (w : World) :
  wellFormedBreaker (config w) (circuitBreakerState w) ->
  wellFormedBreaker (config w) (circuitBreakerState (performAll actions w)).
Proof.
  intros Hwf.
  apply (performAll_preserves
           (fun v => config v = config w
                     /\ wellFormedBreaker (config w) (circuitBreakerState v))
           (fun _ => True));
    try (open_writes; intuition eauto; fail);
    try (intros; by apply Forall_true).
  - intros v [Hcfg _]. unfold after, update, wellFormedBreaker. simpl.
    split; [done |]. split; [lia |]. repeat split; lia.
  - intros v [Hcfg (Hcount & _)]. unfold after, openCircuitBreaker, Date_now, bind,
      read, update, wellFormedBreaker. simpl. rewrite Hcfg.
    split; [done |]. split; [lia |]. split; [lia |]. by eexists.
  - intros v [Hcfg (Hcount & Hstate)].
    unfold after, shouldAttemptRequest, Date_now, bind, read, update, ret,
      wellFormedBreaker in *. simpl.
    destruct (state (circuitBreakerState v)) eqn:Hs; simpl; rewrite ?Hs; try done.
    destruct (reached _ _); simpl; rewrite ?Hs; done.
  - intros v [Hcfg (Hcount & Hstate)].
    unfold after, handleSuccess, bind, read, update, ret, wellFormedBreaker in *. simpl.
    destruct (state (circuitBreakerState v)) eqn:Hs; simpl; rewrite ?Hs; try done.
    split; [done |]. split; [lia |]. repeat split; lia.
  - intros v [Hcfg (Hcount & Hstate)].
    unfold after, handleFailure, openCircuitBreaker, Date_now, bind, read, update, ret,
      wellFormedBreaker in *. simpl. rewrite Hcfg.
    destruct (Z.leb_spec (failureThreshold (circuitBreaker (config w)))
                         (failureCount (circuitBreakerState v) + 1)); simpl.
    + split; [done |]. split; [lia |]. split; [lia |].
      eexists. split; [done | by rewrite Hcfg].
    + split; [done |]. split; [lia |].
      destruct (state (circuitBreakerState v)).
      * destruct Hstate as (-> & -> & _). repeat split; lia.
      * destruct Hstate as (_ & t & Ht). split; [lia | by exists t].
      * destruct Hstate as (_ & t & Ht). split; [lia | by exists t].
Qed.

(** X5: the retry timers stay well formed. When every queued event and
    every armed timer is well formed and no two timers share a handle, the
    same holds after every sequence of calls, timers and clock changes: each
    armed timer carries an attempt count between one and [maxAttempts], one
    more than its event carried, and a delay of [initialDelayMs] times
    [backoffMultiplier] to the power of the count less one. *)
Theorem timers_stay_well_formed (actions : list Action) (w : World) :
  Forall (wellFormedEvent (config w)) (eventQueue w) ->
  Forall (wellFormedTimer (config w) (nextTimerId w)) (timers w) ->
  NoDup (timerId <$> timers w) ->
  let w' := performAll actions w in
  Forall (wellFormedEvent (config w)) (eventQueue w')
  /\ Forall (wellFormedTimer (config w) (nextTimerId w')) (timers w')
  /\ NoDup (timerId <$> timers w').
Proof.
  intros Hq Ht Hids w'.
  assert (config w' = config w
          /\ Forall (wellFormedEvent (config w)) (eventQueue w')
          /\ Forall (wellFormedTimer (config w) (nextTimerId w')) (timers w')
          /\ NoDup (timerId <$> timers w')) as (_ & H1 & H2 & H3); [| done].
  subst w'.
  apply (performAll_preserves
           (fun v => config v = config w
                     /\ Forall (wellFormedEvent (config w)) (eventQueue v)
                     /\ Forall (wellFormedTimer (config w) (nextTimerId v)) (timers v)
                     /\ NoDup (timerId <$> timers v))
           (wellFormedEvent (config w)));
    try (open_writes; intuition eauto; fail).
  - intros e He v (Hcfg & Hqv & Htv & Hnd).
    unfold after, queueEvent, update. simpl.
    split; [done |]. split; [| done].
    apply Forall_app_2; [| by apply Forall_singleton].
    destruct (_ <=? _); [by apply Forall_tail | done].
  - intros e He v (Hcfg & Hqv & Htv & Hnd).
    unfold after, retryEvent, setTimeout, nextRetryCount, retryDelay, bind, read,
      update, ret. simpl. rewrite Hcfg.
    destruct (Z.ltb_spec (maxAttempts (retry (config w)))
                         (default 0 (retryCount e) + 1)); simpl; [done |].
    split; [done |]. split; [done |]. split.
    + apply Forall_app_2.
      * eapply Forall_impl; [exact Htv |]. intros t (? & ? & ? & ? & ?).
        unfold wellFormedTimer. repeat split; try done; lia.
      * apply Forall_singleton. unfold wellFormedTimer. simpl.
        assert (1 <= default 0 (retryCount e) + 1)
          by (unfold wellFormedEvent in He; destruct (retryCount e); simpl; lia).
        repeat split; try done; lia.
    + rewrite fmap_app. simpl. apply NoDup_app. split; [done |]. split.
      * intros id Hid Hnew. apply list_elem_of_singleton in Hnew. subst id.
        apply list_elem_of_fmap in Hid as (t & Heq & Hin).
        rewrite Forall_forall in Htv. destruct (Htv t Hin) as (_ & _ & _ & _ & Hlt).
        lia.
      * apply NoDup_singleton.
  - intros handle v (Hcfg & Hqv & Htv & Hnd).
    unfold after, clearTimeout, update. simpl.
    split; [done |]. split; [done |]. split.
    + rewrite Forall_forall in *. intros t Hin.
      apply list_elem_of_filter in Hin as [_ Hin]. by apply Htv.
    + apply (sublist_NoDup (timerId <$> filter (fun t => timerId t <> handle) (timers v))
                           (timerId <$> timers v)); [exact Hnd |].
      apply fmap_sublist, sublist_filter.
  - intros v t (Hcfg & Hqv & Htv & Hnd) Hin.
    rewrite Forall_forall in Htv. destruct (Htv t Hin) as (_ & _ & Hrange & _).
    by unfold wellFormedEvent, refired.
  - intros t d now. by unfold wellFormedEvent.
Qed.

End Invariants.

Section InvariantExamples.
#[local] Existing Instance Regex.engine.
#[local] Existing Instance Scripted.backends.
Import Scenario.

Lemma fallback_is_kept_witness :
  currentProvider fallenBack = fallback
  /\ currentProvider (performAll session fallenBack) = fallback
  /\ primaryProvider (performAll session fallenBack) = primaryProvider fallenBack
  /\ exists calls,
       effects (performAll session fallenBack) = effects fallenBack ++ calls
       /\ callsOnly fallback calls.
Proof.
  assert (currentProvider fallenBack = fallback) as Hcur by (vm_compute; reflexivity).
  exact (conj Hcur (fallback_is_kept session fallenBack Hcur)).
Defined.

Lemma queue_stays_bounded_witness :
  Z.of_nat (length (eventQueue (performAll session fallenBack)))
    <= maxQueueSize (batching (config fallenBack)).
Proof.
  apply (queue_stays_bounded session fallenBack); vm_compute; discriminate.
Defined.

Lemma breaker_stays_well_formed_witness :
  wellFormedBreaker (config fallenBack)
    (circuitBreakerState (performAll session fallenBack)).
Proof.
  apply (breaker_stays_well_formed session fallenBack).
  unfold wellFormedBreaker.
  assert (circuitBreakerState fallenBack = initializeCircuitBreaker) as ->
    by (vm_compute; reflexivity).
  assert (failureThreshold (circuitBreaker (config fallenBack)) = 3) as ->
    by (vm_compute; reflexivity).
  simpl. repeat split; lia.
Defined.

Lemma timers_stay_well_formed_witness :
  let w' := performAll session fallenBack in
  Forall (wellFormedEvent (config fallenBack)) (eventQueue w')
  /\ Forall (wellFormedTimer (config fallenBack) (nextTimerId w')) (timers w')
  /\ NoDup (timerId <$> timers w').
Proof.
  apply (timers_stay_well_formed session fallenBack).
  - assert (eventQueue fallenBack = []) as -> by (vm_compute; reflexivity).
    apply Forall_nil_2.
  - assert (timers fallenBack = []) as -> by (vm_compute; reflexivity).
    apply Forall_nil_2.
  - assert (timers fallenBack = []) as -> by (vm_compute; reflexivity).
    apply NoDup_nil_2.
Defined.

(** What the session leaves: the sanitiser refused the log with the BigInt,
    the retry of the first metric went through, the breaker opened on the
    third failure, the last metric waits in the queue and the retry of the
    span is still armed. *)
Example session_outcome :
  let w' := performAll session fallenBack in
  state (circuitBreakerState w') = open
  /\ (fun e => (type e, timestamp e)) <$> eventQueue w' = [(metric, 70000)]
  /\ (fun t => (timerId t, type (event t), attempt t, delay t)) <$> timers w'
     = [(1%nat, trace, 1, 1000)].
Proof. vm_compute. repeat split; reflexivity. Qed.

End InvariantExamples.

(** ** One event through [processEvent] *)

Section EventPaths.
Context `{backends : Backends}.

Lemma onlyBreaker_refl (w : World) : onlyBreaker w w.
Proof. by repeat split. Qed.

Lemma gate_onlyBreaker (w : World) : onlyBreaker w (after shouldAttemptRequest w).
Proof.
  unfold after, shouldAttemptRequest, Date_now, bind, read, update, ret. simpl.
  destruct (state (circuitBreakerState w)); simpl; try apply onlyBreaker_refl.
  destruct (reached _ _); simpl; by repeat split.
Qed.

Lemma handleSuccess_onlyBreaker (w : World) : onlyBreaker w (after handleSuccess w).
Proof.
  unfold after, handleSuccess, bind, read, update, ret. simpl.
  destruct (state (circuitBreakerState w)); simpl; by repeat split.
Qed.

Lemma handleFailure_onlyBreaker (w : World) : onlyBreaker w (after handleFailure w).
Proof.
  unfold after, handleFailure, openCircuitBreaker, Date_now, bind, read, update, ret.
  simpl. destruct (_ <=? _); simpl; by repeat split.
Qed.

(** What [handleFailure] makes of the breaker depends on the breaker, the
    configuration and the clock only. *)
Lemma handleFailure_breaker (w v : World) :
  config w = config v -> circuitBreakerState w = circuitBreakerState v ->
  clock w = clock v ->
  circuitBreakerState (after handleFailure w)
  = circuitBreakerState (after handleFailure v).
Proof.
  intros Hc Hb Ht.
  unfold after, handleFailure, openCircuitBreaker, Date_now, bind, read, update, ret.
  simpl. rewrite Hc, Hb. destruct (_ <=? _); simpl; by rewrite ?Hc, ?Hb, ?Ht.
Qed.

(** A gate that lets the request through leaves the breaker closed or
    half-open, with the count it had. *)
Lemma gate_passes (w : World) :
  result shouldAttemptRequest w = Normal true ->
  state (circuitBreakerState (after shouldAttemptRequest w))
  = match state (circuitBreakerState w) with closed => closed | _ => half_open end
  /\ failureCount (circuitBreakerState (after shouldAttemptRequest w))
     = failureCount (circuitBreakerState w).
Proof.
  unfold result, after, shouldAttemptRequest, Date_now, bind, read, update, ret. simpl.
  destruct (state (circuitBreakerState w)) eqn:Hs; simpl; rewrite ?Hs; try done.
  destruct (reached _ _); simpl; rewrite ?Hs; done.
Qed.

Lemma sendEvent_onlyBackends (e : TelemetryEvent) (w : World) :
  onlyBackends w (after (sendEvent e) w)
  /\ effects (after (sendEvent e) w) = effects w ++ delivery (currentProvider w) e.
Proof.
  unfold after, sendEvent, delivery, invoke, ret.
  destruct (type e); simpl.
  - destruct (TelemetryProvider.recordMetric _ _) as [c p].
    destruct (currentProvider w) eqn:Hcur; simpl; rewrite ?Hcur; by repeat split.
  - rewrite app_nil_r. by repeat split.
  - destruct (TelemetryProvider.recordLog _ _) as [c p].
    destruct (currentProvider w) eqn:Hcur; simpl; rewrite ?Hcur; by repeat split.
Qed.

(** A send on the primary backend leaves the fallback object alone. *)
Lemma sendEvent_other_backend (e : TelemetryEvent) (w : World) :
  currentProvider w = primary ->
  fallbackProvider (after (sendEvent e) w) = fallbackProvider w.
Proof.
  intros Hcur. unfold after, sendEvent, invoke, ret.
  destruct (type e); simpl; try done; rewrite Hcur.
  - by destruct (TelemetryProvider.recordMetric _ _).
  - by destruct (TelemetryProvider.recordLog _ _).
Qed.

Lemma after_retryEvent (e : TelemetryEvent) (w : World) :
  let w' := after (retryEvent e) w in
  timers w' = timersAfterRetry e w
  /\ config w' = config w /\ currentProvider w' = currentProvider w
  /\ circuitBreakerState w' = circuitBreakerState w
  /\ eventQueue w' = eventQueue w /\ effects w' = effects w
  /\ isInitialized w' = isInitialized w.
Proof.
  unfold after, retryEvent, timersAfterRetry, retryTimer, setTimeout, bind, read,
    update, ret. simpl.
  destruct (_ <? _); simpl; by repeat split.
Qed.

Lemma processEvent_attempt (e : TelemetryEvent) (w : World) :
  result shouldAttemptRequest w = Normal true ->
  processEvent e w
  = tryCatch (sendEvent e ;; handleSuccess)
             (fun error => handleFailure ;; handleProviderError error e)
             (after shouldAttemptRequest w).
Proof.
  intros Hgate. unfold processEvent. unfold bind at 1. unfold result, after in *.
  destruct (shouldAttemptRequest w) as [c w']. simpl in *. by subst c.
Qed.

(** X6: when the gate lets the request through and the backend accepts the
    event, [processEvent] makes exactly the backend call of the event on the
    current backend, touches neither the queue nor the timers, and leaves
    the breaker closed: as it was when it was closed, reset to a count of
    zero when this was the probe of an open or half-open breaker. *)
Theorem processEvent_delivers (e : TelemetryEvent) (w : World) :
  result shouldAttemptRequest w = Normal true ->
  result (sendEvent e) (after shouldAttemptRequest w) = Normal tt ->
  let w' := after (processEvent e) w in
  result (processEvent e) w = Normal tt
  /\ effects w' = effects w ++ delivery (currentProvider w) e
  /\ currentProvider w' = currentProvider w
  /\ eventQueue w' = eventQueue w
  /\ timers w' = timers w
  /\ circuitBreakerState w'
     = match state (circuitBreakerState w) with
       | closed => circuitBreakerState w
       | open | half_open => initializeCircuitBreaker
       end.
Proof.
  intros Hgate Hsend w'.
  assert (w' = after handleSuccess (after (sendEvent e) (after shouldAttemptRequest w)))
    as ->.
  { subst w'. unfold after at 1. rewrite (processEvent_attempt e w Hgate).
    fold (after (tryCatch (sendEvent e;; handleSuccess)
                   (fun error => handleFailure;; handleProviderError error e))
                (after shouldAttemptRequest w)).
    rewrite after_tryCatch, result_bind, Hsend.
    rewrite (returns_unit handleSuccess) by auto with returns.
    by rewrite after_bind, Hsend. }
  split; [apply returns_unit; auto with returns |].
  destruct (gate_onlyBreaker w) as (Hg1 & Hg2 & Hg3 & Hg4 & Hg5 & Hg6 & Hg7 & Hg8 & Hg9 & Hg10 & Hg11).
  destruct (sendEvent_onlyBackends e (after shouldAttemptRequest w))
    as ((Hs1 & Hs2 & Hs3 & Hs4 & Hs5 & Hs6 & Hs7 & Hs8 & Hs9) & Hs10).
  destruct (handleSuccess_onlyBreaker (after (sendEvent e) (after shouldAttemptRequest w)))
    as (Hh1 & Hh2 & Hh3 & Hh4 & Hh5 & Hh6 & Hh7 & Hh8 & Hh9 & Hh10 & Hh11).
  split; [by rewrite Hh11, Hs10, Hg11, Hg4 |].
  split; [by rewrite Hh4, Hs2, Hg4 |].
  split; [by rewrite Hh5, Hs4, Hg5 |].
  split; [by rewrite Hh8, Hs7, Hg8 |].
  destruct (gate_passes w Hgate) as [Hstate Hcount].
  unfold after at 1.
  destruct (state (circuitBreakerState w)) eqn:Hw.
  - rewrite handleSuccess_closed by (by rewrite Hs3). simpl. rewrite Hs3.
    unfold after, shouldAttemptRequest, Date_now, bind, read, update, ret. simpl.
    by rewrite Hw.
  - rewrite handleSuccess_half_open by (by rewrite Hs3). done.
  - rewrite handleSuccess_half_open by (by rewrite Hs3). done.
Qed.

Lemma processEvent_failure (e : TelemetryEvent) (w : World) (err : JsError) :
  result shouldAttemptRequest w = Normal true ->
  result (sendEvent e) (after shouldAttemptRequest w) = Throw err ->
  processEvent e w
  = handleProviderError err e
      (after handleFailure (after (sendEvent e) (after shouldAttemptRequest w))).
Proof.
  intros Hgate Hsend. rewrite (processEvent_attempt e w Hgate).
  unfold tryCatch at 1, bind at 1. unfold result, after in *.
  destruct (sendEvent e (shouldAttemptRequest w).2) as [c w1]. simpl in *. subst c.
  unfold bind at 1.
  pose proof (returns_unit handleFailure w1 returns_handleFailure) as Hreturns.
  unfold result in Hreturns. destruct (handleFailure w1) as [c w2].
  simpl in *. by subst c.
Qed.

(** X7: on the fallback backend a send that fails is counted by the breaker
    and handed to the retry scheduler: there is the one backend call, no
    switch, the queue is untouched, and a retry timer is armed unless the
    event has used up its attempts, in which case the event is gone. *)
Theorem processEvent_fails_on_fallback (e : TelemetryEvent) (w : World) (err : JsError) :
  currentProvider w = fallback ->
  result shouldAttemptRequest w = Normal true ->
  result (sendEvent e) (after shouldAttemptRequest w) = Throw err ->
  let w' := after (processEvent e) w in
  result (processEvent e) w = Normal tt
  /\ currentProvider w' = fallback
  /\ effects w' = effects w ++ delivery fallback e
  /\ eventQueue w' = eventQueue w
  /\ timers w' = timersAfterRetry e w
  /\ circuitBreakerState w'
     = circuitBreakerState (after handleFailure (after shouldAttemptRequest w)).
Proof.
  intros Hcur Hgate Hsend w'.
  split; [apply returns_unit; auto with returns |].
  set (w1 := after (sendEvent e) (after shouldAttemptRequest w)).
  set (w2 := after handleFailure w1).
  destruct (gate_onlyBreaker w)
    as (Hg1 & Hg2 & Hg3 & Hg4 & Hg5 & Hg6 & Hg7 & Hg8 & Hg9 & Hg10 & Hg11).
  destruct (sendEvent_onlyBackends e (after shouldAttemptRequest w))
    as ((Hs1 & Hs2 & Hs3 & Hs4 & Hs5 & Hs6 & Hs7 & Hs8 & Hs9) & Hs10).
  destruct (handleFailure_onlyBreaker w1)
    as (Hf1 & Hf2 & Hf3 & Hf4 & Hf5 & Hf6 & Hf7 & Hf8 & Hf9 & Hf10 & Hf11).
  fold w1 in Hs1, Hs2, Hs3, Hs4, Hs5, Hs6, Hs7, Hs8, Hs9, Hs10.
  fold w2 in Hf1, Hf2, Hf3, Hf4, Hf5, Hf6, Hf7, Hf8, Hf9, Hf10, Hf11.
  assert (currentProvider w2 = fallback) as Hcur2 by (by rewrite Hf4, Hs2, Hg4).
  assert (w' = after (retryEvent e) w2) as ->.
  { subst w'. unfold after at 1. rewrite (processEvent_failure e w err Hgate Hsend).
    fold w1 w2. unfold handleProviderError, bind at 1, read at 1. simpl.
    rewrite Hcur2. unfold bind at 1, ret at 1. reflexivity. }
  destruct (after_retryEvent e w2) as (Ht & Hc & Hp & Hb & Hq & He & _).
  split; [by rewrite Hp |].
  split; [by rewrite He, Hf11, Hs10, Hg11, Hg4, Hcur |].
  split; [by rewrite Hq, Hf5, Hs4, Hg5 |].
  split.
  - rewrite Ht. unfold timersAfterRetry, retryTimer.
    by rewrite Hf1, Hs1, Hg1, Hf8, Hs7, Hg8, Hf9, Hs8, Hg9.
  - rewrite Hb. subst w2. by apply handleFailure_breaker.
Qed.

(** X8: on the primary backend a send that fails makes the core switch:
    when the fallback accepts [initialize], the current backend is the
    fallback, the breaker is closed with a count of zero whatever it had
    counted, the queue has been drained to the fallback, and the event was
    sent once more, to the fallback, after the queued ones. When that last
    send fails as well, the event goes to the retry scheduler and the breaker
    does not count it. *)
Theorem processEvent_switches_to_fallback (e : TelemetryEvent) (w : World)
    (err : JsError) :
  currentProvider w = primary ->
  result shouldAttemptRequest w = Normal true ->
  result (sendEvent e) (after shouldAttemptRequest w) = Throw err ->
  fst (TelemetryProvider.initialize (config w) (fallbackProvider w)) = Normal tt ->
  let w' := after (processEvent e) w in
  result (processEvent e) w = Normal tt
  /\ currentProvider w' = fallback
  /\ circuitBreakerState w' = initializeCircuitBreaker
  /\ eventQueue w' = []
  /\ effects w'
     = effects w ++ delivery primary e ++ [Invoke fallback CallInitialize]
                 ++ deliveries fallback (eventQueue w) ++ delivery fallback e.
Proof.
  intros Hcur Hgate Hsend Haccept w'.
  split; [apply returns_unit; auto with returns |].
  set (w1 := after (sendEvent e) (after shouldAttemptRequest w)).
  set (w2 := after handleFailure w1).
  destruct (gate_onlyBreaker w)
    as (Hg1 & Hg2 & Hg3 & Hg4 & Hg5 & Hg6 & Hg7 & Hg8 & Hg9 & Hg10 & Hg11).
  destruct (sendEvent_onlyBackends e (after shouldAttemptRequest w))
    as ((Hs1 & Hs2 & Hs3 & Hs4 & Hs5 & Hs6 & Hs7 & Hs8 & Hs9) & Hs10).
  pose proof (sendEvent_other_backend e (after shouldAttemptRequest w)
                ltac:(by rewrite Hg4)) as Hs11.
  destruct (handleFailure_onlyBreaker w1)
    as (Hf1 & Hf2 & Hf3 & Hf4 & Hf5 & Hf6 & Hf7 & Hf8 & Hf9 & Hf10 & Hf11).
  fold w1 in Hs1, Hs2, Hs3, Hs4, Hs5, Hs6, Hs7, Hs8, Hs9, Hs10, Hs11.
  fold w2 in Hf1, Hf2, Hf3, Hf4, Hf5, Hf6, Hf7, Hf8, Hf9, Hf10, Hf11.
  assert (currentProvider w2 = primary) as Hcur2 by (by rewrite Hf4, Hs2, Hg4).
  assert (fst (TelemetryProvider.initialize (config w2) (fallbackProvider w2))
          = Normal tt) as Haccept2 by (by rewrite Hf1, Hs1, Hg1, Hf3, Hs11, Hg3).
  set (w3 := set_circuitBreakerState
               {| state := closed; failureCount := 0;
                  lastFailureTime := None; nextAttemptTime := None |}
               (set_effects (effects w2 ++ [Invoke fallback CallInitialize])
                  (set_fallbackProvider
                     (snd (TelemetryProvider.initialize (config w2) (fallbackProvider w2)))
                     (set_currentProvider fallback w2)))).
  set (w4 := after processQueuedEvents w3).
  destruct (processQueuedEvents_drains w3) as (Hd0 & Hd1 & Hd2 & Hd3 & Hd4).
  fold w4 in Hd1, Hd2, Hd3, Hd4. simpl in Hd1, Hd2, Hd4.
  set (w5 := after (sendEvent e) w4).
  destruct (sendEvent_onlyBackends e w4)
    as ((Hr1 & Hr2 & Hr3 & Hr4 & Hr5 & Hr6 & Hr7 & Hr8 & Hr9) & Hr10).
  fold w5 in Hr1, Hr2, Hr3, Hr4, Hr5, Hr6, Hr7, Hr8, Hr9, Hr10.
  assert (w' = w5 \/ w' = after (retryEvent e) w5) as Hend.
  { assert (processEvent e w
            = (recovered <- tryCatch (sendEvent e ;; ret true) (fun _ => ret false) ;;
               if recovered : bool then ret tt else retryEvent e) w4) as Hrun.
    { rewrite (processEvent_failure e w err Hgate Hsend). fold w1 w2.
      unfold handleProviderError, bind at 1, read at 1. simpl. rewrite Hcur2.
      unfold bind at 1, tryCatch at 1, bind at 1.
      rewrite (switchToFallback_accepted w2 Haccept2). fold w3.
      unfold w4, after, result in *.
      destruct (processQueuedEvents w3) as [c v4]. simpl in *. by subst c. }
    assert (w' = match result (sendEvent e) w4 with
                 | Normal _ => w5
                 | Throw _ => after (retryEvent e) w5
                 end) as ->.
    { subst w' w5. unfold after at 1. rewrite Hrun.
      unfold bind at 1, tryCatch at 1, bind at 1, result, after.
      by destruct (sendEvent e w4) as [[[] | err2] v5]. }
    destruct (result (sendEvent e) w4); [by left | by right]. }
  assert (effects w5
          = effects w ++ delivery primary e ++ [Invoke fallback CallInitialize]
                      ++ deliveries fallback (eventQueue w) ++ delivery fallback e)
    as Heffects.
  { rewrite Hr10, Hd4, Hd1. subst w3. simpl.
    rewrite Hf11, Hs10, Hg11, Hg4, Hcur, Hf5, Hs4, Hg5.
    by rewrite <- !app_assoc. }
  destruct Hend as [-> | ->].
  - split; [by rewrite Hr2, Hd1 |]. split; [by rewrite Hr3, Hd2 |].
    split; [by rewrite Hr4, Hd3 | exact Heffects].
  - destruct (after_retryEvent e w5) as (_ & _ & Hp & Hb & Hq & He & _).
    split; [by rewrite Hp, Hr2, Hd1 |]. split; [by rewrite Hb, Hr3, Hd2 |].
    split; [by rewrite Hq, Hr4, Hd3 | by rewrite He].
Qed.

(** X9: on the primary backend a send that fails while the fallback rejects
    [initialize]: the core still points to the fallback afterwards, the
    breaker is open with a cool-down of [resetTimeoutMs] from now, the queue
    has not been drained, the event is with the retry scheduler, and the
    caller sees nothing of it. *)
Theorem processEvent_without_fallback (e : TelemetryEvent) (w : World)
    (err err' : JsError) :
  currentProvider w = primary ->
  result shouldAttemptRequest w = Normal true ->
  result (sendEvent e) (after shouldAttemptRequest w) = Throw err ->
  fst (TelemetryProvider.initialize (config w) (fallbackProvider w)) = Throw err' ->
  let w' := after (processEvent e) w in
  result (processEvent e) w = Normal tt
  /\ currentProvider w' = fallback
  /\ state (circuitBreakerState w') = open
  /\ nextAttemptTime (circuitBreakerState w')
     = Some (clock w + resetTimeoutMs (circuitBreaker (config w)))
  /\ eventQueue w' = eventQueue w
  /\ timers w' = timersAfterRetry e w
  /\ effects w' = effects w ++ delivery primary e ++ [Invoke fallback CallInitialize].
Proof.
  intros Hcur Hgate Hsend Hreject w'.
  split; [apply returns_unit; auto with returns |].
  set (w1 := after (sendEvent e) (after shouldAttemptRequest w)).
  set (w2 := after handleFailure w1).
  destruct (gate_onlyBreaker w)
    as (Hg1 & Hg2 & Hg3 & Hg4 & Hg5 & Hg6 & Hg7 & Hg8 & Hg9 & Hg10 & Hg11).
  destruct (sendEvent_onlyBackends e (after shouldAttemptRequest w))
    as ((Hs1 & Hs2 & Hs3 & Hs4 & Hs5 & Hs6 & Hs7 & Hs8 & Hs9) & Hs10).
  pose proof (sendEvent_other_backend e (after shouldAttemptRequest w)
                ltac:(by rewrite Hg4)) as Hs11.
  destruct (handleFailure_onlyBreaker w1)
    as (Hf1 & Hf2 & Hf3 & Hf4 & Hf5 & Hf6 & Hf7 & Hf8 & Hf9 & Hf10 & Hf11).
  fold w1 in Hs1, Hs2, Hs3, Hs4, Hs5, Hs6, Hs7, Hs8, Hs9, Hs10, Hs11.
  fold w2 in Hf1, Hf2, Hf3, Hf4, Hf5, Hf6, Hf7, Hf8, Hf9, Hf10, Hf11.
  assert (currentProvider w2 = primary) as Hcur2 by (by rewrite Hf4, Hs2, Hg4).
  assert (fst (TelemetryProvider.initialize (config w2) (fallbackProvider w2))
          = Throw err') as Hreject2 by (by rewrite Hf1, Hs1, Hg1, Hf3, Hs11, Hg3).
  set (w3 := set_circuitBreakerState
               {| state := open;
                  failureCount := failureCount (circuitBreakerState w2) + 1;
                  lastFailureTime := Some (clock w2);
                  nextAttemptTime :=
                    Some (clock w2 + resetTimeoutMs (circuitBreaker (config w2))) |}
               (set_effects (effects w2 ++ [Invoke fallback CallInitialize])
                  (set_fallbackProvider
                     (snd (TelemetryProvider.initialize (config w2) (fallbackProvider w2)))
                     (set_currentProvider fallback w2)))).
  assert (w' = after (retryEvent e) w3) as ->.
  { subst w'. unfold after at 1. rewrite (processEvent_failure e w err Hgate Hsend).
    fold w1 w2. unfold handleProviderError, bind at 1, read at 1. simpl.
    rewrite Hcur2. unfold bind at 1, tryCatch at 1, bind at 1.
    rewrite (switchToFallback_rejected w2 err' Hreject2). fold w3. reflexivity. }
  destruct (after_retryEvent e w3) as (Ht & Hc & Hp & Hb & Hq & He & _).
  split; [by rewrite Hp |]. split; [by rewrite Hb |].
  split; [rewrite Hb; simpl; by rewrite Hf10, Hs9, Hg10, Hf1, Hs1, Hg1 |].
  split; [rewrite Hq; simpl; by rewrite Hf5, Hs4, Hg5 |].
  split.
  - rewrite Ht. unfold timersAfterRetry, retryTimer. simpl.
    by rewrite Hf1, Hs1, Hg1, Hf8, Hs7, Hg8, Hf9, Hs8, Hg9.
  - rewrite He. simpl. rewrite Hf11, Hs10, Hg11, Hg4, Hcur. by rewrite <- !app_assoc.
Qed.

(** X10: a trace event never reaches a backend through [processEvent]: its
    branch in [sendEvent] is empty. When the gate lets it through, nothing
    is called, and the breaker takes it for a delivery: the retry of a span
    that failed closes a half-open breaker and clears its count. *)
Theorem retried_trace_reaches_no_backend (e : TelemetryEvent) (w : World) :
  type e = trace ->
  result shouldAttemptRequest w = Normal true ->
  let w' := after (processEvent e) w in
  result (processEvent e) w = Normal tt
  /\ effects w' = effects w
  /\ primaryProvider w' = primaryProvider w
  /\ fallbackProvider w' = fallbackProvider w
  /\ state (circuitBreakerState w') = closed
  /\ (state (circuitBreakerState w) <> closed ->
      failureCount (circuitBreakerState w') = 0).
Proof.
  intros Htype Hgate w'.
  split; [apply returns_unit; auto with returns |].
  assert (w' = after handleSuccess (after shouldAttemptRequest w)) as ->.
  { subst w'. unfold after at 1. rewrite (processEvent_attempt e w Hgate).
    unfold tryCatch, bind, sendEvent. rewrite Htype. unfold ret at 1. simpl.
    pose proof (returns_unit handleSuccess (after shouldAttemptRequest w)
                  returns_handleSuccess) as Hreturns.
    unfold result, after in *.
    destruct (handleSuccess (shouldAttemptRequest w).2) as [c v].
    simpl in *. by subst c. }
  destruct (gate_onlyBreaker w) as (_ & Hg2 & Hg3 & _ & _ & _ & _ & _ & _ & _ & Hg11).
  destruct (handleSuccess_onlyBreaker (after shouldAttemptRequest w))
    as (_ & Hh2 & Hh3 & _ & _ & _ & _ & _ & _ & _ & Hh11).
  split; [by rewrite Hh11, Hg11 |].
  split; [by rewrite Hh2, Hg2 |].
  split; [by rewrite Hh3, Hg3 |].
  destruct (gate_passes w Hgate) as [Hstate Hcount].
  unfold after at 1 3.
  destruct (state (circuitBreakerState w)) eqn:Hw.
  - rewrite handleSuccess_closed by done. simpl. split; [done | congruence].
  - rewrite handleSuccess_half_open by done. by split.
  - rewrite handleSuccess_half_open by done. by split.
Qed.

End EventPaths.

Section EventPathExamples.
#[local] Existing Instance Regex.engine.
#[local] Existing Instance Scripted.backends.
Import Scenario.

Lemma processEvent_delivers_witness :
  let w := core (settings 100 5 3 true) [true] [] in
  let w' := after (processEvent (numbered 1)) w in
  result (processEvent (numbered 1)) w = Normal tt
  /\ effects w' = effects w ++ delivery (currentProvider w) (numbered 1)
  /\ currentProvider w' = currentProvider w
  /\ eventQueue w' = eventQueue w
  /\ timers w' = timers w
  /\ circuitBreakerState w'
     = match state (circuitBreakerState w) with
       | closed => circuitBreakerState w
       | open | half_open => initializeCircuitBreaker
       end.
Proof.
  intros w.
  assert (result shouldAttemptRequest w = Normal true) as Hgate
    by (vm_compute; reflexivity).
  assert (result (sendEvent (numbered 1)) (after shouldAttemptRequest w) = Normal tt)
    as Hsend by (vm_compute; reflexivity).
  exact (processEvent_delivers (numbered 1) w Hgate Hsend).
Defined.

Lemma processEvent_fails_on_fallback_witness :
  let w := fallenBack in
  let w' := after (processEvent (numbered 1)) w in
  result (processEvent (numbered 1)) w = Normal tt
  /\ currentProvider w' = fallback
  /\ effects w' = effects w ++ delivery fallback (numbered 1)
  /\ eventQueue w' = eventQueue w
  /\ timers w' = timersAfterRetry (numbered 1) w
  /\ circuitBreakerState w'
     = circuitBreakerState (after handleFailure (after shouldAttemptRequest w)).
Proof.
  intros w.
  assert (currentProvider w = fallback) as Hcur by (vm_compute; reflexivity).
  assert (result shouldAttemptRequest w = Normal true) as Hgate
    by (vm_compute; reflexivity).
  assert (result (sendEvent (numbered 1)) (after shouldAttemptRequest w)
          = Throw (Error "backend unavailable")) as Hsend by (vm_compute; reflexivity).
  exact (processEvent_fails_on_fallback (numbered 1) w _ Hcur Hgate Hsend).
Defined.

Lemma processEvent_switches_to_fallback_witness :
  let w := queueAll [numbered 1; numbered 2]
             (core (settings 100 5 3 true) [false] [true; true; false]) in
  let w' := after (processEvent (numbered 3)) w in
  result (processEvent (numbered 3)) w = Normal tt
  /\ currentProvider w' = fallback
  /\ circuitBreakerState w' = initializeCircuitBreaker
  /\ eventQueue w' = []
  /\ effects w'
     = effects w ++ delivery primary (numbered 3) ++ [Invoke fallback CallInitialize]
                 ++ deliveries fallback (eventQueue w) ++ delivery fallback (numbered 3).
Proof.
  intros w.
  assert (currentProvider w = primary) as Hcur by (vm_compute; reflexivity).
  assert (result shouldAttemptRequest w = Normal true) as Hgate
    by (vm_compute; reflexivity).
  assert (result (sendEvent (numbered 3)) (after shouldAttemptRequest w)
          = Throw (Error "backend unavailable")) as Hsend by (vm_compute; reflexivity).
  assert (fst (TelemetryProvider.initialize (config w) (fallbackProvider w)) = Normal tt)
    as Haccept by (vm_compute; reflexivity).
  exact (processEvent_switches_to_fallback (numbered 3) w _ Hcur Hgate Hsend Haccept).
Defined.

Lemma processEvent_without_fallback_witness :
  let w := core (settings 100 5 3 true) [false] [false] in
  let w' := after (processEvent (numbered 3)) w in
  result (processEvent (numbered 3)) w = Normal tt
  /\ currentProvider w' = fallback
  /\ state (circuitBreakerState w') = open
  /\ nextAttemptTime (circuitBreakerState w')
     = Some (clock w + resetTimeoutMs (circuitBreaker (config w)))
  /\ eventQueue w' = eventQueue w
  /\ timers w' = timersAfterRetry (numbered 3) w
  /\ effects w'
     = effects w ++ delivery primary (numbered 3) ++ [Invoke fallback CallInitialize].
Proof.
  intros w.
  assert (currentProvider w = primary) as Hcur by (vm_compute; reflexivity).
  assert (result shouldAttemptRequest w = Normal true) as Hgate
    by (vm_compute; reflexivity).
  assert (result (sendEvent (numbered 3)) (after shouldAttemptRequest w)
          = Throw (Error "backend unavailable")) as Hsend by (vm_compute; reflexivity).
  assert (fst (TelemetryProvider.initialize (config w) (fallbackProvider w))
          = Throw (Error "backend unavailable")) as Hreject by (vm_compute; reflexivity).
  exact (processEvent_without_fallback (numbered 3) w _ _ Hcur Hgate Hsend Hreject).
Defined.

(** The retry of a span on the half-open breaker of [probing]: no backend
    is called and the breaker closes. *)
Lemma retried_trace_reaches_no_backend_witness :
  let w' := after (processEvent retriedSpan) probing in
  result (processEvent retriedSpan) probing = Normal tt
  /\ effects w' = effects probing
  /\ primaryProvider w' = primaryProvider probing
  /\ fallbackProvider w' = fallbackProvider probing
  /\ state (circuitBreakerState w') = closed
  /\ (state (circuitBreakerState probing) <> closed ->
      failureCount (circuitBreakerState w') = 0).
Proof.
  assert (type retriedSpan = trace) as Htype by reflexivity.
  assert (result shouldAttemptRequest probing = Normal true) as Hgate
    by (vm_compute; reflexivity).
  exact (retried_trace_reaches_no_backend retriedSpan probing Htype Hgate).
Defined.

End EventPathExamples.

(** ** Flush, shutdown and initialisation *)

Section Lifecycle.
Context `{backends : Backends}.

(** X11: [flush] empties the queue whatever the backends answer, sending
    what it held to the current backend, oldest first, before the one
    [flush] call; it throws exactly when that call is rejected, and neither
    the breaker nor the choice of backend takes notice of a failure. *)
Theorem flush_drains_then_flushes (w : World) :
  let w' := after flush w in
  result flush w
    = fst (TelemetryProvider.flush
             (providerAt (currentProvider w) (after processQueuedEvents w)))
  /\ eventQueue w' = []
  /\ effects w'
     = effects w ++ deliveries (currentProvider w) (eventQueue w)
                 ++ [Invoke (currentProvider w) CallFlush]
  /\ circuitBreakerState w' = circuitBreakerState w
  /\ currentProvider w' = currentProvider w.
Proof.
  destruct (processQueuedEvents_drains w) as (Hres & Hcur & Hb & Hq & Heff).
  cbv zeta. unfold flush.
  rewrite result_bind, after_bind, Hres, result_invoke, Hcur.
  split; [done |].
  set (v := after processQueuedEvents w) in *.
  unfold after, invoke. rewrite Hcur.
  destruct (TelemetryProvider.flush _) as [c p].
  destruct (currentProvider w); simpl; rewrite Hq, Heff, Hb, <- ?app_assoc; done.
Qed.

Lemma surviving_nil (ts : list Timer) : surviving [] ts = ts.
Proof.
  unfold surviving. induction ts as [| t ts IH]; [done |].
  rewrite filter_cons_True by set_solver. by rewrite IH.
Qed.

Lemma clearTimeouts_run (cleared : list nat) (w : World) :
  forOf cleared clearTimeout w
  = (Normal tt, set_timers (surviving cleared (timers w)) (nextTimerId w) w).
Proof.
  revert w. induction cleared as [| h cleared IH]; intros w; simpl.
  - unfold ret. rewrite surviving_nil. by destruct w.
  - unfold bind at 1, clearTimeout at 1, update at 1. rewrite IH. simpl.
    f_equal. unfold set_timers, surviving. simpl. f_equal.
    rewrite list_filter_filter. apply list_filter_iff. intros t.
    rewrite not_elem_of_cons. tauto.
Qed.

Lemma shutdown_run (w : World) :
  eventQueue w = [] ->
  shutdown w
  = (invoke CallFlush TelemetryProvider.flush ;;
     invoke CallShutdown TelemetryProvider.shutdown ;;
     update (set_isInitialized false))
      (set_retryTimeouts ∅
         (set_timers (surviving (handles w) (timers w)) (nextTimerId w) w)).
Proof.
  intros Hq. unfold shutdown. unfold bind at 1, read at 1. simpl. fold (handles w).
  unfold bind at 1. rewrite clearTimeouts_run.
  unfold bind at 1, update at 1.
  unfold flush, processQueuedEvents.
  unfold bind at 1. unfold bind at 1. unfold bind at 1. unfold read at 1. simpl.
  rewrite Hq. unfold ret at 1.
  unfold bind at 3. unfold bind at 2.
  match goal with |- context [invoke CallFlush TelemetryProvider.flush ?v] =>
    destruct (invoke CallFlush TelemetryProvider.flush v) as [[[] | e] v1]
  end; reflexivity.
Qed.

(** X12: [shutdown] on an empty queue. Every timer whose handle is in
    [retryTimeouts] is cancelled and the table is emptied before anything
    else. Then the backend is flushed: when it rejects, [shutdown] throws
    that error, the backend is not shut down and [isInitialized] keeps its
    value. When it accepts, the backend's [shutdown] is called, on the
    backend as [flush] left it, and [shutdown] completes as that call
    does: it returns with [isInitialized] false exactly when the backend
    accepts, and throws the backend's error with [isInitialized] as it was
    when the backend rejects. *)
Theorem shutdown_on_empty_queue (w : World) :
  eventQueue w = [] ->
  let w' := after shutdown w in
  let flushed := TelemetryProvider.flush (providerAt (currentProvider w) w) in
  let closed := TelemetryProvider.shutdown (snd flushed) in
  timers w' = surviving (handles w) (timers w)
  /\ retryTimeouts w' = ∅
  /\ currentProvider w' = currentProvider w
  /\ match fst flushed with
     | Throw e =>
         result shutdown w = Throw e
         /\ isInitialized w' = isInitialized w
         /\ effects w' = effects w ++ [Invoke (currentProvider w) CallFlush]
         /\ providerAt (currentProvider w) w' = snd flushed
     | Normal _ =>
         effects w'
         = effects w ++ [Invoke (currentProvider w) CallFlush;
                         Invoke (currentProvider w) CallShutdown]
         /\ providerAt (currentProvider w) w' = snd closed
         /\ match fst closed with
            | Normal _ => result shutdown w = Normal tt /\ isInitialized w' = false
            | Throw e =>
                result shutdown w = Throw e /\ isInitialized w' = isInitialized w
            end
     end.
Proof.
  intros Hq w' flushed closed. subst w' closed flushed.
  unfold result, after. rewrite (shutdown_run w Hq).
  unfold bind, invoke, update. simpl.
  destruct (currentProvider w) eqn:Hcur; simpl.
  - destruct (TelemetryProvider.flush (primaryProvider w)) as [[[] | e] p]; simpl.
    + rewrite Hcur. simpl.
      destruct (TelemetryProvider.shutdown p) as [[[] | e] p']; simpl;
        rewrite <- ?app_assoc, ?Hcur; simpl; by repeat split.
    + rewrite ?Hcur. by repeat split.
  - destruct (TelemetryProvider.flush (fallbackProvider w)) as [[[] | e] p]; simpl.
    + rewrite Hcur. simpl.
      destruct (TelemetryProvider.shutdown p) as [[[] | e] p']; simpl;
        rewrite <- ?app_assoc, ?Hcur; simpl; by repeat split.
    + rewrite ?Hcur. by repeat split.
Qed.

Lemma closing_frame (w : World) :
  let closing := (invoke CallFlush TelemetryProvider.flush ;;
                  invoke CallShutdown TelemetryProvider.shutdown ;;
                  update (set_isInitialized false)) in
  timers (after closing w) = timers w
  /\ eventQueue (after closing w) = eventQueue w.
Proof.
  unfold after, bind, invoke, update.
  destruct (currentProvider w) eqn:Hcur; simpl.
  - destruct (TelemetryProvider.flush (primaryProvider w)) as [[[] | e] p]; simpl;
      [| done].
    rewrite Hcur. simpl.
    by destruct (TelemetryProvider.shutdown p) as [[[] | e] p'].
  - destruct (TelemetryProvider.flush (fallbackProvider w)) as [[[] | e] p]; simpl;
      [| done].
    rewrite Hcur. simpl.
    by destruct (TelemetryProvider.shutdown p) as [[[] | e] p'].
Qed.

Lemma shutdown_timers (w : World) :
  eventQueue w = [] ->
  timers (after shutdown w) = surviving (handles w) (timers w).
Proof.
  intros Hq. unfold after. rewrite (shutdown_run w Hq).
  destruct (closing_frame
              (set_retryTimeouts ∅
                 (set_timers (surviving (handles w) (timers w)) (nextTimerId w) w)))
    as [Ht _].
  unfold after in Ht. by rewrite Ht.
Qed.

(** A timer that [shutdown] does not find in the table is still armed
    after it: the flush that follows the cancelling only arms timers. *)
Lemma shutdown_keeps_uncleared (t : Timer) (w : World) :
  t ∈ timers w -> timerId t ∉ handles w -> t ∈ timers (after shutdown w).
Proof.
  intros Harmed Hout.
  assert (after shutdown w
          = after (flush ;;
                   invoke CallShutdown TelemetryProvider.shutdown ;;
                   update (set_isInitialized false))
              (set_retryTimeouts ∅
                 (set_timers (surviving (handles w) (timers w)) (nextTimerId w) w)))
    as ->.
  { unfold after at 1, shutdown. unfold bind at 1, read at 1. simpl. fold (handles w).
    unfold bind at 1. rewrite clearTimeouts_run. reflexivity. }
  rewrite after_bind.
  match goal with |- context [after flush ?v] =>
    assert (t ∈ timers (after flush v)) as Hflushed
  end.
  { apply (preserves_flush (fun v => t ∈ timers v) (fun _ => True));
      try (open_writes; set_solver).
    - intros. by apply Forall_true.
    - simpl. unfold surviving. apply list_elem_of_filter. by split. }
  match goal with |- context [result flush ?v] =>
    destruct (result flush v) as [[] | e]; [| exact Hflushed]
  end.
  revert Hflushed. generalize (after flush
    (set_retryTimeouts ∅
       (set_timers (surviving (handles w) (timers w)) (nextTimerId w) w))).
  intros v Hv. unfold after, bind, invoke, update.
  destruct (TelemetryProvider.shutdown (providerAt (currentProvider v) v))
    as [[[] | e] p]; by destruct (currentProvider v).
Qed.

(** X13: two events of the same type, with the same timestamp and the
    same retry count, have one key in [retryTimeouts] whatever their data.
    When the retry of both is scheduled, with attempts left and in a core
    whose table does not hold the next handle yet, the table keeps the
    handle of the second timer only, and [shutdown], which cancels the
    timers it finds in the table, leaves the first one armed, whatever is
    in the queue. *)
Theorem colliding_retries_outlive_shutdown (e1 e2 : TelemetryEvent) (w : World) :
  type e1 = type e2 ->
  timestamp e1 = timestamp e2 ->
  retryCount e1 = retryCount e2 ->
  nextRetryCount e1 <= maxAttempts (retry (config w)) ->
  nextTimerId w ∉ handles w ->
  let w2 := after (retryEvent e2) (after (retryEvent e1) w) in
  let first := retryTimer e1 w in
  let second := {| timerId := S (nextTimerId w);
                   delay := retryDelay (config w) (nextRetryCount e2);
                   eventKey := retryKey e2 (nextRetryCount e2);
                   event := e2; attempt := nextRetryCount e2 |} in
  eventKey first = eventKey second
  /\ timers w2 = timers w ++ [first; second]
  /\ retryTimeouts w2 = <[eventKey first := timerId second]> (retryTimeouts w)
  /\ first ∈ timers (after shutdown w2).
Proof.
  intros Htype Htime Hretry Hcount Hfresh w2 first second.
  assert (nextRetryCount e2 = nextRetryCount e1) as Hnext
    by (unfold nextRetryCount; by rewrite Hretry).
  assert (eventKey first = eventKey second) as Hkey
    by (subst first second; unfold retryTimer, retryKey; simpl;
        by rewrite Htype, Htime, Hnext).
  assert (timers w2 = timers w ++ [first; second]
          /\ retryTimeouts w2
             = <[eventKey second := S (nextTimerId w)]>
                 (<[eventKey first := nextTimerId w]> (retryTimeouts w)))
    as (Htimers & Hmap).
  { subst w2 first second.
    unfold after, retryEvent, retryTimer, setTimeout, bind, read, update, ret.
    simpl. rewrite Hnext.
    destruct (Z.ltb_spec (maxAttempts (retry (config w))) (nextRetryCount e1));
      [lia |]. simpl.
    destruct (Z.ltb_spec (maxAttempts (retry (config w))) (nextRetryCount e1));
      [lia |]. simpl.
    by rewrite <- app_assoc. }
  rewrite <- Hkey, insert_insert_eq in Hmap.
  split; [exact Hkey |]. split; [exact Htimers |]. split; [exact Hmap |].
  apply shutdown_keeps_uncleared; [rewrite Htimers; set_solver |].
  unfold handles. rewrite Hmap. intros Hin.
  apply list_elem_of_fmap in Hin as ([k id] & Hid & Hin). simpl in Hid.
  apply elem_of_map_to_list in Hin.
  apply lookup_insert_Some in Hin as [[_ Heq] | [Hne Hin]].
  - subst first. simpl in Hid, Heq. lia.
  - apply Hfresh. unfold handles. apply list_elem_of_fmap. exists (k, id).
    split; [done |]. by apply elem_of_map_to_list.
Qed.

(** X14: [shutdown] flushes after it has cancelled the timers, so a queued
    event whose send fails during that flush is handed to the retry
    scheduler: when the event has attempts left, a new timer is armed and
    stays armed after [shutdown]. *)
Theorem shutdown_can_arm_a_timer (e : TelemetryEvent) (w : World) (err : JsError) :
  eventQueue w = [e] ->
  nextRetryCount e <= maxAttempts (retry (config w)) ->
  fst (sendEvent e w) = Throw err ->
  timers (after shutdown w)
  = surviving (handles w) (timers w) ++ [retryTimer e w]
  /\ eventQueue (after shutdown w) = [].
Proof.
  intros Hq Hcount Hsend.
  set (w1 := set_eventQueue []
               (set_retryTimeouts ∅
                  (set_timers (surviving (handles w) (timers w)) (nextTimerId w) w))).
  assert (onlyBackends w1 (after (sendEvent e) w1)) as Hframe
    by apply sendEvent_onlyBackends.
  destruct Hframe as (Hs1 & Hs2 & Hs3 & Hs4 & Hs5 & Hs6 & Hs7 & Hs8 & Hs9).
  assert (result (sendEvent e) w1 = Throw err) as Hsend1.
  { unfold result in *. revert Hsend. unfold sendEvent, invoke.
    destruct (type e); simpl; try done.
    - destruct (currentProvider w); simpl;
        by destruct (TelemetryProvider.recordMetric _ _).
    - destruct (currentProvider w); simpl;
        by destruct (TelemetryProvider.recordLog _ _). }
  assert (shutdown w
          = (invoke CallFlush TelemetryProvider.flush ;;
             invoke CallShutdown TelemetryProvider.shutdown ;;
             update (set_isInitialized false))
              (after (retryEvent e) (after (sendEvent e) w1))) as Hrun.
  { unfold shutdown. unfold bind at 1, read at 1. simpl. fold (handles w).
    unfold bind at 1. rewrite clearTimeouts_run.
    unfold bind at 1, update at 1.
    unfold flush, processQueuedEvents.
    unfold bind at 1. unfold bind at 1. unfold bind at 1. unfold read at 1. simpl.
    rewrite Hq. unfold bind at 1, update at 1. simpl. fold w1.
    unfold bind at 1, tryCatch at 1. unfold result, after in *.
    destruct (sendEvent e w1) as [c v1]. simpl in *. subst c.
    pose proof (returns_unit (retryEvent e) v1 (returns_retryEvent e)) as Hreturns.
    unfold result in Hreturns. destruct (retryEvent e v1) as [c v2]. simpl in *.
    subst c. unfold ret at 1. unfold bind at 3. unfold bind at 2.
    match goal with |- context [invoke CallFlush TelemetryProvider.flush ?v] =>
      destruct (invoke CallFlush TelemetryProvider.flush v) as [[[] | e'] v3]
    end; reflexivity. }
  destruct (after_retryEvent e (after (sendEvent e) w1)) as (Ht & _ & _ & _ & Hqr & _).
  assert (timers (after shutdown w) = timers (after (retryEvent e) (after (sendEvent e) w1))
          /\ eventQueue (after shutdown w)
             = eventQueue (after (retryEvent e) (after (sendEvent e) w1))) as [-> ->].
  { destruct (closing_frame (after (retryEvent e) (after (sendEvent e) w1)))
      as [Hct Hcq].
    unfold after at 1 in Hct. unfold after at 1 in Hcq.
    unfold after at 1. unfold after at 3. by rewrite Hrun. }
  rewrite Ht, Hqr, Hs4. split; [| done].
  unfold timersAfterRetry, retryTimer. rewrite Hs1, Hs7, Hs8. simpl.
  by destruct (Z.ltb_spec (maxAttempts (retry (config w))) (nextRetryCount e)); [lia |].
Qed.

End Lifecycle.

Section LifecycleExamples.
#[local] Existing Instance Regex.engine.
#[local] Existing Instance Scripted.backends.
Import Scenario.

Lemma shutdown_on_empty_queue_witness :
  let w := after (recordMetric hits) fallenBack in
  let w' := after shutdown w in
  let flushed := TelemetryProvider.flush (providerAt (currentProvider w) w) in
  let closed := TelemetryProvider.shutdown (snd flushed) in
  timers w' = surviving (handles w) (timers w)
  /\ retryTimeouts w' = ∅
  /\ currentProvider w' = currentProvider w
  /\ match fst flushed with
     | Throw e =>
         result shutdown w = Throw e
         /\ isInitialized w' = isInitialized w
         /\ effects w' = effects w ++ [Invoke (currentProvider w) CallFlush]
         /\ providerAt (currentProvider w) w' = snd flushed
     | Normal _ =>
         effects w'
         = effects w ++ [Invoke (currentProvider w) CallFlush;
                         Invoke (currentProvider w) CallShutdown]
         /\ providerAt (currentProvider w) w' = snd closed
         /\ match fst closed with
            | Normal _ => result shutdown w = Normal tt /\ isInitialized w' = false
            | Throw e =>
                result shutdown w = Throw e /\ isInitialized w' = isInitialized w
            end
     end.
Proof.
  intros w.
  assert (eventQueue w = []) as Hq by (vm_compute; reflexivity).
  exact (shutdown_on_empty_queue w Hq).
Defined.

(** On this core the backend accepts [flush] and rejects [shutdown]:
    [shutdown] throws and the core is still marked as it was. *)
Example shutdown_rejected_by_the_backend :
  let w := set_isInitialized true
             (set_fallbackProvider [true; false] (after (recordMetric hits) fallenBack)) in
  result shutdown w = Throw (Error "backend unavailable")
  /\ isInitialized (after shutdown w) = true
  /\ drop (length (effects w)) (effects (after shutdown w))
     = [Invoke fallback CallFlush; Invoke fallback CallShutdown].
Proof. vm_compute. done. Qed.

Lemma colliding_retries_outlive_shutdown_witness :
  let e1 := {| type := log; data := hits; timestamp := 7; retryCount := None |} in
  let e2 := {| type := log; data := cardMessage; timestamp := 7; retryCount := None |} in
  let w := queueAll [numbered 1] (after (recordMetric hits) fallenBack) in
  let w2 := after (retryEvent e2) (after (retryEvent e1) w) in
  let first := retryTimer e1 w in
  let second := {| timerId := S (nextTimerId w);
                   delay := retryDelay (config w) (nextRetryCount e2);
                   eventKey := retryKey e2 (nextRetryCount e2);
                   event := e2; attempt := nextRetryCount e2 |} in
  eventKey first = eventKey second
  /\ timers w2 = timers w ++ [first; second]
  /\ retryTimeouts w2 = <[eventKey first := timerId second]> (retryTimeouts w)
  /\ first ∈ timers (after shutdown w2).
Proof.
  intros e1 e2 w.
  assert (nextRetryCount e1 <= maxAttempts (retry (config w))) as Hcount
    by (vm_compute; discriminate).
  assert (handles w = [0%nat]) as Hhandles by (vm_compute; reflexivity).
  assert (nextTimerId w = 1%nat) as Hnext by (vm_compute; reflexivity).
  assert (nextTimerId w ∉ handles w) as Hfresh.
  { rewrite Hhandles, Hnext. intros Hin. apply list_elem_of_singleton in Hin.
    discriminate. }
  exact (colliding_retries_outlive_shutdown e1 e2 w eq_refl eq_refl eq_refl
           Hcount Hfresh).
Defined.

Lemma shutdown_can_arm_a_timer_witness :
  let w := queueAll [numbered 1] fallenBack in
  timers (after shutdown w)
  = surviving (handles w) (timers w) ++ [retryTimer (numbered 1) w]
  /\ eventQueue (after shutdown w) = [].
Proof.
  intros w.
  assert (eventQueue w = [numbered 1]) as Hq by (vm_compute; reflexivity).
  assert (nextRetryCount (numbered 1) <= maxAttempts (retry (config w))) as Hcount
    by (vm_compute; discriminate).
  assert (fst (sendEvent (numbered 1) w) = Throw (Error "backend unavailable"))
    as Hsend by (vm_compute; reflexivity).
  exact (shutdown_can_arm_a_timer (numbered 1) w _ Hq Hcount Hsend).
Defined.

(** Two metrics recorded in the same millisecond both fail on the fallback
    backend of this core: after [shutdown] one of the two timers is still
    armed. *)
Example same_millisecond_retries :
  let w := set_fallbackProvider [false; false; true; true]
             (after initialize (core (settings 2 3 3 true) [false] [true])) in
  let w' := performAll [RecordMetric hits; RecordMetric cardMessage; Shutdown] w in
  (timerId <$> timers w') = [0%nat]
  /\ isInitialized w' = false
  /\ handles w' = [].
Proof. vm_compute. done. Qed.

End LifecycleExamples.

(** ** Initialisation *)

Section Initialization.
Context `{backends : Backends}.

Lemma switchToFallback_flag (w : World) :
  isInitialized (after switchToFallback w) = isInitialized w.
Proof.
  apply (preserves_switchToFallback (fun v => isInitialized v = isInitialized w)
           (fun _ => True));
    try (open_writes; done).
  intros. by apply Forall_true.
Qed.

Lemma processQueuedEvents_flag (w : World) :
  isInitialized (after processQueuedEvents w) = isInitialized w.
Proof.
  apply (preserves_processQueuedEvents (fun v => isInitialized v = isInitialized w)
           (fun _ => True));
    try (open_writes; done).
  intros. by apply Forall_true.
Qed.

(** [initialize] on a core that is not initialised, when the backend it
    points to accepts: the rest is the flag and [processQueuedEvents]. *)
Lemma initialize_accepted (w : World) :
  isInitialized w = false ->
  fst (TelemetryProvider.initialize (config w) (providerAt (currentProvider w) w))
    = Normal tt ->
  initialize w
  = processQueuedEvents
      (set_isInitialized true
         (after (invoke CallInitialize (TelemetryProvider.initialize (config w))) w)).
Proof.
  intros Hinit Haccept.
  unfold initialize, bind at 1, read at 1. simpl. rewrite Hinit.
  unfold tryCatch at 1, bind at 1, read at 1, bind at 1, after, invoke. simpl.
  destruct (TelemetryProvider.initialize (config w) (providerAt (currentProvider w) w))
    as [c p].
  simpl in Haccept. subst c. simpl. unfold bind at 1, update at 1. simpl.
  match goal with |- context [processQueuedEvents ?v] =>
    pose proof (returns_unit processQueuedEvents v returns_processQueuedEvents)
      as Hreturns;
    unfold result in Hreturns;
    destruct (processQueuedEvents v) as [c w']
  end.
  simpl in Hreturns. by subst c.
Qed.

(** X15: [initialize] when the backend in use accepts. The call returns,
    the core is marked initialised, the queue is empty and what it held was
    sent to that backend, oldest first, after the one [initialize] call; the
    backend in use and the breaker, open or not, are those of before. A
    second [initialize] then does nothing. *)
Theorem initialize_on_current_backend (w : World) :
  isInitialized w = false ->
  fst (TelemetryProvider.initialize (config w) (providerAt (currentProvider w) w))
    = Normal tt ->
  let w' := after initialize w in
  result initialize w = Normal tt
  /\ isInitialized w' = true
  /\ currentProvider w' = currentProvider w
  /\ circuitBreakerState w' = circuitBreakerState w
  /\ eventQueue w' = []
  /\ effects w'
     = effects w ++ [Invoke (currentProvider w) CallInitialize]
                 ++ deliveries (currentProvider w) (eventQueue w)
  /\ initialize w' = (Normal tt, w').
Proof.
  intros Hinit Haccept w'.
  pose proof (initialize_accepted w Hinit Haccept) as Hrun.
  set (w1 := after (invoke CallInitialize (TelemetryProvider.initialize (config w))) w)
    in Hrun.
  assert (currentProvider w1 = currentProvider w
          /\ circuitBreakerState w1 = circuitBreakerState w
          /\ eventQueue w1 = eventQueue w
          /\ effects w1 = effects w ++ [Invoke (currentProvider w) CallInitialize])
    as (Hcur & Hb & Hq & Heff).
  { subst w1. unfold after, invoke.
    destruct (TelemetryProvider.initialize (config w) _).
    destruct (currentProvider w) eqn:Hc; simpl; by rewrite ?Hc. }
  destruct (processQueuedEvents_drains (set_isInitialized true w1))
    as (Hres & Hc & Hbreaker & Hempty & Hsent).
  pose proof (processQueuedEvents_flag (set_isInitialized true w1)) as Hflag.
  assert (w' = after processQueuedEvents (set_isInitialized true w1)) as Hw'
    by (subst w'; unfold after; by rewrite Hrun).
  assert (result initialize w = Normal tt) as Hresult
    by (unfold result in *; by rewrite Hrun).
  simpl in Hc, Hbreaker, Hempty, Hsent, Hflag.
  assert (isInitialized w' = true) as Hdone by (by rewrite Hw', Hflag).
  split; [exact Hresult |].
  split; [exact Hdone |].
  split; [by rewrite Hw', Hc |].
  split; [by rewrite Hw', Hbreaker |].
  split; [by rewrite Hw', Hempty |].
  split; [by rewrite Hw', Hsent, Heff, Hcur, Hq, <- app_assoc |].
  unfold initialize, bind, read, ret. simpl. by rewrite Hdone.
Qed.

(** X16: a call of [initialize] in which the backend in use rejects does
    not mark the core initialised, whether the fallback then accepts or
    not: after the call the current backend is the fallback and
    [getHealthStatus] reports an unhealthy core, also when the fallback
    accepted and [initialize] returned. *)
Theorem falling_back_leaves_core_uninitialized (w : World) (e : JsError) :
  isInitialized w = false ->
  fst (TelemetryProvider.initialize (config w) (providerAt (currentProvider w) w))
    = Throw e ->
  let w1 := after (invoke CallInitialize (TelemetryProvider.initialize (config w))) w in
  let w' := after initialize w in
  isInitialized w' = false
  /\ currentProvider w' = fallback
  /\ Health.healthy (getHealthStatus w') = false
  /\ (fst (TelemetryProvider.initialize (config w) (fallbackProvider w1)) = Normal tt ->
      result initialize w = Normal tt).
Proof.
  intros Hinit Hreject w1 w'.
  pose proof (initialize_rejected w e Hinit Hreject) as Hrun. fold w1 in Hrun.
  assert (config w1 = config w /\ isInitialized w1 = isInitialized w) as [Hcfg Hflag1].
  { subst w1. unfold after, invoke.
    destruct (TelemetryProvider.initialize (config w) _).
    by destruct (currentProvider w). }
  assert (w' = after switchToFallback w1) as Hw'
    by (subst w'; unfold after; by rewrite Hrun).
  assert (isInitialized w' = false) as Hflag
    by (by rewrite Hw', switchToFallback_flag, Hflag1).
  split; [exact Hflag |].
  assert (currentProvider w' = fallback) as Hcur.
  { rewrite Hw'.
    destruct (fst (TelemetryProvider.initialize (config w1) (fallbackProvider w1)))
      as [[] | e'] eqn:Hfallback.
    - unfold after at 1. rewrite (switchToFallback_accepted w1 Hfallback).
      match goal with |- context [processQueuedEvents ?v] =>
        destruct (processQueuedEvents_drains v) as (_ & Hc & _)
      end.
      exact Hc.
    - unfold after at 1. by rewrite (switchToFallback_rejected w1 e' Hfallback). }
  split; [exact Hcur |].
  split; [unfold getHealthStatus; simpl; by rewrite Hflag |].
  intros Haccept. rewrite <- Hcfg in Haccept.
  unfold result. rewrite Hrun, (switchToFallback_accepted w1 Haccept).
  match goal with |- context [processQueuedEvents ?v] =>
    apply (returns_unit processQueuedEvents v returns_processQueuedEvents)
  end.
Qed.

(** X17: when the backend in use and then the fallback both reject
    [initialize], the call throws the error that names both, the breaker is
    open with one more failure counted and the cool-down starting at the
    current time, the current backend is the fallback, and the queue is as
    it was: nothing was sent. *)
Theorem initialize_both_reject (w : World) (e e' : JsError) :
  isInitialized w = false ->
  fst (TelemetryProvider.initialize (config w) (providerAt (currentProvider w) w))
    = Throw e ->
  let w1 := after (invoke CallInitialize (TelemetryProvider.initialize (config w))) w in
  fst (TelemetryProvider.initialize (config w) (fallbackProvider w1)) = Throw e' ->
  let w' := after initialize w in
  result initialize w
    = Throw (Error "Both primary and fallback providers failed to initialize")
  /\ currentProvider w' = fallback
  /\ circuitBreakerState w'
     = {| state := open;
          failureCount := failureCount (circuitBreakerState w) + 1;
          lastFailureTime := Some (clock w);
          nextAttemptTime := Some (clock w + resetTimeoutMs (circuitBreaker (config w))) |}
  /\ eventQueue w' = eventQueue w
  /\ effects w'
     = effects w ++ [Invoke (currentProvider w) CallInitialize;
                     Invoke fallback CallInitialize].
Proof.
  intros Hinit Hreject w1 Hreject' w'.
  pose proof (initialize_rejected w e Hinit Hreject) as Hrun. fold w1 in Hrun.
  assert (config w1 = config w /\ circuitBreakerState w1 = circuitBreakerState w
          /\ clock w1 = clock w /\ eventQueue w1 = eventQueue w
          /\ effects w1 = effects w ++ [Invoke (currentProvider w) CallInitialize])
    as (Hcfg & Hb & Hclock & Hq & Heff).
  { subst w1. unfold after, invoke.
    destruct (TelemetryProvider.initialize (config w) _).
    by destruct (currentProvider w). }
  rewrite <- Hcfg in Hreject'.
  rewrite (switchToFallback_rejected w1 e' Hreject') in Hrun.
  subst w'. unfold result at 1, after. rewrite Hrun. simpl.
  rewrite Hb, Hclock, Hcfg, Hq, Heff, <- app_assoc.
  repeat split; try done.
Qed.

End Initialization.

Section InitializationExamples.
#[local] Existing Instance Regex.engine.
#[local] Existing Instance Scripted.backends.
Import Scenario.

Lemma initialize_on_current_backend_witness :
  let w := queueAll [numbered 1; numbered 2]
             (core (settings 100 5 3 true) [true; true; false] []) in
  let w' := after initialize w in
  result initialize w = Normal tt
  /\ isInitialized w' = true
  /\ currentProvider w' = currentProvider w
  /\ circuitBreakerState w' = circuitBreakerState w
  /\ eventQueue w' = []
  /\ effects w'
     = effects w ++ [Invoke (currentProvider w) CallInitialize]
                 ++ deliveries (currentProvider w) (eventQueue w)
  /\ initialize w' = (Normal tt, w').
Proof.
  intros w.
  assert (isInitialized w = false) as Hinit by (vm_compute; reflexivity).
  assert (fst (TelemetryProvider.initialize (config w)
                 (providerAt (currentProvider w) w)) = Normal tt) as Haccept
    by (vm_compute; reflexivity).
  exact (initialize_on_current_backend w Hinit Haccept).
Defined.

Lemma falling_back_leaves_core_uninitialized_witness :
  let w := core (settings 100 5 3 true) [false] [true] in
  let w1 := after (invoke CallInitialize (TelemetryProvider.initialize (config w))) w in
  let w' := after initialize w in
  isInitialized w' = false
  /\ currentProvider w' = fallback
  /\ Health.healthy (getHealthStatus w') = false
  /\ (fst (TelemetryProvider.initialize (config w) (fallbackProvider w1)) = Normal tt ->
      result initialize w = Normal tt).
Proof.
  intros w.
  assert (isInitialized w = false) as Hinit by (vm_compute; reflexivity).
  assert (fst (TelemetryProvider.initialize (config w)
                 (providerAt (currentProvider w) w))
          = Throw (Error "backend unavailable")) as Hreject
    by (vm_compute; reflexivity).
  exact (falling_back_leaves_core_uninitialized w _ Hinit Hreject).
Defined.

Lemma initialize_both_reject_witness :
  let w := queueAll [numbered 1] (core (settings 100 5 3 true) [false] [false]) in
  let w' := after initialize w in
  result initialize w
    = Throw (Error "Both primary and fallback providers failed to initialize")
  /\ currentProvider w' = fallback
  /\ circuitBreakerState w'
     = {| state := open;
          failureCount := failureCount (circuitBreakerState w) + 1;
          lastFailureTime := Some (clock w);
          nextAttemptTime := Some (clock w + resetTimeoutMs (circuitBreaker (config w))) |}
  /\ eventQueue w' = eventQueue w
  /\ effects w'
     = effects w ++ [Invoke (currentProvider w) CallInitialize;
                     Invoke fallback CallInitialize].
Proof.
  intros w.
  assert (isInitialized w = false) as Hinit by (vm_compute; reflexivity).
  assert (fst (TelemetryProvider.initialize (config w)
                 (providerAt (currentProvider w) w))
          = Throw (Error "backend unavailable")) as Hreject
    by (vm_compute; reflexivity).
  assert (fst (TelemetryProvider.initialize (config w)
                 (fallbackProvider
                    (after (invoke CallInitialize
                              (TelemetryProvider.initialize (config w))) w)))
          = Throw (Error "backend unavailable")) as Hreject'
    by (vm_compute; reflexivity).
  exact (initialize_both_reject w _ _ Hinit Hreject Hreject').
Defined.

(** A core that fell back at initialisation reports itself unhealthy while
    the fallback takes its events; a second [initialize] calls the
    fallback's [initialize] once more and only then marks the core
    initialised. *)
Example second_initialize_marks_the_fallback :
  let w := core (settings 100 5 3 true) [false] [] in
  let w1 := performAll [Initialize; RecordMetric hits] w in
  let w2 := perform Initialize w1 in
  Health.healthy (getHealthStatus w1) = false
  /\ Health.healthy (getHealthStatus w2) = true
  /\ Health.provider (getHealthStatus w2) = "fallback"
  /\ drop 2 (effects w2)
     = [Invoke primary CallInitialize; Invoke fallback CallInitialize;
        Invoke fallback (CallRecordMetric hits);
        Invoke fallback CallInitialize].
Proof. vm_compute. done. Qed.

End InitializationExamples.

(** ** The end of a span *)

Section EndTrace.
Context `{engine : RegExpEngine} `{backends : Backends}.

(** X18: [endTrace] is never queued, never retried and never makes the
    core change backend: whatever the gate and the backend answer, the
    queue, the timers, the table of retries, the backend in use and the
    initialisation flag are those of before the call. *)
Theorem endTrace_is_never_queued_or_retried
    (spanId : string) (attributes : JsValue) (w : World) :
  let w' := after (endTrace spanId attributes) w in
  eventQueue w' = eventQueue w
  /\ timers w' = timers w
  /\ retryTimeouts w' = retryTimeouts w
  /\ currentProvider w' = currentProvider w
  /\ isInitialized w' = isInitialized w.
Proof.
  apply (preserves_endTrace
           (fun v => eventQueue v = eventQueue w /\ timers v = timers w
                     /\ retryTimeouts v = retryTimeouts w
                     /\ currentProvider v = currentProvider w
                     /\ isInitialized v = isInitialized w));
    try (open_writes; intuition congruence).
Qed.

(** [endTrace] once its attributes are sanitised. *)
Lemma endTrace_run (spanId : string) (attributes clean : JsValue) (w : World) :
  result (if truthy attributes then sanitizeData attributes else ret JsUndefined) w
    = Normal clean ->
  endTrace spanId attributes w
  = (attemptRequest <- shouldAttemptRequest ;;
     if negb attemptRequest then ret tt
     else
       tryCatch
         (invoke (CallEndTrace spanId clean) (TelemetryProvider.endTrace spanId clean) ;;
          handleSuccess)
         (fun _ => handleFailure)) w.
Proof.
  intros Hclean. unfold endTrace. unfold bind at 1.
  rewrite (run_pure _ clean w); [done | | exact Hclean].
  destruct (truthy attributes); [apply sanitizeData_pure | done].
Qed.

(** X19: when the gate refuses, the end of the span is dropped: [endTrace]
    returns, no backend is called, and the core is exactly as it was, so
    nothing will deliver the call later. *)
Theorem endTrace_blocked_is_dropped
    (spanId : string) (attributes clean : JsValue) (w : World) :
  result (if truthy attributes then sanitizeData attributes else ret JsUndefined) w
    = Normal clean ->
  result shouldAttemptRequest w = Normal false ->
  endTrace spanId attributes w = (Normal tt, w).
Proof.
  intros Hclean Hgate. rewrite (endTrace_run spanId attributes clean w Hclean).
  unfold bind at 1. by rewrite (shouldAttemptRequest_refuses w Hgate).
Qed.

(** X20: when the gate lets the call through and the backend rejects it,
    [endTrace] still returns: the failure is counted by the breaker as any
    other, and that is all; the one backend call is the rejected one. *)
Theorem endTrace_rejected_is_swallowed
    (spanId : string) (attributes clean : JsValue) (w : World) (e : JsError) :
  result (if truthy attributes then sanitizeData attributes else ret JsUndefined) w
    = Normal clean ->
  result shouldAttemptRequest w = Normal true ->
  fst (TelemetryProvider.endTrace spanId clean (providerAt (currentProvider w) w))
    = Throw e ->
  let w' := after (endTrace spanId attributes) w in
  result (endTrace spanId attributes) w = Normal tt
  /\ effects w' = effects w ++ [Invoke (currentProvider w) (CallEndTrace spanId clean)]
  /\ circuitBreakerState w'
     = circuitBreakerState (after handleFailure (after shouldAttemptRequest w)).
Proof.
  intros Hclean Hgate Hreject w'.
  pose proof (endTrace_run spanId attributes clean w Hclean) as Hrun.
  unfold bind at 1 in Hrun.
  destruct (gate_onlyBreaker w)
    as (Hg1 & Hg2 & Hg3 & Hg4 & Hg5 & Hg6 & Hg7 & Hg8 & Hg9 & Hg10 & Hg11).
  unfold result, after in Hgate, Hg1, Hg2, Hg3, Hg4, Hg5, Hg6, Hg7, Hg8, Hg9, Hg10, Hg11.
  unfold after at 2.
  destruct (shouldAttemptRequest w) as [c w1]. simpl in *. subst c. simpl in Hrun.
  assert (providerAt (currentProvider w1) w1 = providerAt (currentProvider w) w)
    as Hprovider by (unfold providerAt; by rewrite Hg2, Hg3, Hg4).
  unfold tryCatch at 1, bind at 1, invoke at 1 in Hrun.
  rewrite Hprovider in Hrun.
  destruct (TelemetryProvider.endTrace spanId clean (providerAt (currentProvider w) w))
    as [c p].
  simpl in Hreject. subst c.
  match type of Hrun with context [handleFailure ?v] =>
    pose proof (returns_unit handleFailure v returns_handleFailure) as Hreturns;
    destruct (handleFailure_onlyBreaker v) as (_ & _ & _ & _ & _ & _ & _ & _ & _ & _ & Heff);
    pose proof (handleFailure_breaker v w1) as Hbreaker;
    unfold result, after in Hreturns, Heff, Hbreaker;
    destruct (handleFailure v) as [c w3]
  end.
  simpl in Hreturns. subst c. subst w'. unfold result, after. rewrite Hrun. simpl.
  split; [done |].
  split.
  - simpl in Heff. rewrite Heff, Hg4, Hg11. by destruct (currentProvider w).
  - simpl in Hbreaker. apply Hbreaker; by destruct (currentProvider w1).
Qed.

End EndTrace.

Section EndTraceExamples.
#[local] Existing Instance Regex.engine.
#[local] Existing Instance Scripted.backends.
Import Scenario.

Lemma endTrace_blocked_is_dropped_witness :
  endTrace "span-1" hits tripped = (Normal tt, tripped).
Proof.
  assert (result (if truthy hits then sanitizeData hits else ret JsUndefined) tripped
          = Normal hits) as Hclean by (vm_compute; reflexivity).
  assert (result shouldAttemptRequest tripped = Normal false) as Hgate
    by (vm_compute; reflexivity).
  exact (endTrace_blocked_is_dropped "span-1" hits hits tripped Hclean Hgate).
Defined.

Lemma endTrace_rejected_is_swallowed_witness :
  let w := fallenBack in
  let w' := after (endTrace "span-1" JsUndefined) w in
  result (endTrace "span-1" JsUndefined) w = Normal tt
  /\ effects w' = effects w ++ [Invoke (currentProvider w)
                                  (CallEndTrace "span-1" JsUndefined)]
  /\ circuitBreakerState w'
     = circuitBreakerState (after handleFailure (after shouldAttemptRequest w)).
Proof.
  intros w.
  assert (result (if truthy JsUndefined then sanitizeData JsUndefined
                  else ret JsUndefined) w = Normal JsUndefined) as Hclean
    by (vm_compute; reflexivity).
  assert (result shouldAttemptRequest w = Normal true) as Hgate
    by (vm_compute; reflexivity).
  assert (fst (TelemetryProvider.endTrace "span-1" JsUndefined
                 (providerAt (currentProvider w) w))
          = Throw (Error "backend unavailable")) as Hreject
    by (vm_compute; reflexivity).
  exact (endTrace_rejected_is_swallowed "span-1" JsUndefined JsUndefined w _
           Hclean Hgate Hreject).
Defined.

End EndTraceExamples.

(** ** The configuration read from the environment *)

Section EnvironmentProperties.
Context `{numbers : Env.Numbers} `{engine : RegExpEngine}.

Lemma orElse_filled (value : option string) (fallback : string) :
  falsy (Some fallback) = false -> falsy (Some (Env.orElse value fallback)) = false.
Proof. intros Hfallback. by destruct value as [[| c rest] |]. Qed.

(** X21: [loadHydropulseConfig] returns a configuration from every
    environment: its two [throw] statements are never reached, because a
    service name or version that is unset or empty is replaced by
    ['hydropulse-app'] or ['1.0.0'] first. The names of the configuration
    are never empty, so the name checks of the constructor accept it. *)
Theorem loadHydropulseConfig_always_returns (env : Env.Environment) :
  exists cfg,
    Env.loadHydropulseConfig env = Normal cfg
    /\ Env.serviceName cfg
       = (if falsy (env !! "HYDROPULSE_SERVICE_NAME") then "hydropulse-app"
          else default EmptyString (env !! "HYDROPULSE_SERVICE_NAME"))
    /\ Env.serviceVersion cfg
       = (if falsy (env !! "HYDROPULSE_SERVICE_VERSION") then "1.0.0"
          else default EmptyString (env !! "HYDROPULSE_SERVICE_VERSION"))
    /\ falsy (Some (Env.serviceName cfg)) = false
    /\ falsy (Some (Env.serviceVersion cfg)) = false.
Proof.
  unfold Env.loadHydropulseConfig.
  rewrite (orElse_filled (env !! "HYDROPULSE_SERVICE_NAME") "hydropulse-app") by done.
  rewrite (orElse_filled (env !! "HYDROPULSE_SERVICE_VERSION") "1.0.0") by done.
  eexists. split; [reflexivity |]. simpl.
  split; [by destruct (env !! "HYDROPULSE_SERVICE_NAME") as [[| c rest] |] |].
  split; [by destruct (env !! "HYDROPULSE_SERVICE_VERSION") as [[| c rest] |] |].
  split; by apply orElse_filled.
Qed.

Lemma validateHydropulseEnvironment_cases (env : Env.Environment) :
  Env.validateHydropulseEnvironment env
  = match falsy (env !! "HYDROPULSE_SERVICE_NAME"),
          falsy (env !! "HYDROPULSE_SERVICE_VERSION") with
    | false, false => Normal tt
    | true, false =>
        Throw (Error ("Missing required Hydropulse environment variables: "
                      +:+ "HYDROPULSE_SERVICE_NAME"))
    | false, true =>
        Throw (Error ("Missing required Hydropulse environment variables: "
                      +:+ "HYDROPULSE_SERVICE_VERSION"))
    | true, true =>
        Throw (Error ("Missing required Hydropulse environment variables: "
                      +:+ "HYDROPULSE_SERVICE_NAME, HYDROPULSE_SERVICE_VERSION"))
    end.
Proof.
  unfold Env.validateHydropulseEnvironment, Env.requiredVars.
  destruct (falsy (env !! "HYDROPULSE_SERVICE_NAME")) eqn:Hname;
    destruct (falsy (env !! "HYDROPULSE_SERVICE_VERSION")) eqn:Hversion.
  - rewrite filter_cons_True by done. rewrite filter_cons_True by done. reflexivity.
  - rewrite filter_cons_True by done.
    rewrite filter_cons_False by (by rewrite Hversion). reflexivity.
  - rewrite filter_cons_False by (by rewrite Hname).
    rewrite filter_cons_True by done. reflexivity.
  - rewrite filter_cons_False by (by rewrite Hname).
    rewrite filter_cons_False by (by rewrite Hversion). reflexivity.
Qed.

(** X22: [validateHydropulseEnvironment] accepts an environment exactly
    when the names of the configuration that [loadHydropulseConfig] reads
    from it are those of the environment, not the defaults. An environment
    it rejects is still loaded; the error lists the variables that are
    unset or empty, the service name first. *)
Theorem validateHydropulseEnvironment_against_loader (env : Env.Environment) :
  (Env.validateHydropulseEnvironment env = Normal tt
   <-> exists cfg,
         Env.loadHydropulseConfig env = Normal cfg
         /\ env !! "HYDROPULSE_SERVICE_NAME" = Some (Env.serviceName cfg)
         /\ env !! "HYDROPULSE_SERVICE_VERSION" = Some (Env.serviceVersion cfg))
  /\ (Env.validateHydropulseEnvironment env = Normal tt
      \/ exists missing,
           Env.validateHydropulseEnvironment env
           = Throw (Error ("Missing required Hydropulse environment variables: "
                           +:+ missing))
           /\ missing
              = Env.join ", "
                  ((if falsy (env !! "HYDROPULSE_SERVICE_NAME")
                    then ["HYDROPULSE_SERVICE_NAME"] else [])
                   ++ (if falsy (env !! "HYDROPULSE_SERVICE_VERSION")
                       then ["HYDROPULSE_SERVICE_VERSION"] else []))).
Proof.
  rewrite validateHydropulseEnvironment_cases.
  unfold Env.loadHydropulseConfig.
  rewrite (orElse_filled (env !! "HYDROPULSE_SERVICE_NAME") "hydropulse-app") by done.
  rewrite (orElse_filled (env !! "HYDROPULSE_SERVICE_VERSION") "1.0.0") by done.
  split.
  - destruct (env !! "HYDROPULSE_SERVICE_NAME") as [[| c rest] |];
      destruct (env !! "HYDROPULSE_SERVICE_VERSION") as [[| c' rest'] |]; simpl;
      (split; [intros Hvalid | intros (cfg & Hload & Hname & Hversion)]);
      try discriminate; try reflexivity;
      try (injection Hload as <-; simpl in Hname, Hversion; discriminate).
    eexists. split; [reflexivity |]. split; reflexivity.
  - destruct (falsy (env !! "HYDROPULSE_SERVICE_NAME"));
      destruct (falsy (env !! "HYDROPULSE_SERVICE_VERSION"));
      [right | right | right | left]; try done; by eexists.
Qed.

End EnvironmentProperties.

(** ** A new core *)

Section NewCore.
Context `{engine : RegExpEngine} `{backends : Backends}.

(** X23: a configuration with a service name and a service version gives
    a core. The constructor has created two backend objects of different
    classes and called neither; the core keeps the caller's configuration,
    with defaults only where a group was left out; its queue and its table
    of retries are empty, the gate lets requests through, and
    [getHealthStatus] reports an unhealthy core on the primary backend
    with a closed breaker until [initialize] is called. *)
Theorem constructor_accepts (raw : Raw.TelemetryConfig) (now : Z) :
  falsy (Raw.serviceName raw) = false ->
  falsy (Raw.serviceVersion raw) = false ->
  exists w primaryClass fallbackClass,
    constructor (Some raw) now
      = (Normal w, [Instantiate primaryClass; Instantiate fallbackClass])
    /\ primaryClass <> fallbackClass
    /\ effects w = [Instantiate primaryClass; Instantiate fallbackClass]
    /\ source (config w) = raw
    /\ (forall b, Raw.batching raw = Some b -> batching (config w) = b)
    /\ (forall b, Raw.circuitBreaker raw = Some b -> circuitBreaker (config w) = b)
    /\ (forall r, Raw.retry raw = Some r -> retry (config w) = r)
    /\ eventQueue w = [] /\ retryTimeouts w = ∅ /\ timers w = []
    /\ result shouldAttemptRequest w = Normal true
    /\ getHealthStatus w
       = {| Health.healthy := false; Health.provider := "primary";
            Health.queueSize := 0; Health.circuitBreakerState := "closed" |}.
Proof.
  intros Hname Hversion.
  unfold constructor, validateAndNormalizeConfig. rewrite Hname, Hversion.
  unfold newCore, initializeProviders. simpl.
  destruct (Raw.provider raw);
    [| | | destruct (truthy (default JsUndefined (Raw.alloy raw)))];
    (eexists; eexists; eexists; split; [reflexivity |]; simpl;
     split; [discriminate |];
     split; [reflexivity |];
     split; [reflexivity |];
     split; [by intros b -> |];
     split; [by intros b -> |];
     split; [by intros r -> |];
     split; [reflexivity |];
     split; [reflexivity |];
     split; [reflexivity |];
     split; reflexivity).
Qed.

End NewCore.

Section NewCoreExamples.
#[local] Existing Instance Regex.engine.
#[local] Existing Instance Scripted.backends.
Import Scenario.

Lemma constructor_accepts_witness :
  exists w primaryClass fallbackClass,
    constructor (Some zeroBatch) 0
      = (Normal w, [Instantiate primaryClass; Instantiate fallbackClass])
    /\ primaryClass <> fallbackClass
    /\ effects w = [Instantiate primaryClass; Instantiate fallbackClass]
    /\ source (config w) = zeroBatch
    /\ (forall b, Raw.batching zeroBatch = Some b -> batching (config w) = b)
    /\ (forall b, Raw.circuitBreaker zeroBatch = Some b -> circuitBreaker (config w) = b)
    /\ (forall r, Raw.retry zeroBatch = Some r -> retry (config w) = r)
    /\ eventQueue w = [] /\ retryTimeouts w = ∅ /\ timers w = []
    /\ result shouldAttemptRequest w = Normal true
    /\ getHealthStatus w
       = {| Health.healthy := false; Health.provider := "primary";
            Health.queueSize := 0; Health.circuitBreakerState := "closed" |}.
Proof.
  exact (constructor_accepts zeroBatch 0 eq_refl eq_refl).
Defined.

End NewCoreExamples.

(** ** The table of active spans *)

Section ActiveSpans.
Context `{engine : RegExpEngine} `{backends : Backends} `{stacks : StackTraces}.
Import Traces.

Lemma startSpan_run (operationName : string) (attributes : option Object.Properties)
    (parentSpanId : option string) (spans : ActiveSpans) (w : World) :
  let trace := newTrace operationName attributes parentSpanId (clock w) in
  startSpan operationName attributes parentSpanId spans w
  = (result (startTrace (traceValue trace)) w,
     match result (startTrace (traceValue trace)) w with
     | Normal id => <[id := set_spanId id trace]> spans
     | Throw _ => spans
     end,
     after (startTrace (traceValue trace)) w).
Proof.
  unfold startSpan, result, after.
  by destruct (startTrace _ w) as [[id | e] w'].
Qed.

Lemma finishSpan_known (spanId : string) (attributes : option Object.Properties)
    (error : option JsError) (spans : ActiveSpans) (w : World) (span : TraceData) :
  spans !! spanId = Some span ->
  finishSpan spanId attributes error spans w
  = match endTrace spanId (JsObject (finalAttributes span attributes error (clock w))) w
    with
    | (Normal _, w') => (Normal tt, delete spanId spans, w')
    | (Throw e, w') => (Throw e, spans, w')
    end.
Proof. intros Hspan. unfold finishSpan. by rewrite Hspan. Qed.

(** X24: a span goes into the table when the core has given it an id, and
    out of it when the core has taken its end. When [startSpan] returns an
    id that was not in the table, the table holds the new span under it; a
    [finishSpan] of that id that returns puts the table back as it was, a
    [finishSpan] that throws (the error of [endTrace]) leaves the span in
    the table, and a [finishSpan] of an id that is not in the table returns
    without a call to the core. When [startSpan] throws, the table is
    unchanged. *)
Theorem span_round_trip (operationName : string) (attributes : option Object.Properties)
    (parentSpanId : option string) (spans : ActiveSpans) (w : World) :
  let start := startSpan operationName attributes parentSpanId spans w in
  match start.1.1 with
  | Throw _ => start.1.2 = spans
  | Normal id =>
      spans !! id = None ->
      getActiveSpan id start.1.2
        = Some (set_spanId id (newTrace operationName attributes parentSpanId (clock w)))
      /\ forall attributes' error v,
           let finish := finishSpan id attributes' error start.1.2 v in
           match finish.1.1 with
           | Normal _ =>
               finish.1.2 = spans
               /\ finishSpan id attributes' error finish.1.2 finish.2
                  = (Normal tt, spans, finish.2)
           | Throw e =>
               finish.1.2 = start.1.2
               /\ exists final, result (endTrace id (JsObject final)) v = Throw e
           end
  end.
Proof.
  intros start. subst start. rewrite startSpan_run. cbn [fst snd].
  destruct (result (startTrace _) w) as [id | e]; [| done].
  intros Hfresh. unfold getActiveSpan. rewrite lookup_insert_eq.
  split; [done |].
  intros attributes' error v.
  rewrite (finishSpan_known id attributes' error _ v _ (lookup_insert_eq _ _ _)).
  unfold result. destruct (endTrace id _ v) as [[[] | e] v'] eqn:Hend;
    cbn [fst snd].
  - rewrite (delete_insert_id _ _ _ Hfresh). split; [done |].
    unfold finishSpan. by rewrite Hfresh.
  - split; [done |]. eexists. by rewrite Hend.
Qed.

(** [startTrace] behind a gate that refuses. *)
Lemma startTrace_refused (payload clean : JsValue) (w : World) :
  result (sanitizeData payload) w = Normal clean ->
  result shouldAttemptRequest w = Normal false ->
  startTrace payload w
  = (Normal ("queued-" +:+ pretty (clock w)),
     after (queueEvent {| type := trace; data := clean;
                          timestamp := clock w; retryCount := None |}) w).
Proof.
  intros Hclean Hgate. unfold startTrace. unfold bind at 1.
  rewrite (run_pure _ clean w (sanitizeData_pure payload) Hclean).
  unfold bind at 1. rewrite (shouldAttemptRequest_refuses w Hgate). simpl.
  unfold bind, Date_now, read, queueEvent, update, ret, after. reflexivity.
Qed.

(** What [sanitizeData] and the gate answer depends on the configuration,
    the breaker and the clock only. *)
Lemma sanitizeData_config (payload : JsValue) (w v : World) :
  config v = config w -> result (sanitizeData payload) v = result (sanitizeData payload) w.
Proof.
  intros Hcfg.
  unfold result, sanitizeData, bind, read, ret, throw, tryCatch, liftCompletion.
  simpl. rewrite Hcfg.
  destruct (enabled (sanitization (config w))); simpl; [| done].
  destruct (JSON.stringify payload) as [serialized | e]; [| done].
  destruct (piiPatterns (sanitization (config w))) as [patterns |]; [| done].
  destruct (redact patterns serialized) as [sanitized | e]; [| done].
  by destruct (JSON.parse sanitized).
Qed.

Lemma gate_depends (w v : World) :
  circuitBreakerState v = circuitBreakerState w -> clock v = clock w ->
  result shouldAttemptRequest v = result shouldAttemptRequest w.
Proof.
  intros Hb Hclock.
  unfold result, shouldAttemptRequest, Date_now, bind, read, update, ret. simpl.
  rewrite Hb, Hclock. destruct (state (circuitBreakerState w)); simpl; try done.
  by destruct (reached _ _).
Qed.

(** X25: while the gate refuses, the id [startSpan] returns is made of the
    clock alone, so two spans newTrace in the same millisecond get the same
    id. The second takes the place of the first in the table: the first
    span can no longer be finished, and both were queued by the core. *)
Theorem blocked_spans_share_an_id
    (name1 name2 : string) (attributes1 attributes2 : option Object.Properties)
    (parent1 parent2 : option string) (clean1 clean2 : JsValue)
    (spans : ActiveSpans) (w : World) :
  let trace1 := newTrace name1 attributes1 parent1 (clock w) in
  let trace2 := newTrace name2 attributes2 parent2 (clock w) in
  result shouldAttemptRequest w = Normal false ->
  result (sanitizeData (traceValue trace1)) w = Normal clean1 ->
  result (sanitizeData (traceValue trace2)) w = Normal clean2 ->
  let id := "queued-" +:+ pretty (clock w) in
  let first := startSpan name1 attributes1 parent1 spans w in
  let second := startSpan name2 attributes2 parent2 first.1.2 first.2 in
  first.1.1 = Normal id
  /\ second.1.1 = Normal id
  /\ second.1.2 = <[id := set_spanId id trace2]> spans
  /\ second.2
     = after (queueEvent {| type := trace; data := clean2;
                            timestamp := clock w; retryCount := None |})
         (after (queueEvent {| type := trace; data := clean1;
                               timestamp := clock w; retryCount := None |}) w).
Proof.
  intros trace1 trace2 Hgate Hclean1 Hclean2 id first second.
  set (w1 := after (queueEvent {| type := trace; data := clean1;
                                  timestamp := clock w; retryCount := None |}) w).
  assert (config w1 = config w /\ circuitBreakerState w1 = circuitBreakerState w
          /\ clock w1 = clock w) as (Hcfg & Hb & Hclock) by done.
  assert (first = (Normal id, <[id := set_spanId id trace1]> spans, w1)) as Hfirst.
  { subst first. rewrite startSpan_run. fold trace1. unfold result, after.
    by rewrite (startTrace_refused _ clean1 w Hclean1 Hgate). }
  assert (result (sanitizeData (traceValue trace2)) w1 = Normal clean2) as Hclean2'
    by (by rewrite (sanitizeData_config _ w w1 Hcfg)).
  assert (result shouldAttemptRequest w1 = Normal false) as Hgate'
    by (by rewrite (gate_depends w w1 Hb Hclock)).
  assert (second
          = (Normal id, <[id := set_spanId id trace2]> spans,
             after (queueEvent {| type := trace; data := clean2;
                                  timestamp := clock w; retryCount := None |}) w1))
    as Hsecond.
  { subst second. rewrite Hfirst. cbn [fst snd]. rewrite startSpan_run.
    rewrite Hclock. fold trace2. unfold result, after.
    rewrite (startTrace_refused _ clean2 w1 Hclean2' Hgate'). cbn [fst snd].
    rewrite Hclock. fold id. by rewrite insert_insert_eq. }
  by rewrite Hfirst, Hsecond.
Qed.

(** X26: [recordSpan] closes the span it opened. When [startSpan] has
    returned an id and the [finishSpan] that follows the caller's function
    returns, [recordSpan] completes as the function did, with its value or
    its error, and the id is not in the table afterwards. *)
Theorem recordSpan_closes_its_span {A} (operationName : string)
    (fn : ActiveSpans -> World -> Run A) (attributes : option Object.Properties)
    (spans : ActiveSpans) (w : World) (id : string) :
  let start := startSpan operationName attributes None spans w in
  start.1.1 = Normal id ->
  let ran := fn start.1.2 start.2 in
  let finish :=
    finishSpan id
      (Some [("success", JsBool (if ran.1.1 is Normal _ then true else false))])
      (thrown ran.1.1) ran.1.2 ran.2 in
  finish.1.1 = Normal tt ->
  recordSpan operationName fn attributes spans w = (ran.1.1, finish.1.2, finish.2)
  /\ finish.1.2 !! id = None.
Proof.
  intros start Hstart ran finish Hfinish. subst start ran finish.
  unfold recordSpan.
  destruct (startSpan operationName attributes None spans w) as [[r spans1] w1].
  simpl in *. subst r.
  destruct (fn spans1 w1) as [[[value | error] spans2] w2]; simpl in *.
  - split.
    + destruct (finishSpan id _ None spans2 w2) as [[c spans3] w3]. simpl in *.
      by subst c.
    + revert Hfinish. unfold finishSpan.
      destruct (spans2 !! id) as [span |] eqn:Hspan; [| done].
      destruct (endTrace id _ w2) as [[[] | e] w3]; simpl; [| done].
      intros _. apply lookup_delete_eq.
  - split.
    + destruct (finishSpan id _ (Some error) spans2 w2) as [[c spans3] w3]. simpl in *.
      by subst c.
    + revert Hfinish. unfold finishSpan.
      destruct (spans2 !! id) as [span |] eqn:Hspan; [| done].
      destruct (endTrace id _ w2) as [[[] | e] w3]; simpl; [| done].
      intros _. apply lookup_delete_eq.
Qed.

(** X27: when the caller's function has returned but the [finishSpan]
    that follows throws, [recordSpan] finishes the span once more, as
    failed, and then throws: the value of the function is lost, and the
    caller sees the error of the first [finishSpan], or that of the second
    when it throws as well. *)
Theorem recordSpan_drops_value_when_finish_throws {A} (operationName : string)
    (fn : ActiveSpans -> World -> Run A) (attributes : option Object.Properties)
    (spans : ActiveSpans) (w : World) (id : string) (value : A) (e1 : JsError) :
  let start := startSpan operationName attributes None spans w in
  start.1.1 = Normal id ->
  let ran := fn start.1.2 start.2 in
  ran.1.1 = Normal value ->
  let finish := finishSpan id (Some [("success", JsBool true)]) None ran.1.2 ran.2 in
  finish.1.1 = Throw e1 ->
  let again :=
    finishSpan id (Some [("success", JsBool false)]) (Some e1) finish.1.2 finish.2 in
  recordSpan operationName fn attributes spans w
  = (match again.1.1 with Normal _ => Throw e1 | Throw e2 => Throw e2 end,
     again.1.2, again.2).
Proof.
  intros start Hstart ran Hran finish Hfinish again. subst start ran finish again.
  unfold recordSpan.
  destruct (startSpan operationName attributes None spans w) as [[r spans1] w1].
  simpl in *. subst r.
  destruct (fn spans1 w1) as [[r spans2] w2]. simpl in *. subst r.
  destruct (finishSpan id _ None spans2 w2) as [[c spans3] w3]. simpl in *. subst c.
  by destruct (finishSpan id _ (Some e1) spans3 w3) as [[[[] | e2] spans4] w4].
Qed.

End ActiveSpans.

Section ActiveSpansExamples.
#[local] Existing Instance Regex.engine.
#[local] Existing Instance Scripted.backends.
#[local] Existing Instance Scenario.noStacks.
Import Scenario Traces.

Lemma span_round_trip_witness :
  let start := startSpan "checkout" None None ∅ steady in
  getActiveSpan "span-1" start.1.2
    = Some (set_spanId "span-1" (newTrace "checkout" None None (clock steady)))
  /\ forall attributes' error v,
       let finish := finishSpan "span-1" attributes' error start.1.2 v in
       match finish.1.1 with
       | Normal _ =>
           finish.1.2 = ∅
           /\ finishSpan "span-1" attributes' error finish.1.2 finish.2
              = (Normal tt, ∅, finish.2)
       | Throw e =>
           finish.1.2 = start.1.2
           /\ exists final, result (endTrace "span-1" (JsObject final)) v = Throw e
       end.
Proof.
  intros start.
  assert (start.1.1 = Normal "span-1") as Hstart by (vm_compute; reflexivity).
  pose proof (span_round_trip "checkout" None None ∅ steady) as Htrip.
  cbv zeta in Htrip. fold start in Htrip. rewrite Hstart in Htrip.
  apply Htrip. apply lookup_empty.
Defined.

Lemma blocked_spans_share_an_id_witness :
  let id := "queued-0" in
  let first := startSpan "checkout" None None ∅ tripped in
  let second :=
    startSpan "payment" (Some [("card", JsString "4111 1111 1111 1111")]) (Some "root")
              first.1.2 first.2 in
  first.1.1 = Normal id
  /\ second.1.1 = Normal id
  /\ second.1.2
     = <[id := set_spanId id
                 (newTrace "payment" (Some [("card", JsString "4111 1111 1111 1111")])
                           (Some "root") (clock tripped))]> ∅
  /\ second.2
     = after (queueEvent
                {| type := trace;
                   data := JsObject
                             [("operationName", JsString "payment");
                              ("startTime", JsNumber 0);
                              ("attributes", JsObject [("card", JsString "[REDACTED]")]);
                              ("parentSpanId", JsString "root");
                              ("status", JsString "ok")];
                   timestamp := clock tripped; retryCount := None |})
         (after (queueEvent
                   {| type := trace;
                      data := JsObject [("operationName", JsString "checkout");
                                        ("startTime", JsNumber 0);
                                        ("status", JsString "ok")];
                      timestamp := clock tripped; retryCount := None |}) tripped).
Proof.
  assert (result shouldAttemptRequest tripped = Normal false) as Hgate
    by (vm_compute; reflexivity).
  assert (result (sanitizeData
                    (traceValue (newTrace "checkout" None None (clock tripped)))) tripped
          = Normal (JsObject [("operationName", JsString "checkout");
                              ("startTime", JsNumber 0); ("status", JsString "ok")]))
    as Hclean1 by (vm_compute; reflexivity).
  assert (result (sanitizeData
                    (traceValue
                       (newTrace "payment"
                                 (Some [("card", JsString "4111 1111 1111 1111")])
                                 (Some "root") (clock tripped)))) tripped
          = Normal (JsObject
                      [("operationName", JsString "payment");
                       ("startTime", JsNumber 0);
                       ("attributes", JsObject [("card", JsString "[REDACTED]")]);
                       ("parentSpanId", JsString "root");
                       ("status", JsString "ok")]))
    as Hclean2 by (vm_compute; reflexivity).
  exact (blocked_spans_share_an_id "checkout" "payment" None _ None (Some "root") _ _
           ∅ tripped Hgate Hclean1 Hclean2).
Defined.

Lemma recordSpan_closes_its_span_witness :
  let start := startSpan "checkout" None None ∅ steady in
  let ran := failing start.1.2 start.2 in
  let finish :=
    finishSpan "span-1"
      (Some [("success", JsBool (if ran.1.1 is Normal _ then true else false))])
      (thrown ran.1.1) ran.1.2 ran.2 in
  recordSpan "checkout" failing None ∅ steady = (ran.1.1, finish.1.2, finish.2)
  /\ finish.1.2 !! "span-1" = None.
Proof.
  pose proof (recordSpan_closes_its_span "checkout" failing None ∅ steady "span-1")
    as Hcloses.
  cbv zeta in *. apply Hcloses; vm_compute; reflexivity.
Defined.

Lemma recordSpan_drops_value_when_finish_throws_witness :
  let start := startSpan "checkout" None None ∅ steady in
  let ran := tagsSpan start.1.2 start.2 in
  let finish := finishSpan "span-1" (Some [("success", JsBool true)]) None ran.1.2 ran.2 in
  let again :=
    finishSpan "span-1" (Some [("success", JsBool false)])
               (Some (TypeError "Do not know how to serialize a BigInt"))
               finish.1.2 finish.2 in
  recordSpan "checkout" tagsSpan None ∅ steady
  = (match again.1.1 with
     | Normal _ => Throw (TypeError "Do not know how to serialize a BigInt")
     | Throw e2 => Throw e2
     end,
     again.1.2, again.2).
Proof.
  pose proof (recordSpan_drops_value_when_finish_throws "checkout" tagsSpan None ∅
                steady "span-1" (JsNumber 42)
                (TypeError "Do not know how to serialize a BigInt")) as Hdrops.
  cbv zeta in *. apply Hdrops; vm_compute; reflexivity.
Defined.

(** The function has returned 42, yet [recordSpan] throws and the span is
    still in the table. *)
Example recordSpan_with_a_BigInt_attribute :
  let run := recordSpan "checkout" tagsSpan None ∅ steady in
  run.1.1 = Throw (TypeError "Do not know how to serialize a BigInt")
  /\ (map_to_list run.1.2).*1 = ["span-1"]
  /\ drop 2 (effects run.2)
     = [Invoke primary
          (CallStartTrace (JsObject [("operationName", JsString "checkout");
                                     ("startTime", JsNumber 0);
                                     ("status", JsString "ok")]))].
Proof. vm_compute. done. Qed.

End ActiveSpansExamples.

(** ** The log buffer *)

Section LogBuffer.
Context `{engine : RegExpEngine} `{backends : Backends}.
Import Logs.

Lemma flushBuffer_wellFormed (b : Buffer) (w : World) :
  (match flushTimeout b with
   | Some timeout =>
       armed b = [{| handle := timeout; delayMs := 5000 |}] \/ armed b = []
   | None => armed b = []
   end) ->
  (logBuffer b = [] -> wellFormed b) ->
  wellFormed (flushBuffer b w).1.2.
Proof.
  intros Harmed Hempty. unfold flushBuffer.
  destruct (logBuffer b) as [| first rest] eqn:Hbuffer; [by apply Hempty |].
  destruct (logBatch (first :: rest) w) as [completion w'].
  unfold wellFormed. cbn [fst snd logBuffer flushTimeout armed length].
  split; [lia |]. split; [| done].
  destruct (flushTimeout b) as [timeout |]; [| done].
  destruct Harmed as [-> | ->]; [| done].
  rewrite filter_cons_False by (cbn [handle]; intros Hne; by apply Hne). done.
Qed.

Lemma pushed_not_empty {A} (l : list A) (a : A) : l ++ [a] <> [].
Proof. by destruct l. Qed.

Lemma bufferLog_wellFormed (level : Level) (message : string)
    (attributes : option Object.Properties) (b : Buffer) (w : World) :
  wellFormed b -> wellFormed (bufferLog level message attributes b w).1.
Proof.
  intros [Hlen Htimer]. unfold bufferLog. cbn [logBuffer flushTimeout armed].
  rewrite length_app. cbn [length].
  destruct (Nat.leb_spec 100 (length (logBuffer b) + 1)) as [Hfull | Hroom].
  - unfold detached. cbn [fst]. apply flushBuffer_wellFormed;
      cbn [logBuffer flushTimeout armed].
    + destruct (flushTimeout b); [left |]; apply Htimer.
    + intros Hnil. by apply pushed_not_empty in Hnil.
  - destruct (flushTimeout b) as [timeout |]; cbn [fst];
      unfold wellFormed; cbn [logBuffer flushTimeout armed]; rewrite length_app;
      cbn [length]; (split; [lia |]).
    + split; [apply Htimer | apply pushed_not_empty].
    + destruct Htimer as [-> _]. split; [done | apply pushed_not_empty].
Qed.

Lemma step_wellFormed (s : Step) (b : Buffer) (w : World) :
  wellFormed b -> wellFormed (step s (b, w)).1.
Proof.
  intros Hb. pose proof Hb as [Hlen Htimer].
  destruct s as [level message attributes | | index | action]; cbn [step].
  - by apply bufferLog_wellFormed.
  - unfold detached. cbn [fst]. apply flushBuffer_wellFormed; [| done].
    destruct (flushTimeout b); [left |]; apply Htimer.
  - destruct (armed b !! index) as [t |] eqn:Hindex; [| done].
    unfold fireFlushTimer, detached. cbn [fst].
    apply flushBuffer_wellFormed; cbn [logBuffer flushTimeout armed].
    + destruct (flushTimeout b) as [timeout |]; [right |].
      * destruct Htimer as [Harmed _]. rewrite Harmed in Hindex |- *.
        destruct index as [| index]; [| done]. injection Hindex as <-.
        rewrite filter_cons_False by (cbn [handle]; intros Hne; by apply Hne). done.
      * destruct Htimer as [Harmed _]. by rewrite Harmed.
    + intros Hnil. destruct (flushTimeout b) as [timeout |].
      * by destruct Htimer as [_ Hfilled].
      * destruct Htimer as [Harmed _]. by rewrite Harmed in Hindex.
  - done.
Qed.

(** X28: the log buffer stays well formed under every sequence of
    [bufferLog] and [flushBuffer] calls, fired flush timers and calls of
    the core: fewer than 100 logs wait, and logs wait exactly while one
    flush timer of 5000 ms is armed, the one [flushTimeout] names; with an
    empty buffer no flush timer is armed. *)
Theorem buffer_stays_well_formed (l : list Step) (b : Buffer) (w : World) :
  wellFormed b -> wellFormed (steps l (b, w)).1.
Proof.
  revert b w. induction l as [| s l IH]; intros b w Hb; [done |].
  change (steps (s :: l) (b, w)) with (steps l (step s (b, w))).
  pose proof (step_wellFormed s b w Hb) as Hstep.
  destruct (step s (b, w)) as [b' w']. by apply IH.
Qed.

Lemma forOf_stops {A} (before later : list A) (bad : A) (body : A -> M unit)
    (w : World) (e : JsError) :
  result (forOf before body) w = Normal tt ->
  result (body bad) (after (forOf before body) w) = Throw e ->
  forOf (before ++ bad :: later) body w
  = (Throw e, after (body bad) (after (forOf before body) w)).
Proof.
  revert w. induction before as [| a before IH]; intros w; simpl.
  - unfold result, after, ret, bind. simpl. intros _ Hbad.
    destruct (body bad w) as [c w']. simpl in *. by subst c.
  - unfold result, after, bind in *. destruct (body a w) as [[[] | e'] w1]; simpl.
    + apply IH.
    + discriminate.
Qed.

(** X29: [flushBuffer] empties the buffer before it hands the logs to the
    core, one by one. When [recordLog] throws on one of them, the logs
    behind it are lost: they are no longer in the buffer, and the core has
    seen only the logs up to the one that failed. *)
Theorem flushBuffer_loses_logs_after_a_failure (b : Buffer) (w : World)
    (before later : list JsValue) (bad : JsValue) (e : JsError) :
  logBuffer b = before ++ bad :: later ->
  result (logBatch before) w = Normal tt ->
  result (recordLog bad) (after (logBatch before) w) = Throw e ->
  let run := flushBuffer b w in
  run.1.1 = Throw e
  /\ logBuffer run.1.2 = []
  /\ flushTimeout run.1.2 = None
  /\ run.2 = after (recordLog bad) (after (logBatch before) w).
Proof.
  intros Hbuffer Hbefore Hbad run. subst run. unfold flushBuffer. rewrite Hbuffer.
  destruct (before ++ bad :: later) as [| first rest] eqn:Hlogs;
    [by destruct before |].
  rewrite <- Hlogs. unfold logBatch in *.
  by rewrite (forOf_stops before later bad recordLog w e Hbefore Hbad).
Qed.

End LogBuffer.

Section LogBufferExamples.
#[local] Existing Instance Regex.engine.
#[local] Existing Instance Scripted.backends.
Import Scenario.

Lemma buffer_stays_well_formed_witness :
  Logs.wellFormed
    (Logs.steps [Logs.BufferLog Logs.info "cart opened" None;
                 Logs.BufferLog Logs.warn "stock low" None;
                 Logs.Core (Tick 5000); Logs.FireFlush 0;
                 Logs.BufferLog Logs.error "payment declined" (Some bigAttributes);
                 Logs.FlushBuffer; Logs.FlushBuffer]
                (Logs.empty, steady)).1.
Proof.
  assert (Logs.wellFormed Logs.empty) as Hempty
    by (split; [cbn [Logs.logBuffer Logs.empty length]; lia | done]).
  exact (buffer_stays_well_formed _ Logs.empty steady Hempty).
Defined.

Lemma flushBuffer_loses_logs_after_a_failure_witness :
  let run := Logs.flushBuffer threeLogs steady in
  run.1.1 = Throw (TypeError "Do not know how to serialize a BigInt")
  /\ Logs.logBuffer run.1.2 = []
  /\ Logs.flushTimeout run.1.2 = None
  /\ run.2
     = after (recordLog (Logs.entry Logs.info "order placed" (Some bigAttributes) 0))
         (after (Logs.logBatch [Logs.entry Logs.info "cart opened" None 0]) steady).
Proof.
  pose proof (flushBuffer_loses_logs_after_a_failure threeLogs steady
                [Logs.entry Logs.info "cart opened" None 0]
                [Logs.entry Logs.warn "stock low" None 0]
                (Logs.entry Logs.info "order placed" (Some bigAttributes) 0)
                (TypeError "Do not know how to serialize a BigInt")) as Hloses.
  cbv zeta in *. apply Hloses; [reflexivity | vm_compute; reflexivity ..].
Defined.

(** The hundredth [bufferLog] flushes the buffer: the hundred logs reach
    the backend and the flush timer is cancelled. The third log of
    [threeLogs] never reaches it. *)
Example hundredth_log_flushes :
  let run := Logs.steps (replicate 100 (Logs.BufferLog Logs.info "tick" None))
                        (Logs.empty, steady) in
  run.1 = Logs.empty
  /\ length (effects run.2) = 102%nat
  /\ drop 2 (effects (Logs.flushBuffer threeLogs steady).2)
     = [Invoke primary
          (CallRecordLog (JsObject [("level", JsString "info");
                                    ("message", JsString "cart opened");
                                    ("timestamp", JsNumber 0)]))].
Proof. vm_compute. done. Qed.

End LogBufferExamples.
